(** * music-sorter: a shallow embedding of [sound_utils.py] and [parser.py]

    The development follows the two source files.  Python strings are
    sequences of Unicode code points, JSON responses are dynamically typed
    values, the collaborators (the [fpcalc] subprocess, the AcoustID and
    MusicBrainz services, filesystem faults) are oracles collected in an
    environment record, and the statements of the program run in a monad
    that threads the filesystem and an event trace and may raise a Python
    exception.

    Scope of the model: paths are POSIX paths without symbolic links; an
    oracle answers the same call the same way throughout a run; a line is
    printed unless its text cannot be encoded; exceptions that do not derive
    from [Exception] are left out.  The definitions come first, module by
    module in the order of the sources; the properties follow, each group
    under the claim it settles. *)

From Stdlib Require Import String Ascii.
From stdpp Require Import gmap list.

Local Open Scope N_scope.

(** ** Python strings *)

Module PyStr.

(** A [str] is a list of code points. *)
Abbreviation pystr := (list N).

(** An ASCII literal of the source, as code points. *)
Definition lit (s : string) : pystr :=
  List.map N_of_ascii (list_ascii_of_string s).

Definition eqb (s t : pystr) : bool := bool_decide (s = t).

(** [str.isspace] on one code point: the set [str.strip()] removes. *)
Definition is_space (c : N) : bool :=
  ((9 <=? c) && (c <=? 13)) || ((28 <=? c) && (c <=? 32))
  || (c =? 133) || (c =? 160) || (c =? 5760)
  || ((8192 <=? c) && (c <=? 8202))
  || (c =? 8232) || (c =? 8233) || (c =? 8239) || (c =? 8287)
  || (c =? 12288).

Fixpoint lstrip (s : pystr) : pystr :=
  match s with
  | [] => []
  | c :: s' => if is_space c then lstrip s' else s
  end.

Definition rstrip (s : pystr) : pystr := rev (lstrip (rev s)).

(** [s.strip()] *)
Definition strip (s : pystr) : pystr := rstrip (lstrip s).

(** [sep.join(xs)] for a list of strings. *)
Fixpoint join (sep : pystr) (xs : list pystr) : pystr :=
  match xs with
  | [] => []
  | [x] => x
  | x :: xs' => x ++ sep ++ join sep xs'
  end.

(** [s.split(sep)] for a one-character separator: never the empty list. *)
Fixpoint split_on (sep : N) (s : pystr) : list pystr :=
  match s with
  | [] => [[]]
  | c :: s' =>
      if c =? sep then [] :: split_on sep s'
      else match split_on sep s' with
           | w :: ws => (c :: w) :: ws
           | [] => [[c]]
           end
  end.

(** [s.startswith(p)] *)
Fixpoint startswith (p s : pystr) : bool :=
  match p, s with
  | [], _ => true
  | _ :: _, [] => false
  | a :: p', b :: s' => (a =? b) && startswith p' s'
  end.

(** [p in s] for two strings: substring test. *)
Fixpoint contains (p s : pystr) : bool :=
  startswith p s ||
  match s with
  | [] => false
  | _ :: s' => contains p s'
  end.

(** [s.split(sep, 1)[1]]: what follows the first separator, [None] when
    there is none (an [IndexError] in Python). *)
Fixpoint after_first (sep : N) (s : pystr) : option pystr :=
  match s with
  | [] => None
  | c :: s' => if c =? sep then Some s' else after_first sep s'
  end.

(** [s.lower()] on the ASCII letters.  The full Unicode mapping differs on
    code points above 127 only, and maps none of them to a string made of
    the characters of [.mp3], [.flac], [.wav] or [.ogg], the only strings a
    lowered suffix is compared with. *)
Definition lower_char (c : N) : N :=
  if (65 <=? c) && (c <=? 90) then c + 32 else c.

Definition lower (s : pystr) : pystr := List.map lower_char s.

(** A lone surrogate cannot be encoded: [s.encode("utf-8")] raises
    [UnicodeEncodeError] exactly when one occurs in [s]. *)
Definition is_surrogate (c : N) : bool := (55296 <=? c) && (c <=? 57343).

Definition utf8_encodable (s : pystr) : bool := forallb (fun c => negb (is_surrogate c)) s.

End PyStr.

Import PyStr.

(** ** sound_utils.py: the name sanitizer *)

Module Sanitizer.

(** The character class of the regular expression in [escape_folder_name],
    by code point: less-than, greater-than, colon, double quote, slash,
    backslash, bar, question mark, star, newline, carriage return, tab. *)
Definition forbidden : list N := [60; 62; 58; 34; 47; 92; 124; 63; 42; 10; 13; 9].

Definition is_forbidden (c : N) : bool := existsb (N.eqb c) forbidden.

Definition underscore : N := 95.

(** [re.sub(<the class above>, '_', name)] *)
Definition re_sub_invalid (name : pystr) : pystr :=
  List.map (fun c => if is_forbidden c then underscore else c) name.

(** [escape_folder_name]:
    [return sanitized_name.strip() or "unsorted"] *)
Definition escape_folder_name (name : pystr) : pystr :=
  let sanitized_name := re_sub_invalid name in
  match strip sanitized_name with
  | [] => lit "unsorted"
  | s => s
  end.

End Sanitizer.

Import Sanitizer.


(** ** Python exceptions and dynamically typed values *)

Module Py.

(** The exception classes the two files can meet.  All of them derive from
    [Exception]; [KeyboardInterrupt] and [SystemExit], which do not, are
    outside the model. *)
Inductive exn :=
  | FileNotFoundError
  | FileExistsError
  | NotADirectoryError
  | SameFileError
  | OSError (errno : N)
  | TypeError
  | AttributeError
  | KeyError
  | IndexError
  | ValueError
  | UnicodeEncodeError
  | NameError
  | RequestException (tag : N)
  | WebServiceError (tag : N)
  | OtherException (tag : N).

(** The result of a computation that may raise. *)
Inductive res (A : Type) :=
  | Ok (a : A)
  | Raise (x : exn).
Arguments Ok {A} a.
Arguments Raise {A} x.

Definition res_bind {A B} (r : res A) (k : A -> res B) : res B :=
  match r with
  | Ok a => k a
  | Raise x => Raise x
  end.

(** What [response.json()] and [musicbrainzngs] hand to the program: [None],
    booleans, integers, strings, lists, and dictionaries in insertion
    order.  A non-integer number is kept as the dyadic [m * 2^e]; of a
    number the program only ever takes the truth value. *)
#[local] Set Warnings "-register-all".
Inductive value :=
  | VNone
  | VBool (b : bool)
  | VInt (n : Z)
  | VFloat (m e : Z)
  | VStr (s : pystr)
  | VList (l : list value)
  | VDict (d : list (pystr * value)).

Declare Scope res_scope.
Delimit Scope res_scope with res.
Bind Scope res_scope with res.

Notation "x <~ r ;; k" := (res_bind r (fun x => k))
  (at level 100, r at next level, right associativity) : res_scope.

(** [bool(v)] *)
Definition truthy (v : value) : bool :=
  match v with
  | VNone => false
  | VBool b => b
  | VInt n => negb (n =? 0)%Z
  | VFloat m _ => negb (m =? 0)%Z
  | VStr s => match s with [] => false | _ => true end
  | VList l => match l with [] => false | _ => true end
  | VDict d => match d with [] => false | _ => true end
  end.

(** Dictionary lookup by a string key. *)
Fixpoint dict_lookup (k : pystr) (d : list (pystr * value)) : option value :=
  match d with
  | [] => None
  | (k', v) :: d' => if eqb k k' then Some v else dict_lookup k d'
  end.

Definition is_str (k : pystr) (v : value) : bool :=
  match v with
  | VStr s => eqb k s
  | _ => false
  end.

(** [k in v] for a string [k]: key of a dictionary, element of a list,
    substring of a string; a [TypeError] on anything else. *)
Definition py_in (k : pystr) (v : value) : res bool :=
  match v with
  | VDict d => Ok (match dict_lookup k d with Some _ => true | None => false end)
  | VList l => Ok (existsb (is_str k) l)
  | VStr s => Ok (contains k s)
  | _ => Raise TypeError
  end.

(** [v[k]] for a string [k] that is known to be [in v]: only a dictionary
    can be indexed by a string. *)
Definition py_index (v : value) (k : pystr) : res value :=
  match v with
  | VDict d => match dict_lookup k d with
               | Some x => Ok x
               | None => Raise KeyError
               end
  | _ => Raise TypeError
  end.

(** [v.get(k, default)]: only dictionaries have [get]. *)
Definition py_get (v : value) (k : pystr) (default : value) : res value :=
  match v with
  | VDict d => Ok (match dict_lookup k d with Some x => x | None => default end)
  | _ => Raise AttributeError
  end.

(** [for x in v]: the elements of a list, the keys of a dictionary, the
    characters of a string. *)
Definition py_iter (v : value) : res (list value) :=
  match v with
  | VList l => Ok l
  | VDict d => Ok (List.map (fun kv => VStr (fst kv)) d)
  | VStr s => Ok (List.map (fun c => VStr [c]) s)
  | _ => Raise TypeError
  end.

(** [isinstance(v, dict)] *)
Definition is_dict (v : value) : bool :=
  match v with
  | VDict _ => true
  | _ => false
  end.

(** [sep.join(xs)]: a [TypeError] unless every item is a string. *)
Fixpoint as_strs (xs : list value) : res (list pystr) :=
  match xs with
  | [] => Ok []
  | VStr s :: xs' => res_bind (as_strs xs') (fun ss => Ok (s :: ss))
  | _ :: _ => Raise TypeError
  end.

Definition py_join (sep : pystr) (xs : list value) : res pystr :=
  res_bind (as_strs xs) (fun ss => Ok (join sep ss)).

(** [int(s)] in base 10.  The string is first brought to ASCII: an ASCII
    character stays, a Unicode space becomes a blank, a decimal digit of
    any script becomes the ASCII digit of its value, and any other
    character is an error.  What is read then is: blanks around (tab,
    newline, vertical tab, form feed, carriage return, space), an optional
    sign, and decimal digits with single underscores between them.
    [decimal] is the table of the decimal digits of the Unicode database of
    the interpreter.  The limit that [sys.set_int_max_str_digits] puts on
    the number of digits is left out. *)
Definition to_ascii (decimal : N -> option N) (c : N) : option N :=
  if c <? 128 then Some c
  else if is_space c then Some 32
  else match decimal c with
       | Some d => if d <=? 9 then Some (48 + d) else None
       | None => None
       end.

Fixpoint transform (decimal : N -> option N) (s : pystr) : option pystr :=
  match s with
  | [] => Some []
  | c :: s' =>
      match to_ascii decimal c, transform decimal s' with
      | Some a, Some t => Some (a :: t)
      | _, _ => None
      end
  end.

Definition is_blank (c : N) : bool := ((9 <=? c) && (c <=? 13)) || (c =? 32).

Fixpoint skip_blanks (s : pystr) : pystr :=
  match s with
  | [] => []
  | c :: s' => if is_blank c then skip_blanks s' else s
  end.

Definition trim_blanks (s : pystr) : pystr := rev (skip_blanks (rev (skip_blanks s))).

Definition is_digit (c : N) : bool := (48 <=? c) && (c <=? 57).

Fixpoint digits_value (acc : Z) (after_digit : bool) (s : pystr) : option Z :=
  match s with
  | [] => if after_digit then Some acc else None
  | c :: s' =>
      if is_digit c then digits_value (10 * acc + Z.of_N (c - 48))%Z true s'
      else if (c =? 95) && after_digit then
        match s' with
        | d :: _ => if is_digit d then digits_value acc false s' else None
        | [] => None
        end
      else None
  end.

Definition py_int (decimal : N -> option N) (s : pystr) : res Z :=
  let body (neg : bool) (ds : pystr) :=
    match digits_value 0 false ds with
    | Some n => Ok (if neg then - n else n)%Z
    | None => Raise ValueError
    end in
  match transform decimal s with
  | None => Raise ValueError
  | Some a =>
      match trim_blanks a with
      | 45 :: ds => body true ds
      | 43 :: ds => body false ds
      | ds => body false ds
      end
  end.

End Py.

Import Py.

(** ** pathlib paths *)

Module PyPath.

(** A path is the list of its components, as [PurePosixPath.parts]; the
    root is the one-character component [/], possible at the head only. *)
Abbreviation Path := (list pystr).

Definition slash : N := 47.
Definition dot : N := 46.

(** The components a string contributes: empty ones and [.] are dropped. *)
Definition parts_of (s : pystr) : Path :=
  List.filter (fun c => negb (eqb c [] || eqb c [dot])) (split_on slash s).

(** [p / s]: a string that starts with a slash replaces [p]. *)
Definition path_div (p : Path) (s : pystr) : Path :=
  match s with
  | c :: _ => if c =? slash then [slash] :: parts_of s else p ++ parts_of s
  | [] => p
  end.

(** [p.name]: the last component, the root excepted. *)
Definition name (p : Path) : pystr :=
  match last p with
  | Some c => if eqb c [slash] then [] else c
  | None => []
  end.

(** [p.parent] *)
Definition parent (p : Path) : Path := removelast p.

(** [s.rfind(c)] *)
Fixpoint rfind_from (c : N) (s : pystr) (i : nat) : option nat :=
  match s with
  | [] => None
  | x :: s' =>
      match rfind_from c s' (S i) with
      | Some j => Some j
      | None => if x =? c then Some i else None
      end
  end.

(** [p.suffix]:
    [i = name.rfind('.'); name[i:] if 0 < i < len(name) - 1 else ''] *)
Definition suffix (p : Path) : pystr :=
  let n := name p in
  match rfind_from dot n 0 with
  | Some i => if ((0 <? i) && (i <? length n - 1))%nat then drop i n else []
  | None => []
  end.

(** [Path(str(p).encode("utf-8").decode())]: the same path, or a
    [UnicodeEncodeError] when a component holds a lone surrogate (a file
    name that is not valid UTF-8, as [os.fsdecode] presents it). *)
Definition reencode (p : Path) : res Path :=
  if forallb utf8_encodable p then Ok p else Raise UnicodeEncodeError.

(** A path and all its ancestors, the path itself last. *)
Definition ancestors (p : Path) : list Path :=
  List.map (fun n => take n p) (seq 1 (length p)).

End PyPath.

Import PyPath.

(** ** The world the program runs in *)

Module World.

(** A regular file: its bytes and the metadata [copy2] preserves. *)
Record file := { data : list N; mtime : Z }.

(** Filesystem calls, for the fault oracle. *)
Inductive fs_op :=
  | OpMkdir (p : Path)
  | OpCopy2 (src dst : Path)
  | OpUnlink (p : Path).

(** The lines the program prints. *)
Inductive message :=
  | MsgFpcalcNotFound
  | MsgFingerprintError (p : Path) (x : exn)
  | MsgAcoustidError (x : exn)
  | MsgMusicbrainzError (recording_id : value) (x : exn)
  | MsgErrorProcessing (p : Path) (x : exn)
  | MsgNoMetadataMoved (src dst : Path)
  | MsgDeleted (p : Path)
  | MsgErrorDeleting (p : Path) (x : exn)
  | MsgBatch (index total size : Z)
  | MsgSkipInvalid (p : Path)
  | MsgUnsupported (p : Path)
  | MsgCopied (src dst : Path).

(** The calls the program makes to its collaborators, in order.  A call is
    recorded when it is made, whether or not it succeeds. *)
Inductive event :=
  | EvPrint (m : message)
  | EvFpcalc (p : Path)
  | EvAcoustid (fingerprint : pystr) (duration : Z) (api_key : pystr)
  | EvSetUseragent (contact_email : pystr)
  | EvMusicbrainz (recording_id : value)
  | EvMkdir (p : Path)
  | EvCopy2 (src dst : Path)
  | EvUnlink (p : Path)
  | EvExecutorEnter
  | EvExecutorSubmit (p : Path)
  | EvExecutorExit.

(** The collaborators, as oracles:
    - [fpcalc p]: the standard output of [subprocess.run(["fpcalc", p])];
    - [acoustid fp d key]: [requests.get], [raise_for_status] and [json()];
    - [musicbrainz id email]: [musicbrainzngs.get_recording_by_id];
    - [fs_fault op]: an error of the operating system on a filesystem call
      (permissions, a full disk, ...);
    - [py_format v]: [str(v)] of a value that is not a string, as an
      f-string interpolates it;
    - [decimal_digit c]: the value of the code point [c] as a decimal
      digit in the Unicode database of the interpreter, for [int]. *)
Record env := {
  fpcalc : Path -> res pystr;
  acoustid : pystr -> Z -> pystr -> res value;
  musicbrainz : value -> pystr -> res value;
  fs_fault : fs_op -> option exn;
  py_format : value -> pystr;
  decimal_digit : N -> option N
}.

(** The mutable state: regular files, directories, and the trace. *)
Record world := {
  files : gmap Path file;
  dirs : gset Path;
  trace : list event
}.

Definition is_file (w : world) (p : Path) : bool :=
  bool_decide (is_Some (files w !! p)).

(** The working directory (no component) and the root always exist. *)
Definition is_anchor (p : Path) : bool :=
  bool_decide (p = []) || bool_decide (p = [[slash]]).

Definition is_dir (w : world) (p : Path) : bool :=
  bool_decide (p ∈ dirs w) || is_anchor p.

(** [p.exists()] *)
Definition exists_ (w : world) (p : Path) : bool := is_file w p || is_dir w p.

End World.

Import World.

(** ** The effect monad: state and exceptions *)

Module Eff.

Definition M (A : Type) : Type := world -> res A * world.

Definition ret {A} (a : A) : M A := fun w => (Ok a, w).

Definition bind {A B} (m : M A) (k : A -> M B) : M B :=
  fun w =>
    match m w with
    | (Ok a, w') => k a w'
    | (Raise x, w') => (Raise x, w')
    end.

Definition raise {A} (x : exn) : M A := fun w => (Raise x, w).

Definition lift {A} (r : res A) : M A := fun w => (r, w).

Definition get_world : M world := fun w => (Ok w, w).

Definition emit (ev : event) : M unit :=
  fun w => (Ok tt, {| files := files w; dirs := dirs w; trace := trace w ++ [ev] |}).

(** A line the standard output takes.  It is a strict UTF-8 stream by
    default, and a text with a lone surrogate cannot be written to it.  A
    path of the input folder can hold one, and lines 65 and 68 print such a
    path as it was found.  Every later line prints a path that line 71 has
    encoded; the output path and the text of an exception are taken to be
    writable. *)
Definition printable (m : message) : bool :=
  match m with
  | MsgSkipInvalid p | MsgUnsupported p => forallb utf8_encodable p
  | _ => true
  end.

(** [print(m)]: nothing is written when the text cannot be encoded. *)
Definition print (m : message) : M unit :=
  if printable m then emit (EvPrint m) else raise UnicodeEncodeError.

Definition set_files (fs : gmap Path file) : M unit :=
  fun w => (Ok tt, {| files := fs; dirs := dirs w; trace := trace w |}).

Definition set_dirs (ds : gset Path) : M unit :=
  fun w => (Ok tt, {| files := files w; dirs := ds; trace := trace w |}).

(** [try: m  except <handles> as x: h x] *)
Definition try_except {A} (m : M A) (handles : exn -> bool) (h : exn -> M A) : M A :=
  fun w =>
    match m w with
    | (Ok a, w') => (Ok a, w')
    | (Raise x, w') => if handles x then h x w' else (Raise x, w')
    end.

(** [try: m  finally: f], as a [with] block leaves its context. *)
Definition finally {A} (m : M A) (f : M unit) : M A :=
  fun w =>
    match m w with
    | (r, w') =>
        match f w' with
        | (Ok _, w'') => (r, w'')
        | (Raise x, w'') => (Raise x, w'')
        end
    end.

(** [for x in xs: body x] *)
Fixpoint for_each {A} (xs : list A) (body : A -> M unit) : M unit :=
  match xs with
  | [] => ret tt
  | x :: xs' => bind (body x) (fun _ => for_each xs' body)
  end.

(** The events a computation adds to the trace of [w]. *)
Definition new_events {A} (m : M A) (w : world) : list event :=
  drop (length (trace w)) (trace (snd (m w))).

Declare Scope eff_scope.
Delimit Scope eff_scope with eff.
Bind Scope eff_scope with M.

Notation "x <- m ;; k" := (bind m (fun x => k))
  (at level 100, m at next level, right associativity) : eff_scope.
Notation "m ;; k" := (bind m (fun _ => k))
  (at level 100, right associativity) : eff_scope.

End Eff.

Import Eff.
Local Open Scope eff_scope.

(** ** Filesystem calls *)

Module Fs.

Definition fault (e : env) (op : fs_op) : M unit :=
  match fs_fault e op with
  | Some x => raise x
  | None => ret tt
  end.

(** [p.mkdir(parents=True, exist_ok=True)] *)
Definition mkdir (e : env) (p : Path) : M unit :=
  emit (EvMkdir p) ;;
  fault e (OpMkdir p) ;;
  w <- get_world ;;
  if is_file w p then raise FileExistsError
  else if existsb (is_file w) (ancestors p) then raise NotADirectoryError
  else set_dirs (dirs w ∪ list_to_set (ancestors p)).

(** [shutil.copy2(src, dst)]: into [dst] when it is a directory; the
    file and its metadata are copied. *)
Definition copy2 (e : env) (src dst : Path) : M unit :=
  emit (EvCopy2 src dst) ;;
  fault e (OpCopy2 src dst) ;;
  w <- get_world ;;
  let target := if is_dir w dst then path_div dst (name src) else dst in
  if bool_decide (target = src) && is_file w src then raise SameFileError
  else
    match files w !! src with
    | None => raise (if is_dir w src then OSError 21 else FileNotFoundError)
    | Some f =>
        if is_dir w target then raise (OSError 21)
        else if is_file w (parent target) then raise NotADirectoryError
        else if negb (is_dir w (parent target)) then raise FileNotFoundError
        else set_files (<[target := f]> (files w))
    end.

(** [p.unlink()] *)
Definition unlink (e : env) (p : Path) : M unit :=
  emit (EvUnlink p) ;;
  fault e (OpUnlink p) ;;
  w <- get_world ;;
  match files w !! p with
  | None => raise (if is_dir w p then OSError 21 else FileNotFoundError)
  | Some _ => set_files (delete p (files w))
  end.

End Fs.

(** ** sound_utils.py: the three resolvers *)

Module SoundUtils.

Definition equals_sign : N := 61.
Definition newline : N := 10.

(** One turn of the loop over the lines of the output of [fpcalc]. *)
Definition parse_line (decimal : N -> option N) (acc : option pystr * option Z)
    (line : pystr) : res (option pystr * option Z) :=
  if startswith (lit "FINGERPRINT=") line then
    match after_first equals_sign line with
    | Some v => Ok (Some v, snd acc)
    | None => Raise IndexError
    end
  else if startswith (lit "DURATION=") line then
    match after_first equals_sign line with
    | Some v => res_bind (py_int decimal v) (fun d => Ok (fst acc, Some d))
    | None => Raise IndexError
    end
  else Ok acc.

Fixpoint parse_lines (decimal : N -> option N) (acc : option pystr * option Z)
    (lines : list pystr) : res (option pystr * option Z) :=
  match lines with
  | [] => Ok acc
  | line :: rest =>
      res_bind (parse_line decimal acc line) (fun acc' => parse_lines decimal acc' rest)
  end.

(** [generate_fingerprint]: the pair [(fingerprint, duration)], each
    possibly [None], or [None] when the call or the parsing raised. *)
Definition generate_fingerprint (e : env) (file_path : Path)
  : M (option (option pystr * option Z)) :=
  try_except
    (emit (EvFpcalc file_path) ;;
     output <- lift (fpcalc e file_path) ;;
     r <- lift (parse_lines (decimal_digit e) (None, None) (split_on newline output)) ;;
     ret (Some r))
    (fun _ => true)
    (fun x =>
       match x with
       | FileNotFoundError => print MsgFpcalcNotFound ;; ret None
       | _ => print (MsgFingerprintError file_path x) ;; ret None
       end).

Definition is_request_exception (x : exn) : bool :=
  match x with
  | RequestException _ => true
  | _ => false
  end.

(** [recognize_song_acoustid]: the decoded response, or [None]. *)
Definition recognize_song_acoustid (e : env) (fingerprint : pystr) (duration : Z)
    (api_key : pystr) : M value :=
  try_except
    (emit (EvAcoustid fingerprint duration api_key) ;;
     lift (acoustid e fingerprint duration api_key))
    is_request_exception
    (fun x => print (MsgAcoustidError x) ;; ret VNone).

Definition is_web_service_error (x : exn) : bool :=
  match x with
  | WebServiceError _ => true
  | _ => false
  end.

(** [get_musicbrainz_metadata]: the metadata dictionary, or [None]. *)
Definition get_musicbrainz_metadata (e : env) (recording_id : value)
    (contact_email : pystr) : M value :=
  emit (EvSetUseragent contact_email) ;;
  try_except
    (emit (EvMusicbrainz recording_id) ;;
     lift (musicbrainz e recording_id contact_email))
    is_web_service_error
    (fun x => print (MsgMusicbrainzError recording_id x) ;; ret VNone).

End SoundUtils.

Import SoundUtils.

(** ** parser.py *)

Module Parser.

(** *** [process_file] *)

(** Lines 39-44: delete the original; a failure is printed and dropped. *)
Definition remove_original (e : env) (file_path : Path) : M unit :=
  try_except
    (Fs.unlink e file_path ;; print (MsgDeleted file_path))
    (fun _ => true)
    (fun x => print (MsgErrorDeleting file_path x)).

(** Lines 29-44: the [else] branch of a result without [recordings]. *)
Definition place_unsorted (e : env) (file_path output_path : Path)
    (remove_origin : bool) : M unit :=
  let unsorted_folder := path_div output_path (lit "unsorted") in
  Fs.mkdir e unsorted_folder ;;
  let destination_file := path_div unsorted_folder (name file_path) in
  Fs.copy2 e file_path destination_file ;;
  print (MsgNoMetadataMoved file_path destination_file) ;;
  if remove_origin then remove_original e file_path else ret tt.

(** Lines 24-27: the loop over the recordings of one result.  [Some v] is
    [return v]; [None] is the end of the loop. *)
Fixpoint recordings_loop (e : env) (contact_email : pystr) (recordings : list value)
  : M (option value) :=
  match recordings with
  | [] => ret None
  | recording :: rest =>
      recording_id <- lift (py_get recording (lit "id") VNone) ;;
      if truthy recording_id then
        metadata <- get_musicbrainz_metadata e recording_id contact_email ;;
        ret (Some metadata)
      else recordings_loop e contact_email rest
  end.

(** Lines 22-44: the loop over the results. *)
Fixpoint results_loop (e : env) (file_path : Path) (contact_email : pystr)
    (output_path : Path) (remove_origin : bool) (results : list value)
  : M (option value) :=
  match results with
  | [] => ret None
  | result :: rest =>
      has_recordings <- lift (py_in (lit "recordings") result) ;;
      if has_recordings : bool then
        recordings <- lift (py_index result (lit "recordings")) ;;
        items <- lift (py_iter recordings) ;;
        returned <- recordings_loop e contact_email items ;;
        match returned with
        | Some metadata => ret (Some metadata)
        | None => results_loop e file_path contact_email output_path remove_origin rest
        end
      else
        place_unsorted e file_path output_path remove_origin ;;
        results_loop e file_path contact_email output_path remove_origin rest
  end.

(** Lines 16-45: the body of the [try]. *)
Definition process_file_body (e : env) (file_path : Path) (api_key contact_email : pystr)
    (output_path : Path) (remove_origin : bool) : M value :=
  generated <- generate_fingerprint e file_path ;;
  match generated with
  | None => raise TypeError
  | Some (fingerprint, duration) =>
      match fingerprint, duration with
      | Some (c :: fp), Some d =>
          if (d =? 0)%Z then ret VNone
          else
            acoustid_result <- recognize_song_acoustid e (c :: fp) d api_key ;;
            has_results <- (if truthy acoustid_result
                            then lift (py_in (lit "results") acoustid_result)
                            else ret false) ;;
            if has_results : bool then
              results <- lift (py_index acoustid_result (lit "results")) ;;
              items <- lift (py_iter results) ;;
              returned <- results_loop e file_path contact_email output_path
                            remove_origin items ;;
              match returned with
              | Some metadata => ret metadata
              | None => ret VNone
              end
            else ret VNone
      | _, _ => ret VNone
      end
  end.

(** [process_file]: [None] is [VNone]. *)
Definition process_file (e : env) (file_path : Path) (api_key contact_email : pystr)
    (output_path : Path) (remove_origin : bool) : M value :=
  try_except
    (process_file_body e file_path api_key contact_email output_path remove_origin)
    (fun _ => true)
    (fun x => print (MsgErrorProcessing file_path x) ;; ret VNone).

(** *** [process_files_in_batches] *)

(** The items a loop appends, in order; the loop stops at the first
    exception. *)
Fixpoint collect {A B} (f : A -> res (option B)) (xs : list A) : res (list B) :=
  match xs with
  | [] => Ok []
  | x :: xs' =>
      (item <~ f x ;;
       items <~ collect f xs' ;;
       Ok (match item with Some b => b :: items | None => items end))%res
  end.

(** Lines 80-85: the name one artist credit contributes. *)
Definition credit_name (artist_credit : value) : res (option value) :=
  (if is_dict artist_credit then
     has_artist <~ py_in (lit "artist") artist_credit ;;
     if has_artist : bool then
       artist <~ py_get artist_credit (lit "artist") (VDict []) ;;
       if is_dict artist then
         artist_name <~ py_get artist (lit "name") VNone ;;
         Ok (if truthy artist_name then Some artist_name else None)
       else Ok None
     else Ok None
   else Ok None)%res.

(** Lines 96-98. *)
Definition release_title (release : value) : res (option value) :=
  (album_title <~ py_get release (lit "title") VNone ;;
   Ok (if truthy album_title then Some album_title else None))%res.

Definition hyphen : N := 45.

(** Lines 104-106: [release_date.split("-")[0]]; only a string has
    [split]. *)
Definition release_year (release : value) : res (option pystr) :=
  (release_date <~ py_get release (lit "date") VNone ;;
   if truthy release_date then
     match release_date with
     | VStr s => Ok (head (split_on hyphen s))
     | _ => Raise AttributeError
     end
   else Ok None)%res.

(** The global [escape_folder_name] of parser.py.  Line 7 imports
    [generate_fingerprint], [recognize_song_acoustid] and
    [get_musicbrainz_metadata] from sound_utils.py; [escape_folder_name] is
    not among them and nothing else in parser.py binds it, so lines 87, 99,
    107 and 124 find no such global when they run. *)
Definition global_escape_folder_name : res (pystr -> pystr) := Raise NameError.

(** [escape_folder_name(sep.join(xs)) if xs else fallback]: the callee is
    evaluated before its argument. *)
Definition folder_of (xs : list value) (fallback : pystr) : res pystr :=
  match xs with
  | [] => Ok fallback
  | _ => (escape <~ global_escape_folder_name ;;
          joined <~ py_join (lit "&") xs ;;
          Ok (escape joined))%res
  end.

(** Lines 77-85: the list [artists]. *)
Definition extract_artists (recording : value) : res (list value) :=
  (artist_credits <~ py_get recording (lit "artist-credit") (VList []) ;;
   credits <~ py_iter artist_credits ;;
   collect credit_name credits)%res.

(** Lines 74-117: the folder name, [artist_name_str] and [song_name]. *)
Definition derive_names (order_by : pystr) (metadata : value)
  : res (pystr * pystr * value) :=
  (recording <~ py_get metadata (lit "recording") (VDict []) ;;
   artists <~ extract_artists recording ;;
   artist_name_str <~ match artists with
                      | [] => Ok (lit "Unknown Artist")
                      | _ => py_join (lit ", ") artists
                      end ;;
   artist_folder <~ folder_of artists (lit "Unknown Artist") ;;
   song_name <~ py_get recording (lit "title") (VStr (lit "Unknown Song")) ;;
   release_list <~ py_get recording (lit "release-list") (VList []) ;;
   releases <~ py_iter release_list ;;
   albums <~ collect release_title releases ;;
   album_folder <~ folder_of albums (lit "Unknown Album") ;;
   years <~ collect release_year releases ;;
   year_folder <~ folder_of (List.map VStr years) (lit "Unknown Year") ;;
   let folder_name :=
     if eqb order_by (lit "artist") then artist_folder
     else if eqb order_by (lit "album") then album_folder
     else if eqb order_by (lit "year") then year_folder
     else lit "unsorted" in
   Ok (folder_name, artist_name_str, song_name))%res.

(** An f-string field: a string is interpolated as it is. *)
Definition format (e : env) (v : value) : pystr :=
  match v with
  | VStr s => s
  | _ => py_format e v
  end.

(** Line 124. *)
Definition file_name (e : env) (artist_name_str : pystr) (song_name : value)
    (sfx : pystr) : res pystr :=
  (escape <~ global_escape_folder_name ;;
   Ok (escape (artist_name_str ++ lit " - " ++ format e song_name ++ sfx)))%res.

(** Lines 74-137: the placement of an identified file. *)
Definition place (e : env) (file_path output_path : Path) (order_by : pystr)
    (remove_origin : bool) (metadata : value) : M unit :=
  names <- lift (derive_names order_by metadata) ;;
  let '(folder_name, artist_name_str, song_name) := names in
  let destination_folder := path_div output_path folder_name in
  Fs.mkdir e destination_folder ;;
  escaped_file_name <- lift (file_name e artist_name_str song_name (suffix file_path)) ;;
  let destination_file := path_div destination_folder escaped_file_name in
  Fs.copy2 e file_path destination_file ;;
  print (MsgCopied file_path destination_file) ;;
  if remove_origin then remove_original e file_path else ret tt.

Definition supported : list pystr := [lit ".mp3"; lit ".flac"; lit ".wav"; lit ".ogg"].

(** Lines 64-69: the two tests a candidate passes to enter the pipeline. *)
Definition valid_candidate (w : world) (p : Path) : bool :=
  exists_ w p && is_file w p && existsb (eqb (lower (suffix p))) supported.

(** Lines 64-137: the body of the loop over a batch. *)
Definition process_candidate (e : env) (output_path : Path) (order_by api_key contact_email : pystr)
    (remove_origin : bool) (file_path_original : Path) : M unit :=
  w <- get_world ;;
  if negb (exists_ w file_path_original) || negb (is_file w file_path_original) then
    print (MsgSkipInvalid file_path_original)
  else if negb (existsb (eqb (lower (suffix file_path_original))) supported) then
    print (MsgUnsupported file_path_original)
  else
    file_path <- lift (reencode file_path_original) ;;
    metadata <- process_file e file_path api_key contact_email output_path remove_origin ;;
    if truthy metadata then place e file_path output_path order_by remove_origin metadata
    else ret tt.

(** [range(0, stop, step)]: a [ValueError] for a zero step. *)
Definition py_range (stop step : Z) : res (list Z) :=
  if (step =? 0)%Z then Raise ValueError
  else if (step <? 0)%Z then Ok []
  else Ok (List.map (fun k => Z.of_nat k * step)%Z
             (seq 0 (Z.to_nat ((stop + step - 1) / step)))).

(** [files[i : i + batch_size]] for non-negative [i] and [batch_size]. *)
Definition slice (files : list Path) (i batch_size : Z) : list Path :=
  take (Z.to_nat batch_size) (drop (Z.to_nat i) files).

(** [process_files_in_batches].  The executor is entered and left; the
    source never calls [executor.submit], and [process_file] runs in the
    calling thread. *)
Definition process_files_in_batches (e : env) (files : list Path) (batch_size : Z)
    (output_path : Path) (order_by api_key contact_email : pystr)
    (remove_origin : bool) : M unit :=
  emit EvExecutorEnter ;;
  finally
    (let len := Z.of_nat (length files) in
     starts <- lift (py_range len batch_size) ;;
     for_each starts (fun i =>
       let batch := slice files i batch_size in
       print (MsgBatch (i / batch_size + 1) (len / batch_size + 1)
                (Z.of_nat (length batch))) ;;
       for_each batch
         (process_candidate e output_path order_by api_key contact_email remove_origin)))
    (emit EvExecutorExit).

End Parser.

Import Parser.

(** ** Vocabulary of the statements *)

Module Shape.

(** A recording entry the inner loop passes over: a dictionary whose [id]
    is missing or falsy. *)
Definition no_id (recording : value) : bool :=
  match recording with
  | VDict d => match dict_lookup (lit "id") d with
               | Some v => negb (truthy v)
               | None => true
               end
  | _ => false
  end.

(** A result both loops pass over: it has a list of [recordings], none of
    which has an id. *)
Definition skipped (result : value) : bool :=
  match result with
  | VDict d => match dict_lookup (lit "recordings") d with
               | Some (VList l) => forallb no_id l
               | _ => false
               end
  | _ => false
  end.

(** A result without the key [recordings]. *)
Definition lacks_recordings (result : value) : bool :=
  match result with
  | VDict d => match dict_lookup (lit "recordings") d with
               | Some _ => false
               | None => true
               end
  | _ => false
  end.

(** A string that is one path component: [p / s] appends it. *)
Definition component (s : pystr) : bool :=
  bool_decide (parts_of s = [s]) && negb (bool_decide (head s = Some slash)).

(** The events of the pipeline after fingerprinting. *)
Definition downstream (ev : event) : bool :=
  match ev with
  | EvPrint _ | EvAcoustid _ _ _ | EvSetUseragent _ | EvMusicbrainz _
  | EvMkdir _ | EvCopy2 _ _ | EvUnlink _ => true
  | _ => false
  end.

Definition is_fpcalc (ev : event) : bool :=
  match ev with
  | EvFpcalc _ => true
  | _ => false
  end.

Definition is_submit (ev : event) : bool :=
  match ev with
  | EvExecutorSubmit _ => true
  | _ => false
  end.

(** An event of the calling thread: anything but a submission. *)
Definition in_caller (ev : event) : bool := negb (is_submit ev).

Definition is_musicbrainz (ev : event) : bool :=
  match ev with
  | EvMusicbrainz _ => true
  | _ => false
  end.

Definition is_print (ev : event) : bool :=
  match ev with
  | EvPrint _ => true
  | _ => false
  end.

Definition is_copy2 (ev : event) : bool :=
  match ev with
  | EvCopy2 _ _ => true
  | _ => false
  end.

(** The replacement of the specification, character by character: a
    character of the forbidden set becomes an underscore, any other stays. *)
Definition replaces (c c' : N) : Prop :=
  (In c forbidden /\ c' = underscore) \/ (~ In c forbidden /\ c' = c).

(** The folder lines 110-117 choose when no name was found. *)
Definition unknown_folder (order_by : pystr) : pystr :=
  if eqb order_by (lit "artist") then lit "Unknown Artist"
  else if eqb order_by (lit "album") then lit "Unknown Album"
  else if eqb order_by (lit "year") then lit "Unknown Year"
  else lit "unsorted".

(** A line that announces a batch. *)
Definition is_batch_line (ev : event) : bool :=
  match ev with
  | EvPrint (MsgBatch _ _ _) => true
  | _ => false
  end.

(** An event of one turn of the loop over a batch: no batch line, no event
    of the executor, and no copy but into the unsorted folder of
    [output_path], under the name of the source. *)
Definition turn_event (output_path : Path) (ev : event) : bool :=
  match ev with
  | EvPrint (MsgBatch _ _ _) | EvExecutorEnter | EvExecutorSubmit _ | EvExecutorExit =>
      false
  | EvCopy2 src dst =>
      bool_decide (dst = path_div (path_div output_path (lit "unsorted")) (name src))
  | _ => true
  end.

(** A copy into the unsorted folder of [output_path] under the name of the
    source, or an event that is no copy. *)
Definition unsorted_copy (output_path : Path) (ev : event) : bool :=
  match ev with
  | EvCopy2 src dst =>
      bool_decide (dst = path_div (path_div output_path (lit "unsorted")) (name src))
  | _ => true
  end.

End Shape.

Import Shape.

(** ** A small world for the examples *)

Module Fixture.

Definition out : Path := [lit "out"].
Definition song_a : Path := [lit "music"; lit "a.mp3"].
Definition song_b : Path := [lit "music"; lit "b.mp3"].
Definition notes : Path := [lit "music"; lit "notes.txt"].
Definition file_a : file := {| data := [1; 2; 3]; mtime := 1000 |}.
Definition file_b : file := {| data := [4; 5]; mtime := 2000 |}.

Definition world0 : world :=
  {| files := <[song_a := file_a]> (<[song_b := file_b]> (<[notes := file_b]> ∅));
     dirs := {[ [lit "music"] ]};
     trace := [] |}.

Definition fpcalc_output : pystr :=
  lit "DURATION=120" ++ [10] ++ lit "FINGERPRINT=AQAA" ++ [10].

(** The metadata of scenarios 1 and 2. *)
Definition alice : value :=
  VDict [(lit "recording",
    VDict [(lit "title", VStr (lit "Song"));
           (lit "artist-credit",
              VList [VDict [(lit "artist", VDict [(lit "name", VStr (lit "Alice"))])]]);
           (lit "release-list",
              VList [VDict [(lit "title", VStr (lit "Album"));
                            (lit "date", VStr (lit "2020-05-01"))]])])].

(** The decimal digits of the examples that are not ASCII: the
    Arabic-Indic digits, U+0660 to U+0669. *)
Definition arabic_indic (c : N) : option N :=
  if (1632 <=? c) && (c <=? 1641) then Some (c - 1632) else None.

(** A collaborator set: [fpcalc] works, the lookup answers [response],
    the catalog answers [alice], and [faults] are the filesystem errors. *)
Definition env_of (response : value) (faults : fs_op -> option exn) : env :=
  {| fpcalc := fun _ => Ok fpcalc_output;
     acoustid := fun _ _ _ => Ok response;
     musicbrainz := fun _ _ => Ok alice;
     fs_fault := faults;
     py_format := fun _ => lit "?";
     decimal_digit := arabic_indic |}.

Definition no_fault : fs_op -> option exn := fun _ => None.

(** Metadata that names no artist, no album and no year. *)
Definition anonymous : value :=
  VDict [(lit "recording", VDict [(lit "title", VStr (lit "Song"))])].

(** The same collaborators with a catalog that answers [anonymous]. *)
Definition env_anonymous (response : value) (faults : fs_op -> option exn) : env :=
  {| fpcalc := fun _ => Ok fpcalc_output;
     acoustid := fun _ _ _ => Ok response;
     musicbrainz := fun _ _ => Ok anonymous;
     fs_fault := faults;
     py_format := fun _ => lit "?";
     decimal_digit := arabic_indic |}.

(** Making a folder is refused: permission denied. *)
Definition mkdir_denied (op : fs_op) : option exn :=
  match op with
  | OpMkdir _ => Some (OSError 13)
  | _ => None
  end.

Definition response_of (results : list value) : value :=
  VDict [(lit "status", VStr (lit "ok")); (lit "results", VList results)].

(** A result with one recording, and one without recordings. *)
Definition with_recording (id : pystr) : value :=
  VDict [(lit "id", VStr (lit "x"));
         (lit "recordings", VList [VDict [(lit "id", VStr id)]])].

Definition without_recordings : value :=
  VDict [(lit "id", VStr (lit "y")); (lit "score", VInt 1)].

(** A result whose list of recordings is empty, and one whose only
    recording has no id. *)
Definition empty_recordings : value :=
  VDict [(lit "id", VStr (lit "z")); (lit "recordings", VList [])].

Definition idless_recording : value :=
  VDict [(lit "id", VStr (lit "z")); (lit "recordings", VList [VDict []])].

Definition key : pystr := lit "key".
Definition email : pystr := lit "me@example.org".

(** A file whose name is not valid UTF-8: the byte 255, which
    [os.fsdecode] presents as the lone surrogate U+DCFF. *)
Definition song_raw : Path := [lit "music"; 56575 :: lit ".mp3"].

(** A text file of the same kind, which is not there. *)
Definition notes_raw : Path := [lit "music"; 56575 :: lit ".txt"].

Definition world_raw : world :=
  {| files := <[song_raw := file_a]> (<[song_b := file_b]> ∅);
     dirs := {[ [lit "music"] ]};
     trace := [] |}.

Definition unsorted_a : Path := [lit "out"; lit "unsorted"; lit "a.mp3"].
Definition unsorted_b : Path := [lit "out"; lit "unsorted"; lit "b.mp3"].

(** A response of three results: one whose recording has no id, one whose
    second recording has the first id, and one that is no result at all. *)
Definition second_id : list value :=
  [idless_recording;
   VDict [(lit "recordings",
           VList [VDict []; VDict [(lit "id", VStr (lit "R7"))];
                  VDict [(lit "id", VStr (lit "R8"))]])];
   VInt 5].

(** Metadata whose only artist is named with one blank. *)
Definition blank_artist : value :=
  VDict [(lit "recording",
    VDict [(lit "artist-credit",
              VList [VDict [(lit "artist", VDict [(lit "name", VStr (lit " "))])]])])].

End Fixture.

Import Fixture.

(** ** Vocabulary of the further properties *)

Module More.

(** The line [generate_fingerprint] prints for an exception. *)
Definition fingerprint_message (p : Path) (x : exn) : message :=
  match x with
  | FileNotFoundError => MsgFpcalcNotFound
  | _ => MsgFingerprintError p x
  end.

(** A parsed output [process_file] gives up on: no fingerprint line, an
    empty fingerprint, no duration line, or a duration of zero. *)
Definition unusable (r : option pystr * option Z) : bool :=
  match r with
  | (Some (_ :: _), Some d) => (d =? 0)%Z
  | _ => true
  end.

(** A response without results to loop over: a falsy value, a dictionary
    without the key [results], or one whose [results] is an empty list. *)
Definition no_results (r : value) : bool :=
  negb (truthy r) ||
  match r with
  | VDict d => match dict_lookup (lit "results") d with
               | None => true
               | Some (VList []) => true
               | Some _ => false
               end
  | _ => false
  end.

(** The line printed when the acoustic lookup raises [x]: by the lookup
    itself for a [RequestException], by [process_file] for anything else. *)
Definition lookup_message (p : Path) (x : exn) : message :=
  if is_request_exception x then MsgAcoustidError x else MsgErrorProcessing p x.

(** *** Metadata of the shape [musicbrainzngs] returns

    An artist credit is a joining phrase (a string) or an artist with or
    without a name; a release has or has not a title and a date; the
    recording has or has not a title. *)
Inductive credit :=
  | JoinPhrase (s : pystr)
  | Artist (artist_name : option pystr).

Record release := { rel_title : option pystr; rel_date : option pystr }.

Record recording_md := {
  credits : list credit;
  title : option pystr;
  releases : list release
}.

Definition field (k : pystr) (v : option pystr) : list (pystr * value) :=
  match v with
  | Some s => [(k, VStr s)]
  | None => []
  end.

Definition encode_credit (c : credit) : value :=
  match c with
  | JoinPhrase s => VStr s
  | Artist n => VDict [(lit "artist", VDict (field (lit "name") n))]
  end.

Definition encode_release (r : release) : value :=
  VDict (field (lit "title") (rel_title r) ++ field (lit "date") (rel_date r)).

Definition encode_recording (md : recording_md) : value :=
  VDict (field (lit "title") (title md)
         ++ [(lit "artist-credit", VList (List.map encode_credit (credits md)));
             (lit "release-list", VList (List.map encode_release (releases md)))]).

(** The answer of the catalog for [md]. *)
Definition encode (md : recording_md) : value :=
  VDict [(lit "recording", encode_recording md)].

(** The non-empty strings among optional ones, in order. *)
Definition present (xs : list (option pystr)) : list pystr :=
  omap (fun x => match x with
                 | Some (c :: s) => Some (c :: s)
                 | _ => None
                 end) xs.

Definition artist_names (md : recording_md) : list pystr :=
  present (List.map (fun c => match c with
                              | Artist n => n
                              | JoinPhrase _ => None
                              end) (credits md)).

Definition album_titles (md : recording_md) : list pystr :=
  present (List.map rel_title (releases md)).

(** What comes before the first [sep] in [s]. *)
Fixpoint before (sep : N) (s : pystr) : pystr :=
  match s with
  | [] => []
  | c :: s' => if c =? sep then [] else c :: before sep s'
  end.

Definition release_years (md : recording_md) : list pystr :=
  List.map (before hyphen) (present (List.map rel_date (releases md))).

(** Metadata that names no artist, no album and no year. *)
Definition nameless (md : recording_md) : bool :=
  match artist_names md, album_titles md, release_years md with
  | [], [], [] => true
  | _, _, _ => false
  end.

Definition song_name_of (md : recording_md) : value :=
  match title md with
  | Some t => VStr t
  | None => VStr (lit "Unknown Song")
  end.

(** *** The outcome of a placement

    The events and the world after a folder was made, the source copied to
    [dst] and, under [remove_origin], the deletion of the source tried. *)
Definition deletion_events (e : env) (src : Path) (remove_origin : bool) : list event :=
  if remove_origin then
    [EvUnlink src;
     EvPrint match fs_fault e (OpUnlink src) with
             | None => MsgDeleted src
             | Some x => MsgErrorDeleting src x
             end]
  else [].

Definition deleted (e : env) (src : Path) (remove_origin : bool) : bool :=
  remove_origin && match fs_fault e (OpUnlink src) with
                   | None => true
                   | Some _ => false
                   end.

Definition after_placement (e : env) (w : world) (folder src dst : Path) (f : file)
    (line : message) (remove_origin : bool) : world :=
  {| files := if deleted e src remove_origin
              then delete src (<[dst := f]> (files w))
              else <[dst := f]> (files w);
     dirs := dirs w ∪ list_to_set (ancestors folder);
     trace := trace w ++ [EvMkdir folder; EvCopy2 src dst; EvPrint line]
                      ++ deletion_events e src remove_origin |}.

(** Collaborators for the examples: [fpcalc] is not installed; [fpcalc]
    prints [output]; the acoustic index fails with [x]. *)
Definition env_without_fpcalc : env :=
  {| fpcalc := fun _ => Raise FileNotFoundError;
     acoustid := fun _ _ _ => Ok (response_of []);
     musicbrainz := fun _ _ => Ok alice;
     fs_fault := no_fault;
     py_format := fun _ => lit "?";
     decimal_digit := arabic_indic |}.

Definition env_printing (output : pystr) : env :=
  {| fpcalc := fun _ => Ok output;
     acoustid := fun _ _ _ => Ok (response_of []);
     musicbrainz := fun _ _ => Ok alice;
     fs_fault := no_fault;
     py_format := fun _ => lit "?";
     decimal_digit := arabic_indic |}.

Definition env_lookup_failing (x : exn) : env :=
  {| fpcalc := fun _ => Ok fpcalc_output;
     acoustid := fun _ _ _ => Raise x;
     musicbrainz := fun _ _ => Ok alice;
     fs_fault := no_fault;
     py_format := fun _ => lit "?";
     decimal_digit := arabic_indic |}.

End More.

Import More.

(** ** Invariants of computations *)

Module Inv.

(** [m] keeps the invariant [I], whether it returns or raises. *)
Definition preserves {A} (I : world -> Prop) (m : M A) : Prop :=
  forall w, I w -> I (snd (m w)).

(** [w] with more events. *)
Definition add_events (w : world) (evs : list event) : world :=
  {| files := files w; dirs := dirs w; trace := trace w ++ evs |}.

(** Since [w0] the trace has grown by [pre] and then by events in [P]. *)
Definition since (w0 : world) (pre : list event) (P : event -> bool) (w : world) : Prop :=
  exists evs, trace w = trace w0 ++ pre ++ evs /\ forallb P evs = true.

(** An invariant of the filesystem alone. *)
Definition fs_only (I : world -> Prop) : Prop :=
  forall w evs, I w -> I (add_events w evs).

End Inv.

Import Inv.

(** * Properties *)

(** ** Strings *)

Section StripFacts.

Lemma lstrip_incl (s : pystr) (c : N) : In c (lstrip s) -> In c s.
Proof.
  induction s as [|a s IH]; simpl; [tauto |].
  destruct (is_space a); simpl; tauto.
Qed.

Lemma lstrip_head (s t : pystr) (c : N) : lstrip s = c :: t -> is_space c = false.
Proof.
  induction s as [|a s IH]; simpl; [discriminate |].
  destruct (is_space a) eqn:Ha; [exact IH |].
  intros [= <- _]. exact Ha.
Qed.

Lemma lstrip_cons_nonspace (c : N) (t : pystr) :
  is_space c = false -> lstrip (c :: t) = c :: t.
Proof. intros H. simpl. now rewrite H. Qed.

Lemma lstrip_all_space (s : pystr) : forallb is_space s = true -> lstrip s = [].
Proof.
  induction s as [|a s IH]; simpl; [reflexivity |].
  intros [Ha Hs]%andb_prop. rewrite Ha. auto.
Qed.

Lemma lstrip_idem (s : pystr) : lstrip (lstrip s) = lstrip s.
Proof.
  destruct (lstrip s) as [|c t] eqn:E; [reflexivity |].
  apply lstrip_cons_nonspace. eapply lstrip_head, E.
Qed.

Lemma lstrip_snoc_nonspace (l : pystr) (c : N) :
  is_space c = false -> exists l', lstrip (l ++ [c]) = l' ++ [c].
Proof.
  intros Hc. induction l as [|a l [l' IH]]; simpl.
  - rewrite Hc. now exists [].
  - destruct (is_space a); [now exists l' |]. now exists (a :: l).
Qed.

Lemma rstrip_incl (s : pystr) (c : N) : In c (rstrip s) -> In c s.
Proof.
  unfold rstrip. intros H. apply in_rev in H. apply lstrip_incl in H.
  now apply in_rev.
Qed.

Lemma rstrip_cons_nonspace (c : N) (t : pystr) :
  is_space c = false -> exists t', rstrip (c :: t) = c :: t'.
Proof.
  intros Hc. unfold rstrip. simpl rev.
  destruct (lstrip_snoc_nonspace (rev t) c Hc) as [l' ->].
  exists (rev l'). now rewrite rev_app_distr.
Qed.

Lemma rstrip_idem (s : pystr) : rstrip (rstrip s) = rstrip s.
Proof. unfold rstrip. now rewrite rev_involutive, lstrip_idem. Qed.

Lemma strip_incl (s : pystr) (c : N) : In c (strip s) -> In c s.
Proof. intros H. now apply lstrip_incl, rstrip_incl. Qed.

Lemma strip_idem (s : pystr) : strip (strip s) = strip s.
Proof.
  unfold strip. destruct (lstrip s) as [|c t] eqn:E; [reflexivity |].
  pose proof (lstrip_head _ _ _ E) as Hc.
  destruct (rstrip_cons_nonspace c t Hc) as [t' Ht'].
  rewrite Ht', (lstrip_cons_nonspace c t' Hc), <- Ht'. apply rstrip_idem.
Qed.

Lemma lstrip_split (s : pystr) :
  exists l, s = l ++ lstrip s /\ forallb is_space l = true.
Proof.
  induction s as [|a s (l & Hs & Hl)]; simpl; [now exists [] |].
  destruct (is_space a) eqn:Ha; [| now exists []].
  exists (a :: l). simpl. rewrite Ha, Hl. split; [now f_equal | reflexivity].
Qed.

Lemma rstrip_split (s : pystr) :
  exists r, s = rstrip s ++ r /\ forallb is_space r = true.
Proof.
  unfold rstrip. destruct (lstrip_split (rev s)) as (l & Hs & Hl).
  exists (rev l). split.
  - rewrite <- rev_app_distr, <- Hs. symmetry. apply rev_involutive.
  - rewrite forallb_forall in *. intros c Hc. apply Hl. now apply in_rev.
Qed.

(** What [strip] removes is whitespace, and what it leaves neither begins
    nor ends with whitespace. *)
Lemma strip_split (s : pystr) :
  exists l r,
    s = l ++ strip s ++ r
    /\ forallb is_space l = true /\ forallb is_space r = true
    /\ (forall c t, strip s = c :: t -> is_space c = false)
    /\ (forall t c, strip s = t ++ [c] -> is_space c = false).
Proof.
  destruct (lstrip_split s) as (l & Hs & Hl).
  destruct (rstrip_split (lstrip s)) as (r & Hr & Hrs).
  exists l, r. unfold strip. repeat split; try assumption.
  - now rewrite <- Hr.
  - intros c t Hct. destruct (lstrip s) as [|a u] eqn:E; [discriminate |].
    pose proof (lstrip_head _ _ _ E) as Ha.
    destruct (rstrip_cons_nonspace a u Ha) as [u' Hu]. congruence.
  - intros t c Htc. unfold rstrip in Htc.
    apply (f_equal (@rev N)) in Htc. rewrite rev_involutive, rev_app_distr in Htc.
    simpl in Htc. eapply lstrip_head, Htc.
Qed.

Lemma strip_all_space (s : pystr) : forallb is_space s = true -> strip s = [].
Proof. intros H. unfold strip. now rewrite (lstrip_all_space s H). Qed.

Lemma strip_repeat_nonspace (c : N) (n : nat) :
  is_space c = false -> strip (repeat c n) = repeat c n.
Proof.
  intros Hc. assert (Hl : forall k, lstrip (repeat c k) = repeat c k).
  { intros [|k]; [reflexivity |]. now apply lstrip_cons_nonspace. }
  assert (Hr : forall k, rev (repeat c k) = repeat c k).
  { induction k as [|k IH]; [reflexivity |].
    simpl. rewrite IH. symmetry. apply repeat_cons. }
  unfold strip, rstrip. now rewrite Hl, Hr, Hl, Hr.
Qed.

End StripFacts.

(** ** The name sanitizer *)

Section SanitizerFacts.

Lemma re_sub_invalid_clean (name : pystr) (c : N) :
  In c (re_sub_invalid name) -> is_forbidden c = false.
Proof.
  unfold re_sub_invalid. rewrite in_map_iff. intros (a & <- & _).
  destruct (is_forbidden a) eqn:Ha; [reflexivity | exact Ha].
Qed.

Lemma re_sub_invalid_id (name : pystr) :
  forallb (fun c => negb (is_forbidden c)) name = true -> re_sub_invalid name = name.
Proof.
  induction name as [|a s IH]; simpl; [reflexivity |].
  intros [Ha Hs]%andb_prop. apply negb_true_iff in Ha. rewrite Ha. f_equal. auto.
Qed.

Lemma re_sub_invalid_all (name : pystr) :
  forallb is_forbidden name = true ->
  re_sub_invalid name = repeat underscore (length name).
Proof.
  induction name as [|a s IH]; simpl; [reflexivity |].
  intros [Ha Hs]%andb_prop. rewrite Ha. f_equal. auto.
Qed.

Lemma is_forbidden_In (c : N) : is_forbidden c = true <-> In c forbidden.
Proof.
  unfold is_forbidden. rewrite existsb_exists. split.
  - intros (x & Hx & Heq). apply N.eqb_eq in Heq. now subst.
  - intros H. exists c. split; [exact H | apply N.eqb_refl].
Qed.

Lemma re_sub_invalid_replaces (name : pystr) :
  Forall2 replaces name (re_sub_invalid name).
Proof.
  induction name as [|c name IH]; simpl; constructor; [| exact IH].
  unfold replaces. destruct (is_forbidden c) eqn:Hc.
  - left. split; [now apply is_forbidden_In | reflexivity].
  - right. split; [| reflexivity].
    intros H. apply is_forbidden_In in H. congruence.
Qed.

(** The two shapes of a sanitized name. *)
Lemma escape_folder_name_cases (name : pystr) :
  (strip (re_sub_invalid name) = [] /\ escape_folder_name name = lit "unsorted")
  \/ (strip (re_sub_invalid name) <> []
      /\ escape_folder_name name = strip (re_sub_invalid name)).
Proof.
  unfold escape_folder_name.
  destruct (strip (re_sub_invalid name)) eqn:E; [left | right];
    (split; [discriminate || reflexivity | reflexivity]).
Qed.

Lemma escape_folder_name_nonempty (name : pystr) : escape_folder_name name <> [].
Proof.
  destruct (escape_folder_name_cases name) as [[_ ->] | [H ->]];
    [discriminate | exact H].
Qed.

Lemma escape_folder_name_clean (name : pystr) (c : N) :
  In c (escape_folder_name name) -> is_forbidden c = false.
Proof.
  destruct (escape_folder_name_cases name) as [[_ ->] | [_ ->]].
  - intros H. repeat (destruct H as [<- | H]; [reflexivity |]). destruct H.
  - intros H. eapply re_sub_invalid_clean, strip_incl, H.
Qed.

End SanitizerFacts.

(** C6, as amended.  [escape_folder_name] is a total function; its result
    holds no forbidden character, is never empty and has no leading or
    trailing whitespace.  An input made only of whitespace that is not
    forbidden (the empty input included) gives the literal [unsorted]; an
    input made only of forbidden characters gives as many underscores.  And
    the result is the input itself, treated as the specification says:
    with every forbidden character replaced by an underscore and every
    other character kept, the input is some whitespace, a core that neither
    begins nor ends with whitespace, and some whitespace again; the result
    is that core, or [unsorted] when the core is empty. *)
Theorem escape_folder_name_spec (name : pystr) :
  Forall (fun c => is_forbidden c = false) (escape_folder_name name)
  /\ escape_folder_name name <> []
  /\ strip (escape_folder_name name) = escape_folder_name name
  /\ (forallb (fun c => is_space c && negb (is_forbidden c)) name = true ->
      escape_folder_name name = lit "unsorted")
  /\ (name <> [] -> forallb is_forbidden name = true ->
      escape_folder_name name = repeat underscore (length name))
  /\ (exists l core r,
        Forall2 replaces name (l ++ core ++ r)
        /\ forallb is_space l = true /\ forallb is_space r = true
        /\ (forall c t, core = c :: t -> is_space c = false)
        /\ (forall t c, core = t ++ [c] -> is_space c = false)
        /\ escape_folder_name name = match core with
                                     | [] => lit "unsorted"
                                     | _ => core
                                     end).
Proof.
  split; [| split; [| split; [| split; [| split]]]].
  - apply List.Forall_forall. intros c Hc. now apply escape_folder_name_clean in Hc.
  - apply escape_folder_name_nonempty.
  - destruct (escape_folder_name_cases name) as [[_ ->] | [_ ->]];
      [reflexivity | apply strip_idem].
  - intros H.
    assert (Hs : forallb is_space name = true).
    { rewrite forallb_forall in *. intros c Hc. now destruct (andb_prop _ _ (H c Hc)). }
    assert (Hf : forallb (fun c => negb (is_forbidden c)) name = true).
    { rewrite forallb_forall in *. intros c Hc. now destruct (andb_prop _ _ (H c Hc)). }
    unfold escape_folder_name.
    now rewrite (re_sub_invalid_id name Hf), (strip_all_space name Hs).
  - intros Hne Hall. unfold escape_folder_name.
    rewrite (re_sub_invalid_all name Hall), strip_repeat_nonspace by reflexivity.
    destruct name; [congruence | reflexivity].
  - destruct (strip_split (re_sub_invalid name)) as (l & r & Hsplit & Hl & Hr & Hh & Ht).
    exists l, (strip (re_sub_invalid name)), r.
    split; [rewrite <- Hsplit; apply re_sub_invalid_replaces |].
    repeat split; try assumption.
    unfold escape_folder_name. now destruct (strip (re_sub_invalid name)).
Qed.

(** Two inputs of C6 as amended: blanks give [unsorted], forbidden
    characters give underscores. *)
Lemma escape_folder_name_spec_witness :
  escape_folder_name (lit "   ") = lit "unsorted"
  /\ escape_folder_name (lit "<>") = lit "__".
Proof.
  split.
  - apply (escape_folder_name_spec (lit "   ")). reflexivity.
  - apply (escape_folder_name_spec (lit "<>")); [discriminate | reflexivity].
Defined.

(** C6 as stated fails: an input made only of forbidden characters, and
    an input made only of whitespace (a tab), are not mapped to
    [unsorted]. *)
Lemma escape_folder_name_counterexample :
  forallb is_forbidden (lit "<>") = true
  /\ escape_folder_name (lit "<>") <> lit "unsorted"
  /\ forallb is_space [9] = true
  /\ escape_folder_name [9] <> lit "unsorted".
Proof. repeat split; discriminate. Qed.

(** ** Deriving the names from the metadata *)

Section DeriveFacts.

Lemma res_bind_ok {A B} (r : res A) (k : A -> res B) (b : B) :
  res_bind r k = Ok b -> exists a, r = Ok a /\ k a = Ok b.
Proof. destruct r as [a|x]; simpl; [eauto | discriminate]. Qed.

Lemma as_strs_ok (xs : list value) (ss : list pystr) :
  as_strs xs = Ok ss -> xs = List.map VStr ss.
Proof.
  revert ss. induction xs as [|v xs IH]; simpl; intros ss H.
  - now inversion H.
  - destruct v; try discriminate.
    apply res_bind_ok in H as (ss' & Hss & [= <-]).
    simpl. f_equal. auto.
Qed.

Lemma as_strs_map (ss : list pystr) : as_strs (List.map VStr ss) = Ok ss.
Proof. induction ss as [|s ss IH]; simpl; [reflexivity | now rewrite IH]. Qed.

Lemma credit_name_truthy (c v : value) : credit_name c = Ok (Some v) -> truthy v = true.
Proof.
  unfold credit_name. destruct (is_dict c); [| discriminate].
  intros H. apply res_bind_ok in H as (has & _ & H).
  destruct has; [| discriminate].
  apply res_bind_ok in H as (artist & _ & H).
  destruct (is_dict artist); [| discriminate].
  apply res_bind_ok in H as (n & _ & H).
  destruct (truthy n) eqn:Hn; congruence.
Qed.

Lemma collect_credit_truthy (cs : list value) (l : list value) :
  collect credit_name cs = Ok l -> Forall (fun v => truthy v = true) l.
Proof.
  revert l. induction cs as [|c cs IH]; simpl; intros l H.
  - inversion H. constructor.
  - apply res_bind_ok in H as (item & Hitem & H).
    apply res_bind_ok in H as (items & Hitems & [= <-]).
    destruct item as [v|]; [constructor |]; eauto using credit_name_truthy.
Qed.

Lemma extract_artists_truthy (recording : value) (l : list value) :
  extract_artists recording = Ok l -> Forall (fun v => truthy v = true) l.
Proof.
  unfold extract_artists. intros H.
  apply res_bind_ok in H as (? & _ & H). apply res_bind_ok in H as (? & _ & H).
  eauto using collect_credit_truthy.
Qed.

Lemma folder_of_ok (xs : list value) (fallback r : pystr) :
  folder_of xs fallback = Ok r -> xs = [] /\ r = fallback.
Proof.
  destruct xs as [|x xs]; simpl; [intros [= <-]; now split | discriminate].
Qed.

(** Lines 74-117 reach line 120 only when no artist, no album and no year
    was found: one name is enough for line 87, 99 or 107 to raise. *)
Lemma derive_names_ok (order_by : pystr) (metadata : value)
    (folder ans : pystr) (song : value) :
  derive_names order_by metadata = Ok (folder, ans, song) ->
  folder = unknown_folder order_by
  /\ ans = lit "Unknown Artist"
  /\ exists recording,
       py_get metadata (lit "recording") (VDict []) = Ok recording
       /\ extract_artists recording = Ok [].
Proof.
  unfold derive_names.
  destruct (py_get metadata (lit "recording") (VDict [])) as [recording|] eqn:Hrec;
    [cbn [res_bind] | discriminate].
  destruct (extract_artists recording) as [artists|] eqn:Hart;
    [cbn [res_bind] | discriminate].
  destruct artists as [|a artists].
  2:{ destruct (py_join (lit ", ") (a :: artists)); discriminate. }
  cbn [res_bind folder_of].
  destruct (py_get recording (lit "title") _); [cbn [res_bind] | discriminate].
  destruct (py_get recording (lit "release-list") _); [cbn [res_bind] | discriminate].
  destruct (py_iter _) as [releases|]; [cbn [res_bind] | discriminate].
  destruct (collect release_title releases) as [albums|]; [cbn [res_bind] | discriminate].
  destruct (folder_of albums _) as [album_folder|] eqn:Ealbums;
    [cbn [res_bind] | discriminate].
  apply folder_of_ok in Ealbums as [_ ->].
  destruct (collect release_year releases) as [years|]; [cbn [res_bind] | discriminate].
  destruct (folder_of (List.map VStr years) _) as [year_folder|] eqn:Eyears;
    [cbn [res_bind] | discriminate].
  apply folder_of_ok in Eyears as [_ ->].
  intros [= <- <- _]. split; [reflexivity | split; [reflexivity |]].
  now exists recording.
Qed.

(** One artist name is enough: line 86 joins the names, line 87 raises. *)
Lemma derive_names_named (order_by : pystr) (metadata recording : value)
    (names : list pystr) :
  py_get metadata (lit "recording") (VDict []) = Ok recording ->
  extract_artists recording = Ok (List.map VStr names) ->
  names <> [] ->
  derive_names order_by metadata = Raise NameError.
Proof.
  intros Hrec Hart Hne. unfold derive_names. rewrite Hrec. cbn [res_bind].
  rewrite Hart. cbn [res_bind].
  destruct names as [|n names]; [congruence |].
  change (List.map VStr (n :: names)) with (VStr n :: List.map VStr names).
  assert (Hjoin : py_join (lit ", ") (VStr n :: List.map VStr names)
                  = Ok (join (lit ", ") (n :: names))).
  { unfold py_join.
    change (VStr n :: List.map VStr names) with (List.map VStr (n :: names)).
    now rewrite as_strs_map. }
  rewrite Hjoin. reflexivity.
Qed.

End DeriveFacts.

(** C9, on the code.  The folder of the artist is never made of the
    names.  Whenever the metadata yields an artist name, line 87 calls
    [escape_folder_name], which parser.py does not import, and the
    derivation raises [NameError]; this is so for the artist of scenario 1
    and for an artist named with a blank.  The derivation returns only when
    no artist name was found, and the folder is then the fallback of the
    ordering criterion, [Unknown Artist] for [artist]. *)
Theorem artist_folder_spec :
  (forall (order_by : pystr) (metadata recording : value) (names : list pystr),
      py_get metadata (lit "recording") (VDict []) = Ok recording ->
      extract_artists recording = Ok (List.map VStr names) ->
      names <> [] ->
      derive_names order_by metadata = Raise NameError)
  /\ (forall (order_by : pystr) (metadata : value) (folder ans : pystr) (song : value),
        derive_names order_by metadata = Ok (folder, ans, song) ->
        folder = unknown_folder order_by
        /\ exists recording,
             py_get metadata (lit "recording") (VDict []) = Ok recording
             /\ extract_artists recording = Ok [])
  /\ extract_artists (VDict [(lit "artist-credit",
                               VList [VDict [(lit "artist",
                                              VDict [(lit "name", VStr (lit "Alice"))])]])])
     = Ok [VStr (lit "Alice")]
  /\ derive_names (lit "artist") alice = Raise NameError
  /\ derive_names (lit "artist") blank_artist = Raise NameError
  /\ unknown_folder (lit "artist") = lit "Unknown Artist".
Proof.
  split; [| split; [| repeat split; vm_compute; reflexivity]].
  - intros. eapply derive_names_named; eauto.
  - intros order_by metadata folder ans song H.
    apply derive_names_ok in H as (Hfolder & _ & Hrec). now split.
Qed.

(** ** Rules for invariants *)

Section Rules.

Context {I : world -> Prop}.

Lemma bind_establish {A B} (m : M A) (k : A -> M B) (w : world) :
  I (snd (m w)) -> (forall a, preserves I (k a)) -> I (snd (bind m k w)).
Proof.
  intros Hm Hk. unfold bind. destruct (m w) as [[a|x] w']; simpl in *.
  - now apply Hk.
  - exact Hm.
Qed.

Lemma try_except_establish {A} (m : M A) (hs : exn -> bool) (h : exn -> M A) (w : world) :
  I (snd (m w)) -> (forall x, preserves I (h x)) -> I (snd (try_except m hs h w)).
Proof.
  intros Hm Hh. unfold try_except. destruct (m w) as [[a|x] w']; simpl in *.
  - exact Hm.
  - destruct (hs x); [now apply Hh | exact Hm].
Qed.

Lemma preserves_ret {A} (a : A) : preserves I (ret a).
Proof. intros w H. exact H. Qed.

Lemma preserves_raise {A} (x : exn) : preserves I (@raise A x).
Proof. intros w H. exact H. Qed.

Lemma preserves_lift {A} (r : res A) : preserves I (lift r).
Proof. intros w H. exact H. Qed.

Lemma preserves_get_world : preserves I get_world.
Proof. intros w H. exact H. Qed.

Lemma preserves_bind {A B} (m : M A) (k : A -> M B) :
  preserves I m -> (forall a, preserves I (k a)) -> preserves I (bind m k).
Proof. intros Hm Hk w Hw. apply bind_establish; auto. Qed.

Lemma preserves_try_except {A} (m : M A) (hs : exn -> bool) (h : exn -> M A) :
  preserves I m -> (forall x, preserves I (h x)) -> preserves I (try_except m hs h).
Proof. intros Hm Hh w Hw. apply try_except_establish; auto. Qed.

Lemma preserves_finally {A} (m : M A) (f : M unit) :
  preserves I m -> preserves I f -> preserves I (finally m f).
Proof.
  intros Hm Hf w Hw. unfold finally.
  specialize (Hm w Hw). destruct (m w) as [r w']. simpl in Hm.
  specialize (Hf w' Hm). now destruct (f w') as [[[]|x] w''].
Qed.

Lemma preserves_for_each {A} (xs : list A) (body : A -> M unit) :
  (forall x, preserves I (body x)) -> preserves I (for_each xs body).
Proof.
  intros Hb. induction xs as [|x xs IH]; simpl.
  - apply preserves_ret.
  - apply preserves_bind; auto.
Qed.

End Rules.

(** One step of a proof that a computation keeps an invariant. *)
Ltac pres_step :=
  match goal with
  | |- preserves _ (bind _ _) => apply preserves_bind; [| intros ?]
  | |- preserves _ (ret _) => apply preserves_ret
  | |- preserves _ (raise _) => apply preserves_raise
  | |- preserves _ (lift _) => apply preserves_lift
  | |- preserves _ get_world => apply preserves_get_world
  | |- preserves _ (try_except _ _ _) => apply preserves_try_except; [| intros ?]
  | |- preserves _ (finally _ _) => apply preserves_finally
  | |- preserves _ (for_each _ _) => apply preserves_for_each; intros ?
  | |- preserves _ (match ?x with _ => _ end) => destruct x
  end.

Ltac pres := repeat pres_step.

(** ** Footprints: which events a computation may add *)

Section Footprint.

Variables (w0 : world) (pre : list event) (P : event -> bool).

Lemma since_start : since w0 pre P (add_events w0 pre).
Proof. exists []. simpl. now rewrite app_nil_r. Qed.

Lemma since_emit (ev : event) : P ev = true -> preserves (since w0 pre P) (emit ev).
Proof.
  intros Hev w (evs & Ht & Hall). exists (evs ++ [ev]). simpl. split.
  - rewrite Ht. now rewrite <- !app_assoc.
  - rewrite forallb_app, Hall. simpl. now rewrite Hev.
Qed.

Lemma since_set_files (fs : gmap Path file) : preserves (since w0 pre P) (set_files fs).
Proof. intros w H. exact H. Qed.

Lemma since_set_dirs (ds : gset Path) : preserves (since w0 pre P) (set_dirs ds).
Proof. intros w H. exact H. Qed.

Lemma since_fault (e : env) (op : fs_op) : preserves (since w0 pre P) (Fs.fault e op).
Proof. unfold Fs.fault. pres. Qed.

Lemma since_mkdir (e : env) (p : Path) :
  P (EvMkdir p) = true -> preserves (since w0 pre P) (Fs.mkdir e p).
Proof.
  intros HP. unfold Fs.mkdir. pres;
    auto using since_emit, since_fault, since_set_dirs.
Qed.

Lemma since_copy2 (e : env) (src dst : Path) :
  P (EvCopy2 src dst) = true -> preserves (since w0 pre P) (Fs.copy2 e src dst).
Proof.
  intros HP. unfold Fs.copy2. pres;
    auto using since_emit, since_fault, since_set_files.
Qed.

Lemma since_unlink (e : env) (p : Path) :
  P (EvUnlink p) = true -> preserves (since w0 pre P) (Fs.unlink e p).
Proof.
  intros HP. unfold Fs.unlink. pres;
    auto using since_emit, since_fault, since_set_files.
Qed.

End Footprint.

Lemma since_new_events {A} (m : M A) (w : world) (pre : list event) (P : event -> bool) :
  since w pre P (snd (m w)) ->
  exists evs, new_events m w = pre ++ evs /\ forallb P evs = true.
Proof.
  intros (evs & Ht & Hall). exists evs. split; [| exact Hall].
  unfold new_events. rewrite Ht. apply drop_app_length.
Qed.

(** The leaves of a footprint proof: an event allowed by [HP]. *)
Ltac leaf HP :=
  first [ apply since_emit, HP; reflexivity
        | apply since_mkdir, HP; reflexivity
        | apply since_copy2, HP; reflexivity
        | apply since_unlink, HP; reflexivity
        | apply since_set_files
        | apply since_set_dirs
        | apply since_fault ].

(** ** The loops of [process_file] keep what their steps keep *)

Section Loops.

Context {I : world -> Prop}.
Variable e : env.
Hypothesis Hemit : forall ev, downstream ev = true -> preserves I (emit ev).

Lemma preserves_print (m : message) : preserves I (print m).
Proof.
  unfold print. destruct (printable m); [| apply preserves_raise].
  apply Hemit. reflexivity.
Qed.

Lemma recognize_song_acoustid_preserves (fingerprint : pystr) (duration : Z) (api_key : pystr) :
  preserves I (recognize_song_acoustid e fingerprint duration api_key).
Proof.
  unfold recognize_song_acoustid. pres; auto using preserves_print.
Qed.

Lemma get_musicbrainz_metadata_preserves (recording_id : value) (contact_email : pystr) :
  preserves I (get_musicbrainz_metadata e recording_id contact_email).
Proof.
  unfold get_musicbrainz_metadata. pres; auto using preserves_print.
Qed.

Lemma recordings_loop_preserves (contact_email : pystr) (recordings : list value) :
  preserves I (recordings_loop e contact_email recordings).
Proof.
  induction recordings as [|recording rest IH]; simpl; pres;
    auto using get_musicbrainz_metadata_preserves.
Qed.

Lemma results_loop_preserves (file_path : Path) (contact_email : pystr)
    (output_path : Path) (remove_origin : bool) (results : list value) :
  preserves I (place_unsorted e file_path output_path remove_origin) ->
  preserves I (results_loop e file_path contact_email output_path remove_origin results).
Proof.
  intros Hplace. induction results as [|result rest IH]; simpl; pres;
    auto using recordings_loop_preserves.
Qed.

Lemma remove_original_preserves (file_path : Path) :
  preserves I (Fs.unlink e file_path) -> preserves I (remove_original e file_path).
Proof. intros H. unfold remove_original. pres; auto using preserves_print. Qed.

End Loops.

(** ** Footprints of the program *)

Section ProgramFootprint.

Variables (w0 : world) (pre : list event) (P : event -> bool) (e : env).
Hypothesis HP : forall ev, downstream ev = true -> P ev = true.

Let HPemit : forall ev, downstream ev = true -> preserves (since w0 pre P) (emit ev).
Proof. intros ev H. apply since_emit, HP, H. Qed.

Lemma remove_original_since (file_path : Path) :
  preserves (since w0 pre P) (remove_original e file_path).
Proof.
  apply remove_original_preserves; [exact HPemit |].
  apply since_unlink, HP. reflexivity.
Qed.

Lemma place_unsorted_since (file_path output_path : Path) (remove_origin : bool) :
  preserves (since w0 pre P) (place_unsorted e file_path output_path remove_origin).
Proof.
  unfold place_unsorted. pres; first [leaf HP | apply remove_original_since].
Qed.

Lemma results_loop_since (file_path : Path) (contact_email : pystr)
    (output_path : Path) (remove_origin : bool) (results : list value) :
  preserves (since w0 pre P)
    (results_loop e file_path contact_email output_path remove_origin results).
Proof. apply results_loop_preserves; [exact HPemit | apply place_unsorted_since]. Qed.

Lemma place_since (file_path output_path : Path) (order_by : pystr)
    (remove_origin : bool) (metadata : value) :
  preserves (since w0 pre P) (place e file_path output_path order_by remove_origin metadata).
Proof.
  unfold place. pres; first [leaf HP | apply remove_original_since].
Qed.

(** What follows [generate_fingerprint] in [process_file]. *)
Lemma after_fingerprint_since (file_path : Path) (api_key contact_email : pystr)
    (output_path : Path) (remove_origin : bool)
    (generated : option (option pystr * option Z)) :
  preserves (since w0 pre P)
    (match generated with
     | None => raise TypeError
     | Some (fingerprint, duration) =>
         match fingerprint, duration with
         | Some (c :: fp), Some d =>
             if (d =? 0)%Z then ret VNone
             else
               acoustid_result <- recognize_song_acoustid e (c :: fp) d api_key ;;
               has_results <- (if truthy acoustid_result
                               then lift (py_in (lit "results") acoustid_result)
                               else ret false) ;;
               if has_results : bool then
                 results <- lift (py_index acoustid_result (lit "results")) ;;
                 items <- lift (py_iter results) ;;
                 returned <- results_loop e file_path contact_email output_path
                               remove_origin items ;;
                 match returned with
                 | Some metadata => ret metadata
                 | None => ret VNone
                 end
               else ret VNone
         | _, _ => ret VNone
         end
     end).
Proof.
  pres; first [apply results_loop_since | apply recognize_song_acoustid_preserves, HPemit].
Qed.

End ProgramFootprint.

Section WholeFootprint.

Variables (w0 : world) (pre : list event) (P : event -> bool) (e : env).
Hypothesis HP : forall ev, downstream ev = true -> P ev = true.
Hypothesis HPfpcalc : forall p, P (EvFpcalc p) = true.
Hypothesis HPenter : P EvExecutorEnter = true.
Hypothesis HPexit : P EvExecutorExit = true.

Lemma generate_fingerprint_since (file_path : Path) :
  preserves (since w0 pre P) (generate_fingerprint e file_path).
Proof.
  unfold generate_fingerprint, print. pres;
    first [leaf HP | apply since_emit, HPfpcalc].
Qed.

Lemma process_file_since (file_path : Path) (api_key contact_email : pystr)
    (output_path : Path) (remove_origin : bool) :
  preserves (since w0 pre P)
    (process_file e file_path api_key contact_email output_path remove_origin).
Proof.
  unfold process_file, process_file_body, print.
  apply preserves_try_except; [| intros x; pres; leaf HP].
  apply preserves_bind; [apply generate_fingerprint_since |].
  intros generated. apply after_fingerprint_since, HP.
Qed.

Lemma process_candidate_since (output_path : Path) (order_by api_key contact_email : pystr)
    (remove_origin : bool) (file_path_original : Path) :
  preserves (since w0 pre P)
    (process_candidate e output_path order_by api_key contact_email remove_origin
       file_path_original).
Proof.
  unfold process_candidate, print. pres;
    first [leaf HP | apply process_file_since | apply place_since, HP].
Qed.

Lemma process_files_in_batches_since (files : list Path) (batch_size : Z)
    (output_path : Path) (order_by api_key contact_email : pystr) (remove_origin : bool) :
  preserves (since w0 pre P)
    (process_files_in_batches e files batch_size output_path order_by api_key
       contact_email remove_origin).
Proof.
  unfold process_files_in_batches, print. pres;
    first [leaf HP | apply since_emit; assumption | apply process_candidate_since].
Qed.

End WholeFootprint.

(** ** C2: the executor *)

(** C2, on the code.  Whatever the input, [process_files_in_batches]
    enters and leaves the executor and submits no task to it: every event
    of the run belongs to the calling thread.  Two valid files whose lookup
    has no recordings are handled there one after the other, in the order
    of the list; and when the lookup of the first is resolved, the run
    stops before the second is touched. *)
Theorem no_task_is_submitted :
  (forall (e : env) (files : list Path) (batch_size : Z) (output_path : Path)
          (order_by api_key contact_email : pystr) (remove_origin : bool) (w : world),
      forallb in_caller
        (new_events (process_files_in_batches e files batch_size output_path order_by
                       api_key contact_email remove_origin) w) = true)
  /\ new_events (process_files_in_batches
                   (env_of (response_of [without_recordings]) no_fault)
                   [song_a; song_b] 100 out (lit "artist") key email false) world0
     = [EvExecutorEnter; EvPrint (MsgBatch 1 1 2);
        EvFpcalc song_a; EvAcoustid (lit "AQAA") 120 key;
        EvMkdir [lit "out"; lit "unsorted"]; EvCopy2 song_a unsorted_a;
        EvPrint (MsgNoMetadataMoved song_a unsorted_a);
        EvFpcalc song_b; EvAcoustid (lit "AQAA") 120 key;
        EvMkdir [lit "out"; lit "unsorted"]; EvCopy2 song_b unsorted_b;
        EvPrint (MsgNoMetadataMoved song_b unsorted_b);
        EvExecutorExit]
  /\ new_events (process_files_in_batches
                   (env_of (response_of [with_recording (lit "R1")]) no_fault)
                   [song_a; song_b] 100 out (lit "artist") key email false) world0
     = [EvExecutorEnter; EvPrint (MsgBatch 1 1 2);
        EvFpcalc song_a; EvAcoustid (lit "AQAA") 120 key;
        EvSetUseragent email; EvMusicbrainz (VStr (lit "R1"));
        EvExecutorExit].
Proof.
  split; [| split; vm_compute; reflexivity].
  intros e files batch_size output_path order_by api_key contact_email remove_origin w.
  destruct (since_new_events
              (process_files_in_batches e files batch_size output_path order_by
                 api_key contact_email remove_origin) w [] in_caller)
    as (evs & -> & Hall); [| exact Hall].
  apply process_files_in_batches_since; try reflexivity.
  - intros ev. now destruct ev.
  - exists []. simpl. split; [now rewrite app_nil_r | reflexivity].
Qed.

(** ** C10: [process_file] is total *)

Section Totality.


Variable e : env.







End Totality.


(** ** C7: which candidates are fingerprinted *)

Lemma bind_get_world {A} (k : world -> M A) (w : world) : bind get_world k w = k w w.
Proof. reflexivity. Qed.

Lemma bind_lift_ok {A B} (a : A) (k : A -> M B) (w : world) :
  bind (lift (Ok a)) k w = k a w.
Proof. reflexivity. Qed.

Section Candidates.

Variables (e : env) (output_path : Path) (order_by api_key contact_email : pystr)
          (remove_origin : bool).

(** A candidate that fails a test of lines 64-69 is only reported, when
    its path can be printed. *)
Lemma invalid_candidate_skipped (p : Path) (w : world) :
  valid_candidate w p = false ->
  forallb utf8_encodable p = true ->
  exists m,
    process_candidate e output_path order_by api_key contact_email remove_origin p w
      = (Ok tt, add_events w [EvPrint m]).
Proof.
  unfold valid_candidate, process_candidate, bind, get_world, print, printable.
  intros Hvalid ->.
  destruct (exists_ w p), (is_file w p); simpl in *; eauto.
  rewrite Hvalid. simpl. eauto.
Qed.

(** When its path cannot be printed, line 65 or 68 raises. *)
Lemma invalid_candidate_unprintable (p : Path) (w : world) :
  valid_candidate w p = false ->
  forallb utf8_encodable p = false ->
  process_candidate e output_path order_by api_key contact_email remove_origin p w
    = (Raise UnicodeEncodeError, w).
Proof.
  unfold valid_candidate, process_candidate, bind, get_world, print, printable.
  intros Hvalid ->.
  destruct (exists_ w p), (is_file w p); simpl in *; try reflexivity.
  rewrite Hvalid. reflexivity.
Qed.

(** A candidate that passes the tests and cannot be encoded stops at line
    71. *)
Lemma valid_candidate_unencodable (p : Path) (w : world) :
  valid_candidate w p = true ->
  forallb utf8_encodable p = false ->
  process_candidate e output_path order_by api_key contact_email remove_origin p w
    = (Raise UnicodeEncodeError, w).
Proof.
  intros Hvalid Henc. unfold valid_candidate in Hvalid.
  apply andb_prop in Hvalid as [[Hex Hfile]%andb_prop Hsup].
  unfold process_candidate. rewrite bind_get_world, Hex, Hfile, Hsup. cbn [negb orb].
  unfold reencode. now rewrite Henc.
Qed.

(** A valid candidate whose path can be encoded is fingerprinted once:
    the first new event is the call of [fpcalc], and no later one is. *)
Lemma valid_candidate_fingerprinted (p : Path) (w : world) :
  forallb utf8_encodable p = true ->
  valid_candidate w p = true ->
  exists evs,
    new_events
      (process_candidate e output_path order_by api_key contact_email remove_origin p) w
      = EvFpcalc p :: evs
    /\ forallb downstream evs = true.
Proof.
  intros Henc Hvalid.
  apply (since_new_events _ w [EvFpcalc p] downstream).
  unfold valid_candidate in Hvalid.
  apply andb_prop in Hvalid as [[Hex Hfile]%andb_prop Hsup].
  assert (HP : forall ev, downstream ev = true -> downstream ev = true) by auto.
  unfold process_candidate. rewrite bind_get_world, Hex, Hfile, Hsup. cbn [negb orb].
  unfold reencode. rewrite Henc, bind_lift_ok.
  apply bind_establish.
  - unfold process_file, print.
    apply try_except_establish; [| intros x; pres; leaf HP].
    unfold process_file_body.
    apply bind_establish; [| intros g; now apply after_fingerprint_since].
    unfold generate_fingerprint, print.
    apply try_except_establish; [| intros x; pres; leaf HP].
    apply bind_establish; [apply since_start | intros ?; pres].
  - intros metadata. destruct (truthy metadata);
      [now apply place_since | apply preserves_ret].
Qed.

End Candidates.

Lemma downstream_not_fpcalc (evs : list event) :
  forallb downstream evs = true -> List.filter is_fpcalc evs = [].
Proof.
  induction evs as [|ev evs IH]; [reflexivity |].
  intros [Hev Hevs]%andb_prop. simpl. now destruct ev; try discriminate; apply IH.
Qed.

(** C7, on the code.  For a candidate whose path can be encoded the
    claim holds: one that fails a test of lines 64-69 is reported and
    nothing else happens, one that passes them calls [fpcalc] exactly once.
    A path that cannot be encoded, as a file name that is not valid UTF-8
    is read, stops the run with [UnicodeEncodeError] before anything is
    done: at line 71 when it passes the tests, so that a regular file with
    a supported suffix is never fingerprinted, and at line 65 or 68, where
    it is printed, when it does not. *)
Theorem candidate_fingerprinting :
  (forall (e : env) (output_path : Path) (order_by api_key contact_email : pystr)
          (remove_origin : bool) (p : Path) (w : world),
      (valid_candidate w p = false -> forallb utf8_encodable p = true ->
       exists m,
         process_candidate e output_path order_by api_key contact_email remove_origin p w
           = (Ok tt, add_events w [EvPrint m]))
      /\ (valid_candidate w p = true -> forallb utf8_encodable p = true ->
          List.filter is_fpcalc
            (new_events (process_candidate e output_path order_by api_key contact_email
                           remove_origin p) w) = [EvFpcalc p])
      /\ (forallb utf8_encodable p = false ->
          process_candidate e output_path order_by api_key contact_email remove_origin p w
            = (Raise UnicodeEncodeError, w)))
  /\ valid_candidate world_raw song_raw = true
  /\ process_files_in_batches (env_of (response_of [with_recording (lit "R1")]) no_fault)
       [song_raw; song_b] 100 out (lit "artist") key email false world_raw
     = (Raise UnicodeEncodeError,
        add_events world_raw [EvExecutorEnter; EvPrint (MsgBatch 1 1 2); EvExecutorExit])
  /\ valid_candidate world_raw notes_raw = false
  /\ process_files_in_batches (env_of (response_of [with_recording (lit "R1")]) no_fault)
       [notes_raw; song_b] 100 out (lit "artist") key email false world_raw
     = (Raise UnicodeEncodeError,
        add_events world_raw [EvExecutorEnter; EvPrint (MsgBatch 1 1 2); EvExecutorExit]).
Proof.
  split; [| repeat split; vm_compute; reflexivity].
  intros e output_path order_by api_key contact_email remove_origin p w.
  split; [| split].
  - apply invalid_candidate_skipped.
  - intros Hvalid Henc.
    destruct (valid_candidate_fingerprinted e output_path order_by api_key contact_email
                remove_origin p w Henc Hvalid) as (evs & -> & Hevs).
    simpl. now rewrite (downstream_not_fpcalc evs Hevs).
  - intros Henc. destruct (valid_candidate w p) eqn:Hvalid.
    + now apply valid_candidate_unencodable.
    + now apply invalid_candidate_unprintable.
Qed.

(** ** C1: errors of the placement *)

(** C1, on the code.  Lines 73-137 are outside every [try].  For an
    identified file line 87 calls [escape_folder_name], which parser.py
    does not import: the [NameError] leaves [process_files_in_batches] and
    the second file is never processed.  When the metadata names nobody,
    line 121 is reached, and a refused [mkdir] leaves the run in the same
    way; when the folder can be made, line 124 raises the [NameError]. *)
Theorem placement_error_stops_the_run :
  fst (process_files_in_batches
         (env_of (response_of [with_recording (lit "R1")]) no_fault)
         [song_a; song_b] 100 out (lit "artist") key email false world0)
    = Raise NameError
  /\ List.filter is_fpcalc
       (new_events (process_files_in_batches
                      (env_of (response_of [with_recording (lit "R1")]) no_fault)
                      [song_a; song_b] 100 out (lit "artist") key email false) world0)
     = [EvFpcalc song_a]
  /\ fst (process_files_in_batches
            (env_anonymous (response_of [with_recording (lit "R1")]) mkdir_denied)
            [song_a; song_b] 100 out (lit "artist") key email false world0)
     = Raise (OSError 13)
  /\ new_events (process_files_in_batches
                   (env_anonymous (response_of [with_recording (lit "R1")]) mkdir_denied)
                   [song_a; song_b] 100 out (lit "artist") key email false) world0
     = [EvExecutorEnter; EvPrint (MsgBatch 1 1 2);
        EvFpcalc song_a; EvAcoustid (lit "AQAA") 120 key;
        EvSetUseragent email; EvMusicbrainz (VStr (lit "R1"));
        EvMkdir [lit "out"; lit "Unknown Artist"];
        EvExecutorExit]
  /\ fst (process_files_in_batches
            (env_anonymous (response_of [with_recording (lit "R1")]) no_fault)
            [song_a; song_b] 100 out (lit "artist") key email false world0)
     = Raise NameError
  /\ new_events (process_files_in_batches
                   (env_anonymous (response_of [with_recording (lit "R1")]) no_fault)
                   [song_a; song_b] 100 out (lit "artist") key email false) world0
     = [EvExecutorEnter; EvPrint (MsgBatch 1 1 2);
        EvFpcalc song_a; EvAcoustid (lit "AQAA") 120 key;
        EvSetUseragent email; EvMusicbrainz (VStr (lit "R1"));
        EvMkdir [lit "out"; lit "Unknown Artist"];
        EvExecutorExit].
Proof. repeat split; vm_compute; reflexivity. Qed.

(** ** C4: one placement per file *)

(** C4, on the code.  The loop over the results goes on after the
    unsorted copy.  For two results without recordings the file is copied
    to the unsorted folder twice; under [remove_origin] the second copy
    finds the original gone and the file, though placed, is reported as an
    error.  For a result without recordings followed by a result with one,
    the file is copied to the unsorted folder and then looked up in the
    catalog all the same, after which line 87 stops the run. *)
Theorem placed_more_than_once :
  fst (process_files_in_batches
         (env_of (response_of [without_recordings; without_recordings]) no_fault)
         [song_a] 100 out (lit "artist") key email false world0) = Ok tt
  /\ List.filter is_copy2
       (new_events (process_files_in_batches
                      (env_of (response_of [without_recordings; without_recordings])
                         no_fault)
                      [song_a] 100 out (lit "artist") key email false) world0)
     = [EvCopy2 song_a unsorted_a; EvCopy2 song_a unsorted_a]
  /\ new_events (process_files_in_batches
                   (env_of (response_of [without_recordings; without_recordings])
                      no_fault)
                   [song_a] 100 out (lit "artist") key email true) world0
     = [EvExecutorEnter; EvPrint (MsgBatch 1 1 1);
        EvFpcalc song_a; EvAcoustid (lit "AQAA") 120 key;
        EvMkdir [lit "out"; lit "unsorted"]; EvCopy2 song_a unsorted_a;
        EvPrint (MsgNoMetadataMoved song_a unsorted_a);
        EvUnlink song_a; EvPrint (MsgDeleted song_a);
        EvMkdir [lit "out"; lit "unsorted"]; EvCopy2 song_a unsorted_a;
        EvPrint (MsgErrorProcessing song_a FileNotFoundError);
        EvExecutorExit]
  /\ fst (process_files_in_batches
            (env_of (response_of [without_recordings; with_recording (lit "R1")]) no_fault)
            [song_a] 100 out (lit "artist") key email false world0)
     = Raise NameError
  /\ new_events (process_files_in_batches
                   (env_of (response_of [without_recordings; with_recording (lit "R1")])
                      no_fault)
                   [song_a] 100 out (lit "artist") key email false) world0
     = [EvExecutorEnter; EvPrint (MsgBatch 1 1 1);
        EvFpcalc song_a; EvAcoustid (lit "AQAA") 120 key;
        EvMkdir [lit "out"; lit "unsorted"]; EvCopy2 song_a unsorted_a;
        EvPrint (MsgNoMetadataMoved song_a unsorted_a);
        EvSetUseragent email; EvMusicbrainz (VStr (lit "R1"));
        EvExecutorExit].
Proof. repeat split; vm_compute; reflexivity. Qed.

(** ** C8: the recording that is resolved *)

Section Runs.

Variable e : env.

Lemma bind_run {A B} (m : M A) (k : A -> M B) (w w' : world) (a : A) :
  m w = (Ok a, w') -> bind m k w = k a w'.
Proof. unfold bind. now intros ->. Qed.

Lemma add_events_app (w : world) (evs evs' : list event) :
  add_events (add_events w evs) evs' = add_events w (evs ++ evs').
Proof. unfold add_events. simpl. now rewrite <- app_assoc. Qed.

Lemma new_events_add {A} (m : M A) (w : world) (r : res A) (evs : list event) :
  m w = (r, add_events w evs) -> new_events m w = evs.
Proof. intros H. unfold new_events. rewrite H. simpl. apply drop_app_length. Qed.

Lemma generate_fingerprint_ok (file_path : Path) (w : world) (output : pystr)
    (r : option pystr * option Z) :
  fpcalc e file_path = Ok output ->
  parse_lines (decimal_digit e) (None, None) (split_on newline output) = Ok r ->
  generate_fingerprint e file_path w = (Ok (Some r), add_events w [EvFpcalc file_path]).
Proof.
  intros Hf Hp. unfold generate_fingerprint, try_except, bind, emit, lift, ret.
  now rewrite Hf, Hp.
Qed.

Lemma recognize_song_acoustid_ok (fingerprint : pystr) (duration : Z) (api_key : pystr)
    (w : world) (v : value) :
  acoustid e fingerprint duration api_key = Ok v ->
  recognize_song_acoustid e fingerprint duration api_key w
    = (Ok v, add_events w [EvAcoustid fingerprint duration api_key]).
Proof.
  intros H. unfold recognize_song_acoustid, try_except, bind, emit, lift.
  now rewrite H.
Qed.

(** The catalog lookup: two calls, then at most a printed line. *)
Lemma get_musicbrainz_metadata_run (recording_id : value) (contact_email : pystr)
    (w : world) :
  exists tail,
    get_musicbrainz_metadata e recording_id contact_email w
      = (match musicbrainz e recording_id contact_email with
         | Ok v => Ok v
         | Raise x => if is_web_service_error x then Ok VNone else Raise x
         end,
         add_events w ([EvSetUseragent contact_email; EvMusicbrainz recording_id] ++ tail))
    /\ forallb is_print tail = true.
Proof.
  unfold get_musicbrainz_metadata, try_except, bind, emit, lift, print, printable, ret, add_events.
  simpl. destruct (musicbrainz e recording_id contact_email) as [v|x]; simpl.
  - exists []. now rewrite <- app_assoc.
  - destruct (is_web_service_error x); simpl.
    + exists [EvPrint (MsgMusicbrainzError recording_id x)]. now rewrite <- !app_assoc.
    + exists []. now rewrite <- app_assoc.
Qed.

Lemma no_id_get (recording : value) :
  no_id recording = true ->
  exists v, py_get recording (lit "id") VNone = Ok v /\ truthy v = false.
Proof.
  destruct recording as [| | | | | |d]; try discriminate. simpl.
  destruct (dict_lookup (lit "id") d) as [v|]; [| now exists VNone].
  intros H%negb_true_iff. now exists v.
Qed.

Lemma recordings_loop_skip (contact_email : pystr) (skip rest : list value) (w : world) :
  forallb no_id skip = true ->
  recordings_loop e contact_email (skip ++ rest) w
    = recordings_loop e contact_email rest w.
Proof.
  induction skip as [|recording skip IH]; [reflexivity |].
  intros [(v & Hget & Hv)%no_id_get Hskip]%andb_prop.
  simpl. rewrite Hget, bind_lift_ok, Hv. auto.
Qed.

Lemma recordings_loop_hit (contact_email : pystr) (d : list (pystr * value))
    (rest : list value) (w : world) (id : value) :
  dict_lookup (lit "id") d = Some id -> truthy id = true ->
  recordings_loop e contact_email (VDict d :: rest) w
    = bind (get_musicbrainz_metadata e id contact_email) (fun m => ret (Some m)) w.
Proof.
  intros Hid Ht. simpl. rewrite Hid, bind_lift_ok, Ht. reflexivity.
Qed.

Lemma results_loop_skip (file_path : Path) (contact_email : pystr) (output_path : Path)
    (remove_origin : bool) (skip rest : list value) (w : world) :
  forallb skipped skip = true ->
  results_loop e file_path contact_email output_path remove_origin (skip ++ rest) w
    = results_loop e file_path contact_email output_path remove_origin rest w.
Proof.
  induction skip as [|result skip IH]; [reflexivity |].
  intros [Hres Hskip]%andb_prop.
  destruct result as [| | | | | |d]; try discriminate. simpl in Hres.
  destruct (dict_lookup (lit "recordings") d) as [[| | | | |l|]|] eqn:Hd;
    try discriminate.
  pose proof (recordings_loop_skip contact_email l [] w Hres) as Hl.
  rewrite app_nil_r in Hl. change (recordings_loop e contact_email [] w) with (Ok (@None value), w) in Hl.
  simpl. rewrite Hd.
  repeat (rewrite bind_lift_ok; cbv beta iota; simpl py_index; simpl py_iter;
          try rewrite Hd).
  rewrite (bind_run _ _ _ _ _ Hl). apply IH. exact Hskip.
Qed.

End Runs.

Section FirstId.

Variables (e : env) (file_path : Path) (api_key contact_email : pystr)
          (output_path : Path) (remove_origin : bool) (w : world).
Variables (output fingerprint : pystr) (d : Z) (resp : list (pystr * value))
          (pre post epre epost : list value) (rd ed : list (pystr * value)) (id : value).

Hypothesis Hfpcalc : fpcalc e file_path = Ok output.
Hypothesis Hparse :
  parse_lines (decimal_digit e) (None, None) (split_on newline output) = Ok (Some fingerprint, Some d).
Hypothesis Hfingerprint : fingerprint <> [].
Hypothesis Hduration : d <> 0%Z.
Hypothesis Hacoustid : acoustid e fingerprint d api_key = Ok (VDict resp).
Hypothesis Hresults :
  dict_lookup (lit "results") resp = Some (VList (pre ++ VDict rd :: post)).
Hypothesis Hpre : forallb skipped pre = true.
Hypothesis Hrecordings :
  dict_lookup (lit "recordings") rd = Some (VList (epre ++ VDict ed :: epost)).
Hypothesis Hepre : forallb no_id epre = true.
Hypothesis Hid : dict_lookup (lit "id") ed = Some id.
Hypothesis Htruthy : truthy id = true.

Lemma process_file_body_hit :
  exists tail,
    process_file_body e file_path api_key contact_email output_path remove_origin w
      = (match musicbrainz e id contact_email with
         | Ok v => Ok v
         | Raise x => if is_web_service_error x then Ok VNone else Raise x
         end,
         add_events w ([EvFpcalc file_path; EvAcoustid fingerprint d api_key;
                        EvSetUseragent contact_email; EvMusicbrainz id] ++ tail))
    /\ forallb is_print tail = true.
Proof.
  unfold process_file_body.
  rewrite (bind_run _ _ _ _ _ (generate_fingerprint_ok e file_path w _ _ Hfpcalc Hparse)).
  destruct fingerprint as [|c fp]; [congruence |].
  destruct (Z.eqb_spec d 0) as [|_]; [congruence |].
  rewrite (bind_run _ _ _ _ _ (recognize_song_acoustid_ok e _ _ _ _ _ Hacoustid)).
  destruct resp as [|kv resp']; [discriminate |].
  cbn [truthy py_in]. rewrite Hresults, bind_lift_ok. cbv beta iota.
  cbn [py_index]. rewrite Hresults, bind_lift_ok. cbv beta.
  cbn [py_iter]. rewrite bind_lift_ok. cbv beta.
  unfold bind at 1. rewrite results_loop_skip by exact Hpre.
  cbn [results_loop py_in]. rewrite Hrecordings, bind_lift_ok. cbv beta iota.
  cbn [py_index]. rewrite Hrecordings, bind_lift_ok. cbv beta.
  cbn [py_iter]. rewrite bind_lift_ok. cbv beta.
  unfold bind at 1. rewrite recordings_loop_skip by exact Hepre.
  rewrite (recordings_loop_hit e contact_email ed epost _ id Hid Htruthy).
  match goal with
  | |- context [bind (get_musicbrainz_metadata e id contact_email) _ ?w1] =>
      destruct (get_musicbrainz_metadata_run e id contact_email w1)
        as (tail & Hrun & Htail)
  end.
  exists tail. split; [| exact Htail].
  unfold bind. rewrite Hrun, !add_events_app.
  destruct (musicbrainz e id contact_email) as [v|x];
    [reflexivity | now destruct (is_web_service_error x)].
Qed.

(** C8, as amended.  When the results before the first recording with a
    non-empty id all carry a list of recordings (none of which has an id),
    [process_file] looks that id up and nothing else: after the calls of
    [fpcalc] and of the acoustic lookup, the catalog is called once, with
    that id, and only printed lines follow.  The result is the answer of
    the catalog, or [None] when the lookup raised.  What comes after that
    recording in the response is not inspected, and the filesystem is not
    touched. *)
Theorem first_recording_id_is_resolved :
  fst (process_file e file_path api_key contact_email output_path remove_origin w)
    = Ok (match musicbrainz e id contact_email with
          | Ok v => v
          | Raise _ => VNone
          end)
  /\ (exists tail,
        new_events (process_file e file_path api_key contact_email output_path
                      remove_origin) w
          = [EvFpcalc file_path; EvAcoustid fingerprint d api_key;
             EvSetUseragent contact_email; EvMusicbrainz id] ++ tail
        /\ forallb is_print tail = true)
  /\ files (snd (process_file e file_path api_key contact_email output_path
                   remove_origin w)) = files w
  /\ dirs (snd (process_file e file_path api_key contact_email output_path
                  remove_origin w)) = dirs w.
Proof.
  assert (exists tail,
             process_file e file_path api_key contact_email output_path remove_origin w
               = (Ok (match musicbrainz e id contact_email with
                      | Ok v => v
                      | Raise _ => VNone
                      end),
                  add_events w ([EvFpcalc file_path; EvAcoustid fingerprint d api_key;
                                 EvSetUseragent contact_email; EvMusicbrainz id] ++ tail))
             /\ forallb is_print tail = true) as (tail & Hrun & Htail).
  { destruct process_file_body_hit as (tail & Hbody & Htail).
    unfold process_file, try_except. rewrite Hbody.
    destruct (musicbrainz e id contact_email) as [v|x]; [now exists tail |].
    destruct (is_web_service_error x); [now exists tail |].
    exists (tail ++ [EvPrint (MsgErrorProcessing file_path x)]). split.
    - unfold bind, print, printable, emit, ret, add_events. simpl. now rewrite <- !app_assoc.
    - rewrite forallb_app, Htail. reflexivity. }
  rewrite (new_events_add _ _ _ _ Hrun), Hrun.
  split; [reflexivity | split; [| split; reflexivity]].
  exists tail. split; [reflexivity | exact Htail].
Qed.

End FirstId.

(** C8 as amended, on a response of three results: the first has a
    recording without id, the second has the first id in its second
    recording, the third is a number. *)
Lemma first_recording_id_is_resolved_witness :
  fst (process_file (env_of (response_of second_id) no_fault) song_a key email out false
         world0) = Ok alice
  /\ (exists tail,
        new_events (process_file (env_of (response_of second_id) no_fault) song_a key
                      email out false) world0
          = [EvFpcalc song_a; EvAcoustid (lit "AQAA") 120 key;
             EvSetUseragent email; EvMusicbrainz (VStr (lit "R7"))] ++ tail
        /\ forallb is_print tail = true)
  /\ files (snd (process_file (env_of (response_of second_id) no_fault) song_a key
                   email out false world0)) = files world0
  /\ dirs (snd (process_file (env_of (response_of second_id) no_fault) song_a key
                  email out false world0)) = dirs world0.
Proof.
  apply (first_recording_id_is_resolved
           (env_of (response_of second_id) no_fault) song_a key email out false world0
           fpcalc_output (lit "AQAA") 120
           [(lit "status", VStr (lit "ok")); (lit "results", VList second_id)]
           [idless_recording] [VInt 5] [VDict []] [VDict [(lit "id", VStr (lit "R8"))]]
           [(lit "recordings",
             VList [VDict []; VDict [(lit "id", VStr (lit "R7"))];
                    VDict [(lit "id", VStr (lit "R8"))]])]
           [(lit "id", VStr (lit "R7"))] (VStr (lit "R7")));
    first [reflexivity | discriminate].
Defined.

(** C8 as stated fails.  A result whose only recording has no id makes no
    call to the catalog; and under [remove_origin], two results without
    recordings before a result with a recording end in an exception of the
    second unsorted copy, again without a call to the catalog. *)
Lemma first_recording_counterexample :
  List.filter is_musicbrainz
    (new_events (process_file (env_of (response_of [idless_recording]) no_fault)
                   song_a key email out false) world0) = []
  /\ fst (process_file (env_of (response_of [idless_recording]) no_fault)
            song_a key email out false world0) = Ok VNone
  /\ List.filter is_musicbrainz
       (new_events (process_file
                      (env_of (response_of [without_recordings; without_recordings;
                                            with_recording (lit "R1")]) no_fault)
                      song_a key email out true) world0) = []
  /\ fst (process_file
            (env_of (response_of [without_recordings; without_recordings;
                                  with_recording (lit "R1")]) no_fault)
            song_a key email out true world0) = Ok VNone.
Proof. repeat split; vm_compute; reflexivity. Qed.

(** ** C5: the destination path *)

(** C5, on the code.  No destination is ever built for the metadata of
    scenarios 1 and 2.  Whatever the ordering criterion, the file, the
    output root and the state of the filesystem, the placement raises
    [NameError] at line 87 and leaves the world as it found it: no folder,
    no copy.  A run over [music/a.mp3] ends with that exception, and neither
    [out/Alice/Alice - Song.mp3] nor [out/2020/Alice - Song.mp3] exists
    after it. *)
Theorem destination_is_never_built :
  (forall (e : env) (file_path output_path : Path) (order_by : pystr)
          (remove_origin : bool) (w : world),
      place e file_path output_path order_by remove_origin alice w = (Raise NameError, w))
  /\ fst (process_files_in_batches
            (env_of (response_of [with_recording (lit "R1")]) no_fault)
            [song_a] 100 out (lit "artist") key email false world0)
     = Raise NameError
  /\ files (snd (process_files_in_batches
                   (env_of (response_of [with_recording (lit "R1")]) no_fault)
                   [song_a] 100 out (lit "artist") key email false world0))
       !! [lit "out"; lit "Alice"; lit "Alice - Song.mp3"] = None
  /\ fst (process_files_in_batches
            (env_of (response_of [with_recording (lit "R1")]) no_fault)
            [song_a] 100 out (lit "year") key email false world0)
     = Raise NameError
  /\ files (snd (process_files_in_batches
                   (env_of (response_of [with_recording (lit "R1")]) no_fault)
                   [song_a] 100 out (lit "year") key email false world0))
       !! [lit "out"; lit "2020"; lit "Alice - Song.mp3"] = None
  /\ List.filter is_copy2
       (new_events (process_files_in_batches
                      (env_of (response_of [with_recording (lit "R1")]) no_fault)
                      [song_a] 100 out (lit "artist") key email false) world0)
     = [].
Proof.
  split; [| repeat split; vm_compute; reflexivity].
  intros e file_path output_path order_by remove_origin w.
  unfold place.
  rewrite (derive_names_named order_by alice
             (VDict [(lit "title", VStr (lit "Song"));
                     (lit "artist-credit",
                      VList [VDict [(lit "artist",
                                     VDict [(lit "name", VStr (lit "Alice"))])]]);
                     (lit "release-list",
                      VList [VDict [(lit "title", VStr (lit "Album"));
                                    (lit "date", VStr (lit "2020-05-01"))]])])
             [lit "Alice"]); [reflexivity | reflexivity | reflexivity | discriminate].
Qed.

(** ** C3: the unsorted placement *)

Section FsRuns.

Variable e : env.
Hypothesis Hfault : forall op, fs_fault e op = None.

Lemma ancestors_length (p q : Path) : q ∈ ancestors p -> (length q <= length p)%nat.
Proof.
  unfold ancestors. rewrite list_elem_of_In, in_map_iff.
  intros (n & <- & _). rewrite length_take. lia.
Qed.

Lemma ancestors_self (p : Path) : p <> [] -> p ∈ ancestors p.
Proof.
  intros Hp. unfold ancestors. rewrite list_elem_of_In, in_map_iff.
  exists (length p). split; [apply firstn_all |].
  apply in_seq. destruct p; [congruence | simpl; lia].
Qed.

Lemma path_div_component (p : Path) (s : pystr) :
  component s = true -> path_div p s = p ++ [s].
Proof.
  unfold component. intros [Hparts Hhead]%andb_prop.
  apply bool_decide_eq_true in Hparts. apply negb_true_iff in Hhead.
  apply bool_decide_eq_false in Hhead.
  destruct s as [|c t]; [discriminate |]. unfold path_div.
  destruct (N.eqb_spec c slash) as [->|_]; [now destruct Hhead |].
  now rewrite Hparts.
Qed.

Lemma is_file_false (w : world) (p : Path) : files w !! p = None -> is_file w p = false.
Proof.
  intros H. unfold is_file. apply bool_decide_eq_false. rewrite H.
  now intros [? ?].
Qed.

Lemma is_file_true (w : world) (p : Path) (f : file) :
  files w !! p = Some f -> is_file w p = true.
Proof. intros H. unfold is_file. apply bool_decide_eq_true. rewrite H. eauto. Qed.

Lemma mkdir_run (p : Path) (w : world) :
  p <> [] ->
  (forall q, q ∈ ancestors p -> files w !! q = None) ->
  Fs.mkdir e p w
    = (Ok tt, {| files := files w;
                 dirs := dirs w ∪ list_to_set (ancestors p);
                 trace := trace w ++ [EvMkdir p] |}).
Proof.
  intros Hp Hclear.
  unfold Fs.mkdir, Fs.fault, bind, emit, get_world, set_dirs, ret, raise.
  rewrite Hfault. cbv beta iota.
  assert (Hself : is_file (add_events w [EvMkdir p]) p = false).
  { apply is_file_false. simpl. apply Hclear, ancestors_self, Hp. }
  assert (Hanc : existsb (is_file (add_events w [EvMkdir p])) (ancestors p) = false).
  { apply not_true_is_false. intros (q & Hq & Hfile)%existsb_exists.
    rewrite is_file_false in Hfile; [discriminate |].
    simpl. apply Hclear. now apply list_elem_of_In. }
  unfold add_events in Hself, Hanc. now rewrite Hself, Hanc.
Qed.

Lemma copy2_run (src dst : Path) (w : world) (f : file) :
  files w !! src = Some f ->
  dst <> src ->
  is_dir w dst = false ->
  files w !! parent dst = None ->
  is_dir w (parent dst) = true ->
  Fs.copy2 e src dst w
    = (Ok tt, {| files := <[dst := f]> (files w);
                 dirs := dirs w;
                 trace := trace w ++ [EvCopy2 src dst] |}).
Proof.
  intros Hsrc Hne Hdst Hparent Hpdir.
  unfold Fs.copy2, Fs.fault, bind, emit, get_world, set_files, ret, raise.
  rewrite Hfault. cbv beta iota.
  change (is_dir {| files := files w; dirs := dirs w;
                    trace := trace w ++ [EvCopy2 src dst] |}) with (is_dir w).
  change (is_file {| files := files w; dirs := dirs w;
                     trace := trace w ++ [EvCopy2 src dst] |}) with (is_file w).
  cbn [files]. rewrite Hdst, (bool_decide_eq_false_2 _ Hne), Hsrc, Hdst.
  cbn [andb]. now rewrite (is_file_false _ _ Hparent), Hpdir.
Qed.

Lemma copy2_missing (src dst : Path) (w : world) :
  files w !! src = None ->
  dst <> src ->
  is_dir w dst = false ->
  exists x, Fs.copy2 e src dst w = (Raise x, add_events w [EvCopy2 src dst]).
Proof.
  intros Hsrc Hne Hdst.
  unfold Fs.copy2, Fs.fault, bind, emit, get_world, set_files, ret, raise.
  rewrite Hfault. cbv beta iota.
  change (is_dir {| files := files w; dirs := dirs w;
                    trace := trace w ++ [EvCopy2 src dst] |}) with (is_dir w).
  cbn [files]. rewrite Hdst, (bool_decide_eq_false_2 _ Hne), Hsrc.
  cbn [andb]. eauto.
Qed.

Lemma remove_original_run (p : Path) (w : world) (f : file) :
  files w !! p = Some f ->
  remove_original e p w
    = (Ok tt, {| files := delete p (files w);
                 dirs := dirs w;
                 trace := (trace w ++ [EvUnlink p]) ++ [EvPrint (MsgDeleted p)] |}).
Proof.
  intros Hp.
  unfold remove_original, try_except, Fs.unlink, Fs.fault, print, printable, bind, emit, get_world,
    set_files, ret, raise.
  rewrite Hfault. cbv beta iota. cbn [files]. now rewrite Hp.
Qed.

End FsRuns.

Section UnsortedPlacement.

Variables (e : env) (file_path output_path : Path) (remove_origin : bool) (f : file).
Hypothesis Hfault : forall op, fs_fault e op = None.
Hypothesis Hname : component (name file_path) = true.

Let unsorted : Path := output_path ++ [lit "unsorted"].
Let dst : Path := unsorted ++ [name file_path].

Hypothesis Hne : dst <> file_path.

(** Nothing stands in the way of the folder and of the copy. *)
Let clear (w : world) : Prop :=
  (forall q, q ∈ ancestors unsorted -> files w !! q = None) /\ is_dir w dst = false.

(** Before the first unsorted placement, and from it on. *)
Let ready (w : world) : Prop := files w !! file_path = Some f /\ clear w.

Let placed (w : world) : Prop :=
  files w !! dst = Some f
  /\ unsorted ∈ dirs w
  /\ files w !! file_path = (if remove_origin then None else Some f)
  /\ clear w.

Lemma unsorted_nonempty : unsorted <> [].
Proof. subst unsorted. now destruct output_path. Qed.

Lemma dst_not_ancestor : dst ∉ ancestors unsorted.
Proof.
  intros H%ancestors_length. subst dst. rewrite length_app in H. simpl in H. lia.
Qed.

Lemma place_unsorted_unfold (w : world) :
  place_unsorted e file_path output_path remove_origin w
  = (Fs.mkdir e unsorted ;;
     Fs.copy2 e file_path dst ;;
     print (MsgNoMetadataMoved file_path dst) ;;
     if remove_origin then remove_original e file_path else ret tt) w.
Proof.
  unfold place_unsorted.
  change (path_div output_path (lit "unsorted")) with unsorted.
  now rewrite (path_div_component unsorted _ Hname).
Qed.

(** The state after [mkdir]: the folder is there, the rest is as before. *)
Lemma after_mkdir (w : world) :
  clear w ->
  let w1 := {| files := files w;
               dirs := dirs w ∪ list_to_set (ancestors unsorted);
               trace := trace w ++ [EvMkdir unsorted] |} in
  Fs.mkdir e unsorted w = (Ok tt, w1)
  /\ unsorted ∈ dirs w1
  /\ is_dir w1 dst = false
  /\ is_dir w1 (parent dst) = true
  /\ files w1 !! parent dst = None.
Proof.
  intros [Hanc Hdir]. cbv zeta.
  assert (Hparent : parent dst = unsorted) by apply removelast_last.
  assert (Hin : unsorted ∈ dirs w ∪ list_to_set (ancestors unsorted)).
  { apply elem_of_union_r, elem_of_list_to_set, ancestors_self, unsorted_nonempty. }
  split; [apply (mkdir_run e Hfault), Hanc; apply unsorted_nonempty |].
  split; [exact Hin |]. rewrite Hparent. cbn [files dirs]. repeat split.
  - unfold is_dir in *. cbn [dirs].
    apply orb_false_iff in Hdir as [Hd Ha]. rewrite Ha, orb_false_r.
    apply bool_decide_eq_false in Hd. apply bool_decide_eq_false.
    rewrite elem_of_union, elem_of_list_to_set.
    intros [? | ?]; [auto | now apply dst_not_ancestor].
  - unfold is_dir. cbn [dirs]. now rewrite (bool_decide_eq_true_2 _ Hin).
  - apply Hanc, ancestors_self, unsorted_nonempty.
Qed.

Lemma place_unsorted_establishes (w : world) :
  ready w -> placed (snd (place_unsorted e file_path output_path remove_origin w)).
Proof.
  intros [Hfile Hclear].
  destruct (after_mkdir w Hclear) as (Hmk & Hin & Hd1 & Hp1 & Hpf1).
  pose proof Hclear as [Hanc _].
  rewrite place_unsorted_unfold, (bind_run _ _ _ _ _ Hmk).
  rewrite (bind_run _ _ _ _ _
             (copy2_run e Hfault file_path dst
                {| files := files w;
                   dirs := dirs w ∪ list_to_set (ancestors unsorted);
                   trace := trace w ++ [EvMkdir unsorted] |}
                f Hfile Hne Hd1 Hpf1 Hp1)).
  unfold bind at 1, print, printable, emit. cbv beta iota. cbn [files dirs trace].
  assert (Hclear' : forall fs tr,
             (forall q, q ∈ ancestors unsorted -> fs !! q = None) ->
             clear {| files := fs;
                      dirs := dirs w ∪ list_to_set (ancestors unsorted);
                      trace := tr |}).
  { intros fs tr Hfs. split; [exact Hfs | exact Hd1]. }
  destruct remove_origin.
  - erewrite remove_original_run;
      [| exact Hfault | cbn [files]; rewrite lookup_insert_ne by exact Hne; exact Hfile].
    cbn [snd]. repeat split; cbn [files dirs].
    + rewrite lookup_delete_ne by exact (not_eq_sym Hne). apply lookup_insert_eq.
    + exact Hin.
    + apply lookup_delete_eq.
    + intros q Hq. rewrite lookup_delete_None. right.
      rewrite lookup_insert_ne; [now apply Hanc |].
      intros <-. now apply dst_not_ancestor.
    + exact Hd1.
  - unfold ret. cbn [snd]. repeat split; cbn [files dirs].
    + apply lookup_insert_eq.
    + exact Hin.
    + rewrite lookup_insert_ne by exact Hne. exact Hfile.
    + intros q Hq. rewrite lookup_insert_ne; [now apply Hanc |].
      intros <-. now apply dst_not_ancestor.
    + exact Hd1.
Qed.

Lemma place_unsorted_keeps :
  preserves placed (place_unsorted e file_path output_path remove_origin).
Proof.
  intros w (Hdst & Hin0 & Hfile & Hclear).
  destruct (after_mkdir w Hclear) as (Hmk & Hin & Hd1 & Hp1 & Hpf1).
  pose proof Hclear as [Hanc _].
  rewrite place_unsorted_unfold, (bind_run _ _ _ _ _ Hmk).
  destruct remove_origin.
  - destruct (copy2_missing e Hfault file_path dst
                {| files := files w;
                   dirs := dirs w ∪ list_to_set (ancestors unsorted);
                   trace := trace w ++ [EvMkdir unsorted] |} Hfile Hne Hd1)
      as (x & Hcopy).
    unfold bind. rewrite Hcopy. cbn [snd]. repeat split; assumption.
  - rewrite (bind_run _ _ _ _ _
               (copy2_run e Hfault file_path dst
                  {| files := files w;
                     dirs := dirs w ∪ list_to_set (ancestors unsorted);
                     trace := trace w ++ [EvMkdir unsorted] |}
                  f Hfile Hne Hd1 Hpf1 Hp1)).
    unfold bind, print, printable, emit, ret. cbn [snd]. repeat split; cbn [files dirs].
    + apply lookup_insert_eq.
    + exact Hin.
    + rewrite lookup_insert_ne by exact Hne. exact Hfile.
    + intros q Hq. rewrite lookup_insert_ne; [now apply Hanc |].
      intros <-. now apply dst_not_ancestor.
    + exact Hd1.
Qed.

Lemma placed_fs_only : fs_only placed.
Proof. intros w evs H. exact H. Qed.

Lemma placed_emit (ev : event) : preserves placed (emit ev).
Proof. intros w H. exact H. Qed.

(** A result without recordings, reached by the loop, places the file; the
    results after it do not undo that. *)
Lemma results_loop_places (contact_email : pystr) (skip rest : list value)
    (result : value) (w : world) :
  forallb skipped skip = true ->
  lacks_recordings result = true ->
  ready w ->
  placed (snd (results_loop e file_path contact_email output_path remove_origin
                 (skip ++ result :: rest) w)).
Proof.
  intros Hskip Hlacks Hready.
  rewrite results_loop_skip by exact Hskip.
  destruct result as [| | | | | |rd]; try discriminate. simpl in Hlacks.
  destruct (dict_lookup (lit "recordings") rd) eqn:Hrd; [discriminate |].
  cbn [results_loop py_in]. rewrite Hrd, bind_lift_ok. cbv beta iota.
  apply bind_establish; [now apply place_unsorted_establishes |].
  intros _. apply results_loop_preserves;
    [intros ev _; apply placed_emit | apply place_unsorted_keeps].
Qed.

Variables (api_key contact_email output fingerprint : pystr) (d : Z)
          (resp : list (pystr * value)) (skip rest : list value) (result : value)
          (w : world).

Hypothesis Hfpcalc : fpcalc e file_path = Ok output.
Hypothesis Hparse :
  parse_lines (decimal_digit e) (None, None) (split_on newline output) = Ok (Some fingerprint, Some d).
Hypothesis Hfingerprint : fingerprint <> [].
Hypothesis Hduration : d <> 0%Z.
Hypothesis Hacoustid : acoustid e fingerprint d api_key = Ok (VDict resp).
Hypothesis Hresults :
  dict_lookup (lit "results") resp = Some (VList (skip ++ result :: rest)).
Hypothesis Hskip : forallb skipped skip = true.
Hypothesis Hlacks : lacks_recordings result = true.

Lemma process_file_places :
  ready w ->
  placed (snd (process_file e file_path api_key contact_email output_path
                 remove_origin w)).
Proof.
  intros Hready. unfold process_file.
  apply try_except_establish; [| intros x; unfold print, printable; pres; apply placed_emit].
  unfold process_file_body.
  rewrite (bind_run _ _ _ _ _ (generate_fingerprint_ok e file_path w _ _ Hfpcalc Hparse)).
  destruct fingerprint as [|c fp]; [congruence |].
  destruct (Z.eqb_spec d 0) as [|_]; [congruence |].
  rewrite (bind_run _ _ _ _ _ (recognize_song_acoustid_ok e _ _ _ _ _ Hacoustid)).
  destruct resp as [|kv resp']; [discriminate |].
  cbn [truthy py_in]. rewrite Hresults, bind_lift_ok. cbv beta iota.
  cbn [py_index]. rewrite Hresults, bind_lift_ok. cbv beta.
  cbn [py_iter]. rewrite bind_lift_ok. cbv beta.
  apply bind_establish.
  - apply results_loop_places; [exact Hskip | exact Hlacks | exact Hready].
  - intros [metadata|]; apply preserves_ret.
Qed.

End UnsortedPlacement.

(** C3, as amended.  Let the acoustic lookup answer with results of which
    one lacks the key [recordings] and is reached by the loop: each result
    before it carries a list of recordings none of which has an id.  If the
    filesystem raises no error, the source is a regular file, and nothing
    stands in the way of [<output_path>/unsorted/<name>] (no file in the
    place of the folder or of one of its parents, no directory in the
    place of the copy, and the copy is not the source itself), then after
    [process_file] the copy is there with the content and the metadata of
    the source, the folder exists, and the source is kept unless
    [remove_origin] is set, in which case it is gone. *)
Theorem unsorted_placement (e : env) (file_path output_path : Path)
    (remove_origin : bool) (f : file) (api_key contact_email output fingerprint : pystr)
    (d : Z) (resp : list (pystr * value)) (skip rest : list value) (result : value)
    (w : world) :
  fpcalc e file_path = Ok output ->
  parse_lines (decimal_digit e) (None, None) (split_on newline output) = Ok (Some fingerprint, Some d) ->
  fingerprint <> [] ->
  d <> 0%Z ->
  acoustid e fingerprint d api_key = Ok (VDict resp) ->
  dict_lookup (lit "results") resp = Some (VList (skip ++ result :: rest)) ->
  forallb skipped skip = true ->
  lacks_recordings result = true ->
  (forall op, fs_fault e op = None) ->
  files w !! file_path = Some f ->
  component (name file_path) = true ->
  existsb (is_file w) (ancestors (path_div output_path (lit "unsorted"))) = false ->
  is_dir w (path_div (path_div output_path (lit "unsorted")) (name file_path)) = false ->
  path_div (path_div output_path (lit "unsorted")) (name file_path) <> file_path ->
  files (snd (process_file e file_path api_key contact_email output_path
                remove_origin w))
    !! path_div (path_div output_path (lit "unsorted")) (name file_path) = Some f
  /\ path_div output_path (lit "unsorted")
     ∈ dirs (snd (process_file e file_path api_key contact_email output_path
                    remove_origin w))
  /\ files (snd (process_file e file_path api_key contact_email output_path
                   remove_origin w)) !! file_path
     = (if remove_origin then None else Some f).
Proof.
  intros Hfpcalc Hparse Hfingerprint Hduration Hacoustid Hresults Hskip Hlacks
    Hfault Hfile Hname.
  rewrite (path_div_component output_path (lit "unsorted")) by reflexivity.
  rewrite (path_div_component _ _ Hname).
  intros Hclear Hdir Hne.
  destruct (process_file_places e file_path output_path remove_origin f Hfault Hname Hne
              api_key contact_email output fingerprint d resp skip rest result w
              Hfpcalc Hparse Hfingerprint Hduration Hacoustid Hresults Hskip Hlacks)
    as (H1 & H2 & H3 & _); [| auto].
  split; [exact Hfile |]. split; [| exact Hdir].
  intros q Hq%list_elem_of_In.
  destruct (files w !! q) eqn:Hfq; [| reflexivity].
  assert (existsb (is_file w) (ancestors (output_path ++ [lit "unsorted"])) = true)
    by (apply existsb_exists; eauto using is_file_true).
  congruence.
Qed.

(** C3 as amended, on [music/a.mp3] under [remove_origin]: a result with
    an empty list of recordings, then one without recordings, then one
    with a recording. *)
Lemma unsorted_placement_witness :
  files (snd (process_file
                (env_of (response_of [empty_recordings; without_recordings;
                                      with_recording (lit "R1")]) no_fault)
                song_a key email out true world0))
    !! path_div (path_div out (lit "unsorted")) (name song_a) = Some file_a
  /\ path_div out (lit "unsorted")
     ∈ dirs (snd (process_file
                    (env_of (response_of [empty_recordings; without_recordings;
                                          with_recording (lit "R1")]) no_fault)
                    song_a key email out true world0))
  /\ files (snd (process_file
                   (env_of (response_of [empty_recordings; without_recordings;
                                         with_recording (lit "R1")]) no_fault)
                   song_a key email out true world0)) !! song_a
     = None.
Proof.
  apply (unsorted_placement
           (env_of (response_of [empty_recordings; without_recordings;
                                 with_recording (lit "R1")]) no_fault)
           song_a out true file_a key email fpcalc_output (lit "AQAA") 120
           [(lit "status", VStr (lit "ok"));
            (lit "results", VList [empty_recordings; without_recordings;
                                   with_recording (lit "R1")])]
           [empty_recordings] [with_recording (lit "R1")] without_recordings world0);
    first [reflexivity | discriminate | intros op; reflexivity | vm_compute; discriminate].
Defined.

(** C3 as stated fails.  A result without recordings that comes after a
    result with a recording is never reached, and a result whose list of
    recordings is empty is not a result without recordings: in both cases
    nothing is copied to the unsorted folder. *)
Lemma unsorted_placement_counterexample :
  files (snd (process_file
                (env_of (response_of [with_recording (lit "R1"); without_recordings])
                   no_fault)
                song_a key email out false world0)) !! unsorted_a = None
  /\ List.filter is_copy2
       (new_events (process_file
                      (env_of (response_of [with_recording (lit "R1");
                                            without_recordings]) no_fault)
                      song_a key email out false) world0) = []
  /\ files (snd (process_file (env_of (response_of [empty_recordings]) no_fault)
                   song_a key email out false world0)) !! unsorted_a = None
  /\ List.filter is_copy2
       (new_events (process_file (env_of (response_of [empty_recordings]) no_fault)
                      song_a key email out false) world0) = [].
Proof. repeat split; vm_compute; reflexivity. Qed.

(** * Further properties of the code *)

(** ** The sanitizer, once more *)

Section SanitizerMore.

(** Sanitizing a sanitized name changes nothing. *)
Theorem escape_folder_name_idempotent (name : pystr) :
  escape_folder_name (escape_folder_name name) = escape_folder_name name.
Proof.
  destruct (escape_folder_name_cases name) as [[_ ->] | [Hne Heq]]; [reflexivity |].
  assert (Hclean : forallb (fun c => negb (is_forbidden c)) (escape_folder_name name) = true).
  { apply forallb_forall. intros c Hc.
    now rewrite (escape_folder_name_clean name c Hc). }
  unfold escape_folder_name at 1. rewrite (re_sub_invalid_id _ Hclean).
  rewrite Heq, strip_idem.
  destruct (strip (re_sub_invalid name)); [congruence | reflexivity].
Qed.

Lemma split_on_absent (sep : N) (s : pystr) :
  ~ In sep s -> split_on sep s = [s].
Proof.
  induction s as [|c s IH]; [reflexivity |].
  intros Hin. simpl. destruct (N.eqb_spec c sep) as [->|_].
  - destruct Hin. now left.
  - rewrite IH; [reflexivity |]. intros H. apply Hin. now right.
Qed.

(** A sanitized name is one path component: joined to a path it adds
    exactly itself, never several components and never a new root; the one
    exception is the name made of a single dot, which adds nothing. *)
Theorem sanitized_name_is_one_component (p : Path) (name : pystr) :
  path_div p (escape_folder_name name)
  = if eqb (escape_folder_name name) [dot] then p
    else p ++ [escape_folder_name name].
Proof.
  pose proof (escape_folder_name_nonempty name) as Hne.
  assert (Hslash : ~ In slash (escape_folder_name name)).
  { intros H. apply escape_folder_name_clean in H. discriminate. }
  destruct (escape_folder_name name) as [|c s] eqn:E; [congruence |].
  unfold path_div.
  destruct (N.eqb_spec c slash) as [->|_]; [destruct Hslash; now left |].
  unfold parts_of. rewrite (split_on_absent slash (c :: s) Hslash).
  assert (Hn : eqb (c :: s) [] = false) by now apply bool_decide_eq_false_2.
  cbn [List.filter]. rewrite Hn. cbn [orb].
  destruct (eqb (c :: s) [dot]); [apply app_nil_r | reflexivity].
Qed.

End SanitizerMore.

(** ** Failures before the loop over the results *)

Section EarlyExits.

Variables (e : env) (file_path : Path) (api_key contact_email : pystr)
          (output_path : Path) (remove_origin : bool) (w : world).

Lemma generate_fingerprint_fails (x : exn) :
  (fpcalc e file_path = Raise x
   \/ exists output, fpcalc e file_path = Ok output
                     /\ parse_lines (decimal_digit e) (None, None) (split_on newline output) = Raise x) ->
  generate_fingerprint e file_path w
    = (Ok None,
       add_events w [EvFpcalc file_path; EvPrint (fingerprint_message file_path x)]).
Proof.
  intros [Hf | (output & Hf & Hp)];
    unfold generate_fingerprint, try_except, bind, emit, lift, ret, print, printable;
    rewrite Hf; cbv beta iota; try rewrite Hp; cbv beta iota;
    destruct x; unfold fingerprint_message, add_events, emit; cbn [files dirs trace];
    now rewrite <- app_assoc.
Qed.

(** When [fpcalc] cannot be run, or its output cannot be parsed,
    [generate_fingerprint] prints the error and returns [None]; unpacking
    that in [process_file] raises a [TypeError], which is printed as well.
    The file is given up: [None], no lookup, no change of the filesystem. *)
Theorem fingerprint_failure_gives_up (x : exn) :
  (fpcalc e file_path = Raise x
   \/ exists output, fpcalc e file_path = Ok output
                     /\ parse_lines (decimal_digit e) (None, None) (split_on newline output) = Raise x) ->
  process_file e file_path api_key contact_email output_path remove_origin w
    = (Ok VNone,
       add_events w [EvFpcalc file_path;
                     EvPrint (fingerprint_message file_path x);
                     EvPrint (MsgErrorProcessing file_path TypeError)]).
Proof.
  intros H. unfold process_file, process_file_body, try_except.
  rewrite (bind_run _ _ _ _ _ (generate_fingerprint_fails x H)).
  unfold raise, bind, print, printable, emit, ret, add_events. cbn [files dirs trace].
  now rewrite <- app_assoc.
Qed.

Variables (output : pystr) (r : option pystr * option Z).
Hypothesis Hfpcalc : fpcalc e file_path = Ok output.
Hypothesis Hparse : parse_lines (decimal_digit e) (None, None) (split_on newline output) = Ok r.

(** When the output of [fpcalc] has no fingerprint or no duration (or an
    empty fingerprint, or the duration zero), [process_file] returns [None]
    at once and in silence: nothing is printed, nothing is looked up. *)
Theorem unusable_fingerprint_gives_up :
  unusable r = true ->
  process_file e file_path api_key contact_email output_path remove_origin w
    = (Ok VNone, add_events w [EvFpcalc file_path]).
Proof.
  intros Hr. unfold process_file, process_file_body, try_except.
  rewrite (bind_run _ _ _ _ _ (generate_fingerprint_ok e file_path w _ _ Hfpcalc Hparse)).
  destruct r as [[[|c fp]|] [d|]]; try reflexivity.
  simpl in Hr. now rewrite Hr.
Qed.

Variables (c : N) (fp : pystr) (d : Z).
Hypothesis Hr : r = (Some (c :: fp), Some d).
Hypothesis Hd : d <> 0%Z.

Lemma process_file_after_fingerprint :
  process_file e file_path api_key contact_email output_path remove_origin w
  = try_except
      (acoustid_result <- recognize_song_acoustid e (c :: fp) d api_key ;;
       has_results <- (if truthy acoustid_result
                       then lift (py_in (lit "results") acoustid_result)
                       else ret false) ;;
       if has_results : bool then
         results <- lift (py_index acoustid_result (lit "results")) ;;
         items <- lift (py_iter results) ;;
         returned <- results_loop e file_path contact_email output_path
                       remove_origin items ;;
         match returned with
         | Some metadata => ret metadata
         | None => ret VNone
         end
       else ret VNone)
      (fun _ => true)
      (fun x => print (MsgErrorProcessing file_path x) ;; ret VNone)
      (add_events w [EvFpcalc file_path]).
Proof.
  subst r. unfold process_file, process_file_body, try_except.
  rewrite (bind_run _ _ _ _ _ (generate_fingerprint_ok e file_path w _ _ Hfpcalc Hparse)).
  destruct (Z.eqb_spec d 0) as [|_]; [congruence | reflexivity].
Qed.

(** When the acoustic lookup answers with nothing to loop over (a falsy
    value, no key [results], or an empty list of results), [process_file]
    returns [None] after the two calls, prints nothing and touches no
    file. *)
Theorem lookup_without_results_gives_up (response : value) :
  acoustid e (c :: fp) d api_key = Ok response ->
  no_results response = true ->
  process_file e file_path api_key contact_email output_path remove_origin w
    = (Ok VNone,
       add_events w [EvFpcalc file_path; EvAcoustid (c :: fp) d api_key]).
Proof.
  intros Ha Hno. rewrite process_file_after_fingerprint. unfold try_except.
  rewrite (bind_run _ _ _ _ _ (recognize_song_acoustid_ok e _ _ _ _ _ Ha)).
  rewrite add_events_app. unfold no_results in Hno.
  destruct (truthy response) eqn:Ht; [| reflexivity].
  destruct response as [| | | | | |dct]; try discriminate. simpl in Hno.
  cbn [py_in]. rewrite bind_lift_ok.
  destruct (dict_lookup (lit "results") dct) as [[| | | | |[|v l]|]|] eqn:Hl;
    try discriminate; try reflexivity.
  cbv beta iota. cbn [py_index]. rewrite Hl. reflexivity.
Qed.

(** When the acoustic lookup raises, whatever the exception, the file is
    given up with one printed line: [None], no catalog call, no change of
    the filesystem.  A [RequestException] is caught and printed by the
    lookup, anything else by [process_file]. *)
Theorem lookup_failure_gives_up (x : exn) :
  acoustid e (c :: fp) d api_key = Raise x ->
  process_file e file_path api_key contact_email output_path remove_origin w
    = (Ok VNone,
       add_events w [EvFpcalc file_path; EvAcoustid (c :: fp) d api_key;
                     EvPrint (lookup_message file_path x)]).
Proof.
  intros Ha. rewrite process_file_after_fingerprint.
  unfold recognize_song_acoustid, print, printable.
  unfold try_except, bind, emit, lift, ret, lookup_message.
  cbn [files dirs trace add_events]. rewrite Ha. cbv beta iota.
  destruct (is_request_exception x); cbv beta iota; cbn [truthy];
    unfold add_events; cbn [files dirs trace]; now rewrite <- !app_assoc.
Qed.

End EarlyExits.

Lemma fingerprint_failure_gives_up_witness :
  process_file env_without_fpcalc song_a key email out false world0
  = (Ok VNone,
     add_events world0 [EvFpcalc song_a; EvPrint MsgFpcalcNotFound;
                        EvPrint (MsgErrorProcessing song_a TypeError)]).
Proof.
  apply (fingerprint_failure_gives_up env_without_fpcalc song_a key email out false world0
           FileNotFoundError).
  left. reflexivity.
Defined.

Lemma unusable_fingerprint_gives_up_witness :
  process_file (env_printing (lit "FINGERPRINT=AQAA")) song_a key email out false world0
  = (Ok VNone, add_events world0 [EvFpcalc song_a]).
Proof.
  apply (unusable_fingerprint_gives_up (env_printing (lit "FINGERPRINT=AQAA")) song_a key
           email out false world0 (lit "FINGERPRINT=AQAA") (Some (lit "AQAA"), None));
    reflexivity.
Defined.

Lemma lookup_without_results_gives_up_witness :
  process_file (env_of (VDict [(lit "status", VStr (lit "error"))]) no_fault)
    song_a key email out false world0
  = (Ok VNone, add_events world0 [EvFpcalc song_a; EvAcoustid (lit "AQAA") 120 key]).
Proof.
  apply (lookup_without_results_gives_up
           (env_of (VDict [(lit "status", VStr (lit "error"))]) no_fault)
           song_a key email out false world0 fpcalc_output
           (Some (lit "AQAA"), Some 120%Z) eq_refl eq_refl 65 (lit "QAA") 120%Z eq_refl
           ltac:(discriminate)
           (VDict [(lit "status", VStr (lit "error"))]));
    reflexivity.
Defined.

Lemma lookup_failure_gives_up_witness :
  process_file (env_lookup_failing (RequestException 503)) song_a key email out false world0
  = (Ok VNone,
     add_events world0 [EvFpcalc song_a; EvAcoustid (lit "AQAA") 120 key;
                        EvPrint (MsgAcoustidError (RequestException 503))]).
Proof.
  apply (lookup_failure_gives_up (env_lookup_failing (RequestException 503))
           song_a key email out false world0 fpcalc_output
           (Some (lit "AQAA"), Some 120%Z) eq_refl eq_refl 65 (lit "QAA") 120%Z eq_refl
           ltac:(discriminate) (RequestException 503)).
  reflexivity.
Defined.

(** ** The batches *)

Section Batches.

Lemma concat_chunks {A} (b : nat) (n : nat) (l : list A) :
  (length l <= n * b)%nat ->
  concat (List.map (fun k => take b (drop (k * b) l)) (seq 0 n)) = l.
Proof.
  revert l. induction n as [|n IH]; intros l Hlen.
  - destruct l; [reflexivity | simpl in Hlen; lia].
  - cbn [seq List.map concat]. rewrite <- seq_shift, List.map_map.
    rewrite (List.map_ext _ (fun k => take b (drop (k * b) (drop b l)))).
    + rewrite IH by (rewrite length_drop; simpl in Hlen; lia). apply take_drop.
    + intros k. now rewrite drop_drop.
Qed.

Variables (files : list Path) (batch_size : Z).
Hypothesis Hpos : (0 < batch_size)%Z.

Let len : Z := Z.of_nat (length files).
Let count : nat := Z.to_nat ((len + batch_size - 1) / batch_size).

Lemma py_range_positive :
  py_range len batch_size
  = Ok (List.map (fun k => (Z.of_nat k * batch_size)%Z) (seq 0 count)).
Proof.
  unfold py_range.
  destruct (Z.eqb_spec batch_size 0); [lia |].
  destruct (Z.ltb_spec batch_size 0); [lia | reflexivity].
Qed.

Lemma slice_chunk (k : nat) :
  slice files (Z.of_nat k * batch_size) batch_size
  = take (Z.to_nat batch_size) (drop (k * Z.to_nat batch_size) files).
Proof.
  unfold slice. do 2 f_equal.
  rewrite Z2Nat.inj_mul by lia. now rewrite Nat2Z.id.
Qed.

Lemma count_bounds :
  (len <= Z.of_nat count * batch_size)%Z
  /\ (forall k, (k < count)%nat -> (Z.of_nat k * batch_size < len)%Z).
Proof.
  subst count. set (q := ((len + batch_size - 1) / batch_size)%Z).
  assert (Hq : (0 <= q)%Z) by (apply Z.div_pos; subst len; lia).
  pose proof (Z.mul_div_le (len + batch_size - 1) batch_size Hpos) as Hle.
  pose proof (Z.mul_succ_div_gt (len + batch_size - 1) batch_size Hpos) as Hgt.
  fold q in Hle, Hgt. rewrite Z2Nat.id by exact Hq. split; [nia |].
  intros k Hk. apply Nat2Z.inj_lt in Hk. rewrite Z2Nat.id in Hk by exact Hq. nia.
Qed.

(** The batches of lines 60-61 cut the list of files into consecutive
    pieces: put end to end they give the list back, no batch is empty, and
    none is longer than the batch size. *)
Theorem batches_partition :
  exists starts,
    py_range (Z.of_nat (length files)) batch_size = Ok starts
    /\ concat (List.map (fun i => slice files i batch_size) starts) = files
    /\ Forall (fun i => slice files i batch_size <> []
                        /\ (length (slice files i batch_size) <= Z.to_nat batch_size)%nat)
         starts.
Proof.
  exists (List.map (fun k => (Z.of_nat k * batch_size)%Z) (seq 0 count)).
  destruct count_bounds as [Hcover Hstart].
  split; [apply py_range_positive | split].
  - rewrite List.map_map.
    rewrite (List.map_ext _ _ slice_chunk).
    apply concat_chunks. subst len. nia.
  - apply List.Forall_forall. intros i (k & <- & Hk%in_seq)%in_map_iff.
    rewrite slice_chunk. split.
    + assert (Hlt : (k * Z.to_nat batch_size < length files)%nat).
      { specialize (Hstart k ltac:(lia)). subst len. nia. }
      intros Hnil. apply (f_equal (@length Path)) in Hnil.
      rewrite length_take, length_drop in Hnil. simpl in Hnil. lia.
    + rewrite length_take. lia.
Qed.

(** The number of batches: the number of files divided by the batch
    size, rounded up. *)
Lemma batch_count :
  exists starts,
    py_range (Z.of_nat (length files)) batch_size = Ok starts
    /\ Z.of_nat (length starts)
       = (if (Z.of_nat (length files) mod batch_size =? 0)%Z
          then Z.of_nat (length files) / batch_size
          else Z.of_nat (length files) / batch_size + 1)%Z.
Proof.
  exists (List.map (fun k => (Z.of_nat k * batch_size)%Z) (seq 0 count)).
  split; [apply py_range_positive |].
  rewrite length_map, length_seq. subst count. fold len.
  assert (Hlen : (0 <= len)%Z) by (subst len; lia).
  rewrite Z2Nat.id by (apply Z.div_pos; lia).
  pose proof (Z.div_mod len batch_size ltac:(lia)) as Hdm.
  pose proof (Z.mod_pos_bound len batch_size Hpos) as Hmod.
  destruct (Z.eqb_spec (len mod batch_size) 0) as [H0|Hn0].
  - symmetry. apply Z.div_unique with (r := (batch_size - 1)%Z); lia.
  - symmetry. apply Z.div_unique with (r := (len mod batch_size - 1)%Z); lia.
Qed.

End Batches.

Lemma finally_establish {I : world -> Prop} {A} (m : M A) (f : M unit) (w : world) :
  I (snd (m w)) -> preserves I f -> I (snd (finally m f w)).
Proof.
  intros Hm Hf. unfold finally. destruct (m w) as [r w']. simpl in Hm.
  specialize (Hf w' Hm). now destruct (f w') as [[[]|x] w''].
Qed.

Lemma batches_partition_witness :
  exists starts,
    py_range (Z.of_nat (length [song_a; song_b; notes])) 2 = Ok starts
    /\ concat (List.map (fun i => slice [song_a; song_b; notes] i 2) starts)
       = [song_a; song_b; notes]
    /\ Forall (fun i => slice [song_a; song_b; notes] i 2 <> []
                        /\ (length (slice [song_a; song_b; notes] i 2) <= Z.to_nat 2)%nat)
         starts.
Proof. apply (batches_partition [song_a; song_b; notes] 2). reflexivity. Defined.

(** ** Runs with nothing to do *)

(** A batch size of zero stops the run with a [ValueError] before any file
    is looked at, even when there is no file; a negative batch size, like
    an empty list of files, makes the run return at once.  In all three
    cases the executor is entered and left and nothing else happens. *)
Theorem nothing_to_do (e : env) (paths : list Path) (batch_size : Z)
    (output_path : Path) (order_by api_key contact_email : pystr) (remove_origin : bool)
    (w : world) :
  (batch_size <= 0)%Z \/ paths = [] ->
  process_files_in_batches e paths batch_size output_path order_by api_key
    contact_email remove_origin w
  = (if (batch_size =? 0)%Z then Raise ValueError else Ok tt,
     add_events w [EvExecutorEnter; EvExecutorExit]).
Proof.
  intros H.
  assert (Hrange : py_range (Z.of_nat (length paths)) batch_size
                   = if (batch_size =? 0)%Z then Raise ValueError else Ok []).
  { unfold py_range. destruct (Z.eqb_spec batch_size 0); [reflexivity |].
    destruct (Z.ltb_spec batch_size 0); [reflexivity |].
    destruct H as [H | ->]; [lia |]. simpl length.
    rewrite Z.div_small by lia. reflexivity. }
  unfold process_files_in_batches, finally, bind, emit, lift. cbv beta iota.
  rewrite Hrange. unfold add_events. cbn [files dirs trace].
  destruct (batch_size =? 0)%Z; simpl; now rewrite <- app_assoc.
Qed.

Lemma nothing_to_do_witness :
  process_files_in_batches (env_of (response_of []) no_fault) [song_a; song_b] 0 out
    (lit "artist") key email false world0
  = (Raise ValueError, add_events world0 [EvExecutorEnter; EvExecutorExit]).
Proof.
  apply (nothing_to_do (env_of (response_of []) no_fault) [song_a; song_b] 0 out
           (lit "artist") key email false world0).
  left. reflexivity.
Defined.

(** ** Which candidates are valid *)

Section Validity.

Lemma lower_char_dot (c : N) : lower_char c = dot <-> c = dot.
Proof.
  unfold lower_char, dot.
  destruct (N.leb_spec 65 c), (N.leb_spec c 90); simpl; lia.
Qed.

(** A string whose lowered form is a dot and then no dot has that shape
    itself. *)
Lemma lower_dot_shape (ext s : pystr) :
  lower ext = dot :: s -> ~ In dot s ->
  exists t, ext = dot :: t /\ ~ In dot t /\ length t = length s.
Proof.
  destruct ext as [|c t]; [discriminate |]. unfold lower. cbn [List.map].
  intros [= Hc <-] Hs. apply lower_char_dot in Hc as ->.
  exists t. split; [reflexivity | split].
  - intros Hin. apply Hs. apply in_map_iff. exists dot. split; [reflexivity | exact Hin].
  - now rewrite length_map.
Qed.

Lemma supported_shape (x : pystr) :
  In x supported -> exists s, x = dot :: s /\ ~ In dot s /\ (1 <= length s)%nat.
Proof.
  intros [<-|[<-|[<-|[<-|[]]]]]; eexists; (split; [reflexivity |]);
    (split; [| simpl; lia]); simpl; intros H;
    repeat (destruct H as [H|H]; [discriminate |]); exact H.
Qed.

Lemma rfind_from_absent (c : N) (s : pystr) (i : nat) :
  ~ In c s -> rfind_from c s i = None.
Proof.
  revert i. induction s as [|x s IH]; [reflexivity |]. intros i Hin. simpl.
  rewrite IH by (intros H; apply Hin; now right).
  destruct (N.eqb_spec x c) as [->|_]; [| reflexivity]. destruct Hin. now left.
Qed.

Lemma rfind_from_last (c : N) (s t : pystr) (i : nat) :
  ~ In c t -> rfind_from c (s ++ c :: t) i = Some (i + length s)%nat.
Proof.
  intros Ht. revert i. induction s as [|x s IH]; intros i; simpl.
  - rewrite (rfind_from_absent c t (S i) Ht), N.eqb_refl. f_equal. lia.
  - rewrite IH. f_equal. lia.
Qed.

Lemma rfind_from_bounds (c : N) (s : pystr) (i j : nat) :
  rfind_from c s i = Some j -> (i <= j < i + length s)%nat.
Proof.
  revert i. induction s as [|x s IH]; [discriminate |]. intros i. simpl.
  destruct (rfind_from c s (S i)) as [k|] eqn:Hk.
  - intros [= <-]. apply IH in Hk. lia.
  - destruct (x =? c); [| discriminate]. intros [= <-]. lia.
Qed.

(** The suffix of a path is empty, or what is left of the name after a
    non-empty stem. *)
Lemma suffix_split (p : Path) :
  suffix p = [] \/ exists stem, stem <> [] /\ name p = stem ++ suffix p.
Proof.
  unfold suffix. destruct (rfind_from dot (name p) 0) as [i|] eqn:Hi; [| now left].
  destruct (Nat.ltb_spec 0 i); [| now left].
  destruct (Nat.ltb_spec i (length (name p) - 1)); [| now left].
  right. exists (take i (name p)). split.
  - intros Hnil. apply (f_equal (@length N)) in Hnil.
    rewrite length_take in Hnil. simpl in Hnil. lia.
  - symmetry. apply take_drop.
Qed.

Lemma suffix_of_name (p : Path) (stem t : pystr) :
  name p = stem ++ dot :: t -> stem <> [] -> t <> [] -> ~ In dot t ->
  suffix p = dot :: t.
Proof.
  intros Hname Hstem Ht Hdot. unfold suffix. rewrite Hname.
  rewrite (rfind_from_last dot stem t 0 Hdot). simpl Nat.add.
  rewrite length_app. simpl length.
  destruct stem as [|a stem]; [congruence |]. destruct t as [|b t]; [congruence |].
  destruct (Nat.ltb_spec 0 (length (a :: stem))); [| simpl in *; lia].
  destruct (Nat.ltb_spec (length (a :: stem))
              (length (a :: stem) + S (length (b :: t)) - 1)); [| simpl in *; lia].
  simpl andb. cbv iota. now rewrite drop_app_length.
Qed.

(** A candidate enters the pipeline exactly when it is a regular file
    whose name is a non-empty stem followed by one of the four extensions,
    in any mix of upper and lower case.  So a file named just [.mp3] is
    skipped, and so is a directory. *)
Theorem valid_candidate_iff (w : world) (p : Path) :
  valid_candidate w p = true
  <-> is_file w p = true
      /\ exists stem ext, name p = stem ++ ext /\ stem <> [] /\ In (lower ext) supported.
Proof.
  unfold valid_candidate, exists_. split.
  - intros [[_ Hfile]%andb_prop (x & Hx & Heq)%existsb_exists]%andb_prop.
    apply bool_decide_eq_true in Heq. split; [exact Hfile |].
    destruct (suffix_split p) as [Hnil | (stem & Hstem & Hname)].
    + rewrite Hnil in Heq. subst x.
      destruct (supported_shape _ Hx) as (s & Hs & _). discriminate.
    + exists stem, (suffix p). rewrite Heq. auto.
  - intros [Hfile (stem & ext & Hname & Hstem & Hin)].
    rewrite Hfile. cbn [orb andb].
    destruct (supported_shape _ Hin) as (s & Hs & Hdot & Hlen).
    destruct (lower_dot_shape ext s Hs Hdot) as (t & -> & Hdot' & Hlen').
    rewrite (suffix_of_name p stem t Hname Hstem); [| | exact Hdot'].
    + apply existsb_exists. exists (lower (dot :: t)). split; [exact Hin |].
      now apply bool_decide_eq_true.
    + destruct t; [simpl in *; lia | discriminate].
Qed.

End Validity.

(** ** The names derived from well-formed metadata *)

Section TypedMetadata.

Lemma head_split_on (sep : N) (s : pystr) : head (split_on sep s) = Some (before sep s).
Proof.
  induction s as [|c s IH]; [reflexivity |]. simpl.
  destruct (c =? sep); [reflexivity |].
  destruct (split_on sep s) as [|x xs]; [discriminate |].
  simpl in *. now injection IH as ->.
Qed.

Lemma collect_credits (cs : list credit) :
  collect credit_name (List.map encode_credit cs)
  = Ok (List.map VStr
          (present (List.map (fun c => match c with
                                       | Artist n => n
                                       | JoinPhrase _ => None
                                       end) cs))).
Proof.
  induction cs as [|c cs IH]; [reflexivity |].
  cbn [List.map collect]. rewrite IH.
  destruct c as [s | [[|a n]|]]; reflexivity.
Qed.

Lemma collect_titles (rs : list release) :
  collect release_title (List.map encode_release rs)
  = Ok (List.map VStr (present (List.map rel_title rs))).
Proof.
  induction rs as [|r rs IH]; [reflexivity |].
  cbn [List.map collect]. rewrite IH.
  destruct r as [[[|a t]|] [dt|]]; reflexivity.
Qed.

Lemma release_year_encoded (r : release) :
  release_year (encode_release r)
  = Ok match rel_date r with
       | Some (c :: s) => Some (before hyphen (c :: s))
       | _ => None
       end.
Proof.
  destruct r as [[t|] [[|a dt]|]]; try reflexivity;
    unfold release_year;
    match goal with
    | |- context [py_get ?v ?k ?d] =>
        change (py_get v k d) with (Ok (VStr (a :: dt)))
    end;
    cbn [res_bind truthy rel_date]; now rewrite head_split_on.
Qed.

Lemma collect_years (rs : list release) :
  collect release_year (List.map encode_release rs)
  = Ok (List.map (before hyphen) (present (List.map rel_date rs))).
Proof.
  induction rs as [|r rs IH]; [reflexivity |].
  cbn [List.map collect]. rewrite IH, release_year_encoded.
  destruct r as [t [[|a dt]|]]; reflexivity.
Qed.

Lemma folder_of_strs (names : list pystr) (fallback : pystr) :
  folder_of (List.map VStr names) fallback =
  match names with
  | [] => Ok fallback
  | _ => Raise NameError
  end.
Proof. now destruct names. Qed.

(** On metadata of the shape the catalog returns, lines 74-117 raise
    [NameError] as soon as the recording names an artist, has a release
    with a title or has a release with a date: line 87, 99 or 107 then
    calls [escape_folder_name], which parser.py does not import.  Only
    metadata without any of these gets through, with the fallback folder of
    the ordering criterion, the artist [Unknown Artist], and the title of
    the recording or [Unknown Song]. *)
Theorem derive_names_typed (order_by : pystr) (md : recording_md) :
  derive_names order_by (encode md)
  = if nameless md
    then Ok (unknown_folder order_by, lit "Unknown Artist", song_name_of md)
    else Raise NameError.
Proof.
  unfold derive_names, nameless.
  change (py_get (encode md) (lit "recording") (VDict [])) with (Ok (encode_recording md)).
  cbn [res_bind].
  assert (Hart : extract_artists (encode_recording md)
                 = Ok (List.map VStr (artist_names md))).
  { unfold extract_artists.
    assert (Hget : py_get (encode_recording md) (lit "artist-credit") (VList [])
                   = Ok (VList (List.map encode_credit (credits md))))
      by (destruct md as [cs [t|] rs]; reflexivity).
    rewrite Hget. cbn [res_bind py_iter]. apply collect_credits. }
  assert (Hrel : py_get (encode_recording md) (lit "release-list") (VList [])
                 = Ok (VList (List.map encode_release (releases md))))
    by (destruct md as [cs [t|] rs]; reflexivity).
  assert (Htitle : py_get (encode_recording md) (lit "title") (VStr (lit "Unknown Song"))
                   = Ok (song_name_of md))
    by (destruct md as [cs [t|] rs]; reflexivity).
  rewrite Hart. cbn [res_bind].
  destruct (artist_names md) as [|n ns].
  2:{ change (List.map VStr (n :: ns)) with (VStr n :: List.map VStr ns). cbv iota.
      unfold py_join.
      change (VStr n :: List.map VStr ns) with (List.map VStr (n :: ns)).
      now rewrite as_strs_map. }
  cbn [List.map res_bind folder_of].
  rewrite Htitle. cbn [res_bind].
  rewrite Hrel. cbn [res_bind py_iter].
  rewrite collect_titles. cbn [res_bind].
  change (present (List.map rel_title (releases md))) with (album_titles md).
  rewrite folder_of_strs.
  destruct (album_titles md) as [|t ts]; [cbn [res_bind] | reflexivity].
  rewrite collect_years. cbn [res_bind].
  change (List.map (before hyphen) (present (List.map rel_date (releases md))))
    with (release_years md).
  rewrite folder_of_strs.
  destruct (release_years md) as [|y ys]; reflexivity.
Qed.

End TypedMetadata.

(** The metadata of the scenarios is of that shape. *)
Example alice_encoded :
  encode {| credits := [Artist (Some (lit "Alice"))];
            title := Some (lit "Song");
            releases := [{| rel_title := Some (lit "Album");
                            rel_date := Some (lit "2020-05-01") |}] |} = alice.
Proof. reflexivity. Qed.

(** ** What a placement leaves behind *)

Section Placements.

Variables (e : env) (src folder : Path) (fname : pystr) (f : file) (line : message)
          (remove_origin : bool) (w : world).

Let dst : Path := folder ++ [fname].

Hypothesis Hfolder : folder <> [].
Hypothesis Hmkdir : fs_fault e (OpMkdir folder) = None.
Hypothesis Hcopy : fs_fault e (OpCopy2 src dst) = None.
Hypothesis Hsrc : files w !! src = Some f.
Hypothesis Hclear : forall q, q ∈ ancestors folder -> files w !! q = None.
Hypothesis Hdir : is_dir w dst = false.
Hypothesis Hne : dst <> src.
Hypothesis Hline : printable line = true.

Lemma remove_original_run_at (w1 : world) :
  files w1 !! src = Some f ->
  remove_original e src w1
  = (Ok tt,
     {| files := if deleted e src true then delete src (files w1) else files w1;
        dirs := dirs w1;
        trace := trace w1 ++ deletion_events e src true |}).
Proof.
  intros H1. unfold remove_original, try_except, Fs.unlink, Fs.fault, print, printable, deleted,
    deletion_events.
  unfold bind, emit, get_world, set_files, ret, raise. cbn [andb].
  destruct (fs_fault e (OpUnlink src)) as [x|]; cbv beta iota; cbn [files dirs trace].
  - now rewrite <- app_assoc.
  - rewrite H1. cbv beta iota. cbn [files dirs trace]. now rewrite <- app_assoc.
Qed.

(** The steps shared by lines 30-44 and lines 120-137. *)
Lemma copy_into_folder_run :
  (Fs.mkdir e folder ;;
   Fs.copy2 e src dst ;;
   print line ;;
   if remove_origin then remove_original e src else ret tt) w
  = (Ok tt, after_placement e w folder src dst f line remove_origin).
Proof.
  assert (Hmk : Fs.mkdir e folder w
                = (Ok tt, {| files := files w;
                             dirs := dirs w ∪ list_to_set (ancestors folder);
                             trace := trace w ++ [EvMkdir folder] |})).
  { unfold Fs.mkdir, Fs.fault, bind, emit, get_world, set_dirs, ret, raise.
    rewrite Hmkdir. cbv beta iota.
    assert (Hself : is_file (add_events w [EvMkdir folder]) folder = false)
      by (apply is_file_false; simpl; apply Hclear, ancestors_self, Hfolder).
    assert (Hanc : existsb (is_file (add_events w [EvMkdir folder])) (ancestors folder)
                   = false).
    { apply not_true_is_false. intros (q & Hq & Hfile)%existsb_exists.
      rewrite is_file_false in Hfile; [discriminate |].
      simpl. apply Hclear. now apply list_elem_of_In. }
    unfold add_events in Hself, Hanc. now rewrite Hself, Hanc. }
  set (w1 := {| files := files w;
                dirs := dirs w ∪ list_to_set (ancestors folder);
                trace := trace w ++ [EvMkdir folder] |}) in *.
  assert (Hparent : parent dst = folder) by apply removelast_last.
  assert (Hin : folder ∈ dirs w1).
  { apply elem_of_union_r, elem_of_list_to_set, ancestors_self, Hfolder. }
  assert (Hd1 : is_dir w1 dst = false).
  { unfold is_dir in *. cbn [dirs w1].
    apply orb_false_iff in Hdir as [Hd Ha]. rewrite Ha, orb_false_r.
    apply bool_decide_eq_false in Hd. apply bool_decide_eq_false.
    rewrite elem_of_union, elem_of_list_to_set.
    intros [? | Hanc%ancestors_length]; [auto |].
    subst dst. rewrite length_app in Hanc. simpl in Hanc. lia. }
  assert (Hcp : Fs.copy2 e src dst w1
                = (Ok tt, {| files := <[dst := f]> (files w1);
                             dirs := dirs w1;
                             trace := trace w1 ++ [EvCopy2 src dst] |})).
  { unfold Fs.copy2, Fs.fault, bind, emit, get_world, set_files, ret, raise.
    rewrite Hcopy. cbv beta iota.
    change (is_dir {| files := files w1; dirs := dirs w1;
                      trace := trace w1 ++ [EvCopy2 src dst] |}) with (is_dir w1).
    change (is_file {| files := files w1; dirs := dirs w1;
                       trace := trace w1 ++ [EvCopy2 src dst] |}) with (is_file w1).
    cbn [files]. rewrite Hd1, (bool_decide_eq_false_2 _ Hne). cbn [andb].
    change (files w1) with (files w). rewrite Hsrc, Hd1, Hparent.
    rewrite (is_file_false w1 folder) by (apply Hclear, ancestors_self, Hfolder).
    unfold is_dir. now rewrite (bool_decide_eq_true_2 _ Hin). }
  rewrite (bind_run _ _ _ _ _ Hmk), (bind_run _ _ _ _ _ Hcp).
  unfold bind at 1, print. rewrite Hline. unfold emit. cbv beta iota.
  cbn [files dirs trace w1].
  unfold after_placement. destruct remove_origin.
  - rewrite remove_original_run_at
      by (cbn [files]; rewrite lookup_insert_ne by exact Hne; exact Hsrc).
    cbn [files dirs trace]. unfold deleted. cbn [andb].
    do 2 f_equal. now rewrite <- !app_assoc.
  - unfold ret, deleted, deletion_events. cbn [andb].
    do 2 f_equal. now rewrite <- !app_assoc, app_nil_r.
Qed.

End Placements.

Lemma clear_of_existsb (w : world) (p : Path) :
  existsb (is_file w) (ancestors p) = false ->
  forall q, q ∈ ancestors p -> files w !! q = None.
Proof.
  intros Hex q Hq%list_elem_of_In.
  destruct (files w !! q) eqn:Hfq; [| reflexivity].
  assert (existsb (is_file w) (ancestors p) = true)
    by (apply existsb_exists; eauto using is_file_true).
  congruence.
Qed.

(** What is left after a placement, read off [after_placement]. *)
Lemma after_placement_lookup (e : env) (w : world) (folder src dst : Path) (f : file)
    (line : message) (remove_origin : bool) :
  dst <> src ->
  files w !! src = Some f ->
  files (after_placement e w folder src dst f line remove_origin) !! dst = Some f
  /\ files (after_placement e w folder src dst f line remove_origin) !! src
     = (if deleted e src remove_origin then None else Some f)
  /\ (forall q, q <> dst -> q <> src ->
      files (after_placement e w folder src dst f line remove_origin) !! q
      = files w !! q).
Proof.
  intros Hne Hsrc. unfold after_placement. cbn [files].
  destruct (deleted e src remove_origin); repeat split.
  - rewrite lookup_delete_ne by exact (not_eq_sym Hne). apply lookup_insert_eq.
  - apply lookup_delete_eq.
  - intros q Hq1 Hq2.
    rewrite lookup_delete_ne by exact (not_eq_sym Hq2).
    now rewrite lookup_insert_ne by exact (not_eq_sym Hq1).
  - apply lookup_insert_eq.
  - now rewrite lookup_insert_ne by exact Hne.
  - intros q Hq1 Hq2. now rewrite lookup_insert_ne by exact (not_eq_sym Hq1).
Qed.

(** Two files with the same name that both go to the unsorted folder
    (lines 30-44) end in one place: the second copy overwrites the first.
    Under [remove_origin] both originals are deleted as well, so the
    content of the first file is then found at none of the three paths. *)
Theorem unsorted_name_collision (e : env) (first second output_path : Path)
    (remove_origin : bool) (f1 f2 : file) (w : world) :
  (forall op, fs_fault e op = None) ->
  name first = name second ->
  first <> second ->
  component (name first) = true ->
  files w !! first = Some f1 ->
  files w !! second = Some f2 ->
  existsb (is_file w) (ancestors (path_div output_path (lit "unsorted"))) = false ->
  is_dir w (path_div (path_div output_path (lit "unsorted")) (name first)) = false ->
  path_div (path_div output_path (lit "unsorted")) (name first) <> first ->
  path_div (path_div output_path (lit "unsorted")) (name first) <> second ->
  files (snd (place_unsorted e second output_path remove_origin
                (snd (place_unsorted e first output_path remove_origin w))))
    !! path_div (path_div output_path (lit "unsorted")) (name first) = Some f2
  /\ (remove_origin = true ->
      files (snd (place_unsorted e second output_path remove_origin
                    (snd (place_unsorted e first output_path remove_origin w))))
        !! first = None
      /\ files (snd (place_unsorted e second output_path remove_origin
                       (snd (place_unsorted e first output_path remove_origin w))))
           !! second = None).
Proof.
  intros Hfault Hname Hdiff Hcomp Hf1 Hf2.
  rewrite (path_div_component output_path (lit "unsorted")) by reflexivity.
  rewrite (path_div_component _ _ Hcomp).
  intros Hex Hdir Hne1 Hne2.
  pose proof (clear_of_existsb _ _ Hex) as Hclear. clear Hex.
  set (folder := output_path ++ [lit "unsorted"]) in *.
  set (dst := folder ++ [name first]) in *.
  assert (Hfolder : folder <> []) by (subst folder; now destruct output_path).
  assert (Hdeleted : forall p, deleted e p remove_origin = remove_origin).
  { intros p. unfold deleted. rewrite Hfault. apply andb_true_r. }
  assert (Hnotanc : forall q, q ∈ ancestors folder -> q <> dst).
  { intros q Hq%ancestors_length ->. subst dst.
    rewrite length_app in Hq. simpl in Hq. lia. }
  rewrite (place_unsorted_unfold e first output_path remove_origin Hcomp w).
  fold folder. fold dst.
  pose proof (copy_into_folder_run e first folder (name first) f1
                (MsgNoMetadataMoved first (folder ++ [name first])) remove_origin w
                Hfolder (Hfault _) (Hfault _) Hf1 Hclear Hdir Hne1 eq_refl) as Hrun1.
  fold dst in Hrun1. rewrite Hrun1. cbn [snd].
  set (w1 := after_placement e w folder first dst f1
               (MsgNoMetadataMoved first dst) remove_origin).
  destruct (after_placement_lookup e w folder first dst f1
              (MsgNoMetadataMoved first dst) remove_origin Hne1 Hf1)
    as (Hd1 & Hs1 & Hframe1).
  fold w1 in Hd1, Hs1, Hframe1.
  assert (Hf2' : files w1 !! second = Some f2).
  { rewrite Hframe1; [exact Hf2 | exact (not_eq_sym Hne2) | exact (not_eq_sym Hdiff)]. }
  assert (Hclear1 : forall q, q ∈ ancestors folder -> files w1 !! q = None).
  { intros q Hq. destruct (decide (q = first)) as [->|Hqf].
    - rewrite (Hclear _ Hq) in Hf1. discriminate.
    - rewrite Hframe1; auto. }
  assert (Hdir1 : is_dir w1 dst = false).
  { unfold is_dir in *. subst w1. cbn [dirs after_placement].
    apply orb_false_iff in Hdir as [Hd Ha]. rewrite Ha, orb_false_r.
    apply bool_decide_eq_false in Hd. apply bool_decide_eq_false.
    rewrite elem_of_union, elem_of_list_to_set.
    intros [? | Hanc]; [auto | now apply (Hnotanc dst Hanc)]. }
  assert (Hcomp2 : component (name second) = true) by now rewrite <- Hname.
  rewrite (place_unsorted_unfold e second output_path remove_origin Hcomp2 w1).
  rewrite <- Hname. fold folder. fold dst.
  pose proof (copy_into_folder_run e second folder (name first) f2
                (MsgNoMetadataMoved second (folder ++ [name first])) remove_origin w1
                Hfolder (Hfault _) (Hfault _) Hf2' Hclear1 Hdir1 Hne2 eq_refl) as Hrun2.
  fold dst in Hrun2. rewrite Hrun2. cbn [snd].
  destruct (after_placement_lookup e w1 folder second dst f2
              (MsgNoMetadataMoved second dst) remove_origin Hne2 Hf2')
    as (Hd2 & Hs2 & Hframe2).
  split; [exact Hd2 |]. intros ->. split.
  - rewrite Hframe2; [| exact (not_eq_sym Hne1) | exact Hdiff].
    now rewrite Hs1, Hdeleted.
  - now rewrite Hs2, Hdeleted.
Qed.

Lemma unsorted_name_collision_witness :
  files (snd (place_unsorted (env_of (response_of []) no_fault)
                [lit "b"; lit "x.mp3"] out true
                (snd (place_unsorted (env_of (response_of []) no_fault)
                        [lit "a"; lit "x.mp3"] out true
                        {| files := <[ [lit "a"; lit "x.mp3"] := file_a ]>
                                      (<[ [lit "b"; lit "x.mp3"] := file_b ]> ∅);
                           dirs := ∅; trace := [] |}))))
    !! path_div (path_div out (lit "unsorted")) (name [lit "a"; lit "x.mp3"])
  = Some file_b
  /\ (true = true ->
      files (snd (place_unsorted (env_of (response_of []) no_fault)
                    [lit "b"; lit "x.mp3"] out true
                    (snd (place_unsorted (env_of (response_of []) no_fault)
                            [lit "a"; lit "x.mp3"] out true
                            {| files := <[ [lit "a"; lit "x.mp3"] := file_a ]>
                                          (<[ [lit "b"; lit "x.mp3"] := file_b ]> ∅);
                               dirs := ∅; trace := [] |}))))
        !! [lit "a"; lit "x.mp3"] = None
      /\ files (snd (place_unsorted (env_of (response_of []) no_fault)
                       [lit "b"; lit "x.mp3"] out true
                       (snd (place_unsorted (env_of (response_of []) no_fault)
                               [lit "a"; lit "x.mp3"] out true
                               {| files := <[ [lit "a"; lit "x.mp3"] := file_a ]>
                                             (<[ [lit "b"; lit "x.mp3"] := file_b ]> ∅);
                                  dirs := ∅; trace := [] |}))))
           !! [lit "b"; lit "x.mp3"] = None).
Proof.
  apply (unsorted_name_collision (env_of (response_of []) no_fault)
           [lit "a"; lit "x.mp3"] [lit "b"; lit "x.mp3"] out true file_a file_b
           {| files := <[ [lit "a"; lit "x.mp3"] := file_a ]>
                         (<[ [lit "b"; lit "x.mp3"] := file_b ]> ∅);
              dirs := ∅; trace := [] |});
    first [reflexivity | intros op; reflexivity | vm_compute; discriminate].
Defined.

(** ** What a run never deletes *)

Section NoLoss.

Variables (e : env) (remove_origin : bool) (candidates : list Path) (w0 : world).

(** The files of [w0] that are safe are still there, and so are the
    directories. *)
Let kept (w : world) : Prop :=
  (forall p, remove_origin = false \/ ~ In p candidates ->
             is_Some (files w0 !! p) -> is_Some (files w !! p))
  /\ dirs w0 ⊆ dirs w.

Lemma kept_emit (ev : event) : preserves kept (emit ev).
Proof. intros w H. exact H. Qed.

Lemma kept_print (m : message) : preserves kept (print m).
Proof. unfold print. destruct (printable m); intros w H; exact H. Qed.

Lemma kept_mkdir (p : Path) : preserves kept (Fs.mkdir e p).
Proof.
  intros w [Hfiles Hdirs].
  unfold Fs.mkdir, Fs.fault, bind, emit, get_world, set_dirs, ret, raise.
  destruct (fs_fault e (OpMkdir p)); cbv beta iota; [now split |].
  repeat match goal with
         | |- context [if ?b then _ else _] => destruct b
         end; split; try assumption; cbn [dirs]; set_solver.
Qed.

Lemma kept_copy2 (src dst : Path) : preserves kept (Fs.copy2 e src dst).
Proof.
  intros w [Hfiles Hdirs].
  unfold Fs.copy2, Fs.fault, bind, emit, get_world, set_files, ret, raise.
  destruct (fs_fault e (OpCopy2 src dst)); cbv beta iota; [now split |].
  cbn [files].
  repeat match goal with
         | |- context [if ?b then _ else _] => destruct b
         | |- context [match files w !! src with _ => _ end] =>
             destruct (files w !! src)
         end; (split; cbn [snd files dirs]; [| exact Hdirs]); try exact Hfiles;
    intros p Hp Hsome; specialize (Hfiles p Hp Hsome);
    rewrite lookup_insert; case_decide; eauto.
Qed.

Lemma kept_unlink (p : Path) :
  remove_origin = true -> In p candidates -> preserves kept (Fs.unlink e p).
Proof.
  intros Hro Hin w [Hfiles Hdirs].
  unfold Fs.unlink, Fs.fault, bind, emit, get_world, set_files, ret, raise.
  destruct (fs_fault e (OpUnlink p)); cbv beta iota; [now split |].
  cbn [files]. destruct (files w !! p) eqn:Hp; cbv beta iota;
    [| destruct (is_dir _ p); now split].
  split; [| exact Hdirs]. cbn [snd files]. intros q Hq Hsome.
  rewrite lookup_delete_ne; [now apply Hfiles |].
  intros <-. destruct Hq as [Hq | Hq]; [congruence | contradiction].
Qed.

Lemma kept_deletion_if (b : bool) (p : Path) :
  (b = true -> remove_origin = true) ->
  In p candidates ->
  preserves kept (if b then remove_original e p else ret tt).
Proof.
  intros Hb Hin. destruct b; [| apply preserves_ret].
  apply remove_original_preserves; [intros ev _; apply kept_emit |].
  apply kept_unlink; auto.
Qed.

Lemma kept_deletion (p : Path) :
  In p candidates ->
  preserves kept (if remove_origin then remove_original e p else ret tt).
Proof. apply kept_deletion_if. auto. Qed.

Lemma kept_place_unsorted (file_path output_path : Path) :
  In file_path candidates ->
  preserves kept (place_unsorted e file_path output_path remove_origin).
Proof.
  intros Hin. unfold place_unsorted, print, printable. cbv zeta.
  apply preserves_bind; [apply kept_mkdir | intros _].
  apply preserves_bind; [apply kept_copy2 | intros _].
  apply preserves_bind; [apply kept_emit | intros _].
  now apply kept_deletion.
Qed.

Lemma kept_place (file_path output_path : Path) (order_by : pystr) (metadata : value) :
  In file_path candidates ->
  preserves kept (place e file_path output_path order_by remove_origin metadata).
Proof.
  intros Hin. unfold place, print, printable.
  apply preserves_bind; [apply preserves_lift |]. intros [[folder ans] song].
  cbv zeta.
  apply preserves_bind; [apply kept_mkdir | intros _].
  apply preserves_bind; [apply preserves_lift | intros escaped_file_name].
  apply preserves_bind; [apply kept_copy2 | intros _].
  apply preserves_bind; [apply kept_emit | intros _].
  now apply kept_deletion.
Qed.

Lemma kept_process_file (file_path : Path) (api_key contact_email : pystr)
    (output_path : Path) :
  In file_path candidates ->
  preserves kept (process_file e file_path api_key contact_email output_path
                    remove_origin).
Proof.
  intros Hin. unfold process_file, process_file_body, generate_fingerprint, print, printable.
  pres; first [ apply kept_emit
              | apply recognize_song_acoustid_preserves; intros ev _; apply kept_emit
              | apply results_loop_preserves;
                  [intros ev _; apply kept_emit | now apply kept_place_unsorted] ].
Qed.

Lemma kept_process_candidate (output_path : Path) (order_by api_key contact_email : pystr)
    (candidate : Path) :
  In candidate candidates ->
  preserves kept (process_candidate e output_path order_by api_key contact_email
                    remove_origin candidate).
Proof.
  intros Hin. unfold process_candidate, reencode.
  apply preserves_bind; [apply preserves_get_world |]. intros w.
  destruct (_ || _); [apply kept_print |].
  destruct (negb _); [apply kept_print |].
  destruct (forallb utf8_encodable candidate);
    [| intros w1 H1; exact H1].
  intros w1 H1. rewrite bind_lift_ok. revert w1 H1.
  apply preserves_bind; [now apply kept_process_file |].
  intros metadata. destruct (truthy metadata); [now apply kept_place | apply preserves_ret].
Qed.

Lemma preserves_for_each_in {I : world -> Prop} {A} (xs : list A) (body : A -> M unit) :
  (forall x, In x xs -> preserves I (body x)) -> preserves I (for_each xs body).
Proof.
  induction xs as [|x xs IH]; intros Hb; simpl.
  - apply preserves_ret.
  - apply preserves_bind; [apply Hb; now left |].
    intros _. apply IH. intros y Hy. apply Hb. now right.
Qed.

Lemma kept_run (batch_size : Z) (output_path : Path)
    (order_by api_key contact_email : pystr) :
  preserves kept (process_files_in_batches e candidates batch_size output_path order_by
                    api_key contact_email remove_origin).
Proof.
  unfold process_files_in_batches, print, printable.
  apply preserves_bind; [apply kept_emit |]. intros _.
  apply preserves_finally; [| apply kept_emit].
  apply preserves_bind; [apply preserves_lift |]. intros starts.
  apply preserves_for_each. intros i.
  apply preserves_bind; [apply kept_emit |]. intros _.
  apply preserves_for_each_in. intros p Hp.
  apply kept_process_candidate.
  unfold slice in Hp. apply list_elem_of_In in Hp.
  apply list_elem_of_In. eapply subseteq_drop, subseteq_take, Hp.
Qed.

End NoLoss.

(** A run deletes nothing but originals: whatever the collaborators
    answer, and whether the run returns or raises, a regular file that was
    there before is still there after (a copy may have replaced its
    content), unless [remove_origin] is set and the file is one of the
    candidates; and every directory that was there is still there. *)
Theorem run_deletes_only_originals (e : env) (candidates : list Path) (batch_size : Z)
    (output_path : Path) (order_by api_key contact_email : pystr) (remove_origin : bool)
    (w : world) (p : Path) :
  remove_origin = false \/ ~ In p candidates ->
  is_Some (files w !! p) ->
  is_Some (files (snd (process_files_in_batches e candidates batch_size output_path
                         order_by api_key contact_email remove_origin w)) !! p)
  /\ dirs w ⊆ dirs (snd (process_files_in_batches e candidates batch_size output_path
                           order_by api_key contact_email remove_origin w)).
Proof.
  intros Hp Hsome.
  destruct (kept_run e remove_origin candidates w batch_size output_path order_by
              api_key contact_email w) as [Hfiles Hdirs].
  - split; [auto | reflexivity].
  - split; [now apply Hfiles | exact Hdirs].
Qed.

Lemma run_deletes_only_originals_witness :
  is_Some (files (snd (process_files_in_batches
                         (env_of (response_of [without_recordings]) no_fault)
                         [song_a] 100 out (lit "artist") key email true world0))
           !! song_b)
  /\ dirs world0
     ⊆ dirs (snd (process_files_in_batches
                    (env_of (response_of [without_recordings]) no_fault)
                    [song_a] 100 out (lit "artist") key email true world0)).
Proof.
  apply (run_deletes_only_originals
           (env_of (response_of [without_recordings]) no_fault)
           [song_a] 100 out (lit "artist") key email true world0 song_b).
  - right. simpl. intros [H | []]. discriminate H.
  - exists file_b. reflexivity.
Defined.

(** ** The content of a candidate is not lost *)

Section Safety.

Variables (e : env) (src : Path) (f : file).

(** The original is there, or it is gone and a copy of it is somewhere
    else. *)
Let safe (w : world) : Prop :=
  files w !! src = Some f
  \/ (files w !! src = None /\ exists q, q <> src /\ files w !! q = Some f).

Lemma safe_emit (ev : event) : preserves safe (emit ev).
Proof. intros w H. exact H. Qed.

Lemma safe_print (m : message) : preserves safe (print m).
Proof. unfold print. destruct (printable m); intros w H; exact H. Qed.

Lemma mkdir_files (p : Path) (w : world) : files (snd (Fs.mkdir e p w)) = files w.
Proof.
  unfold Fs.mkdir, Fs.fault, bind, emit, get_world, set_dirs, ret, raise.
  destruct (fs_fault e (OpMkdir p)); cbv beta iota; [reflexivity |].
  repeat match goal with
         | |- context [if ?b then _ else _] => destruct b
         end; reflexivity.
Qed.

(** A copy fails and changes no file, or succeeds and writes the content
    of the source to a path that is not the source. *)
Lemma copy2_outcome (dst : Path) (w : world) :
  (files (snd (Fs.copy2 e src dst w)) = files w
   /\ exists x, fst (Fs.copy2 e src dst w) = Raise x)
  \/ (exists t g, t <> src /\ files w !! src = Some g
                 /\ files (snd (Fs.copy2 e src dst w)) = <[t := g]> (files w)
                 /\ fst (Fs.copy2 e src dst w) = Ok tt).
Proof.
  unfold Fs.copy2, Fs.fault, bind, emit, get_world, set_files, ret, raise.
  destruct (fs_fault e (OpCopy2 src dst)); cbv beta iota; [left; eauto |].
  cbn [files].
  set (w1 := {| files := files w; dirs := dirs w;
                trace := trace w ++ [EvCopy2 src dst] |}).
  set (t := if is_dir w1 dst then path_div dst (name src) else dst).
  destruct (bool_decide (t = src) && is_file w1 src) eqn:Hsame; [left; eauto |].
  destruct (files w !! src) as [g|] eqn:Hsrc;
    [| left; split; [reflexivity | destruct (is_dir w1 src); eauto]].
  destruct (is_dir w1 t); [left; eauto |].
  destruct (is_file w1 (parent t)); [left; eauto |].
  destruct (negb (is_dir w1 (parent t))); [left; eauto |].
  right. exists t, g. repeat split; try reflexivity.
  apply andb_false_iff in Hsame as [Hneq | Hfile].
  - now apply bool_decide_eq_false in Hneq.
  - unfold is_file in Hfile. apply bool_decide_eq_false in Hfile.
    exfalso. apply Hfile. subst w1. cbn [files]. rewrite Hsrc. eauto.
Qed.

Lemma remove_original_outcome (w : world) :
  fst (remove_original e src w) = Ok tt
  /\ (files (snd (remove_original e src w)) = files w
      \/ files (snd (remove_original e src w)) = delete src (files w)).
Proof.
  unfold remove_original, try_except, Fs.unlink, Fs.fault, print, printable.
  unfold bind, emit, get_world, set_files, ret, raise.
  destruct (fs_fault e (OpUnlink src)); cbv beta iota; [split; auto |].
  cbn [files]. destruct (files w !! src); cbv beta iota; cbn [fst snd files];
    split; auto.
Qed.

(** Lines 30-44 and lines 120-137: the folder, the copy, the line, the
    deletion. *)
Lemma copy_then_delete_safe (folder dst : Path) (line : message) (remove_origin : bool) :
  preserves safe
    (Fs.mkdir e folder ;;
     Fs.copy2 e src dst ;;
     print line ;;
     if remove_origin then remove_original e src else ret tt).
Proof.
  intros w Hsafe. unfold bind at 1.
  pose proof (mkdir_files folder w) as Hmk.
  destruct (Fs.mkdir e folder w) as [[[]|x] w1]; cbn [snd] in Hmk;
    [| unfold safe; cbn [snd]; now rewrite Hmk].
  assert (Hsafe1 : safe w1) by (unfold safe; now rewrite Hmk).
  clear Hsafe Hmk w. unfold bind at 1.
  destruct (copy2_outcome dst w1)
    as [[Hsame [x Hx]] | (t & g & Hne & Hsrc & Hfiles & Hok)].
  - destruct (Fs.copy2 e src dst w1) as [r w2]. cbn [fst snd] in Hsame, Hx.
    subst r. unfold safe. cbn [snd]. now rewrite Hsame.
  - destruct (Fs.copy2 e src dst w1) as [r w2]. cbn [fst snd] in Hfiles, Hok.
    subst r.
    assert (Hs : files w1 !! src = Some f).
    { destruct Hsafe1 as [Hs | [Hgone _]]; [exact Hs | congruence]. }
    assert (g = f) as -> by congruence.
    assert (Hkeep : <[t := f]> (files w1) !! src = Some f)
      by now rewrite lookup_insert_ne.
    unfold bind, print. destruct (printable line);
      [| unfold safe, raise; cbn [snd]; rewrite Hfiles; now left].
    unfold emit. cbv beta iota.
    destruct remove_origin.
    + destruct (remove_original_outcome
                  {| files := files w2; dirs := dirs w2;
                     trace := trace w2 ++ [EvPrint line] |}) as [_ Hrm].
      cbn [files] in Hrm. unfold safe.
      destruct Hrm as [-> | ->]; rewrite Hfiles; [now left |].
      right. split; [apply lookup_delete_eq |].
      exists t. split; [exact Hne |].
      rewrite lookup_delete_ne by congruence. apply lookup_insert_eq.
    + unfold safe, ret. cbn [snd files]. rewrite Hfiles. now left.
Qed.

Lemma safe_place_unsorted (output_path : Path) (remove_origin : bool) :
  preserves safe (place_unsorted e src output_path remove_origin).
Proof. unfold place_unsorted. cbv zeta. apply copy_then_delete_safe. Qed.

Lemma safe_place (output_path : Path) (order_by : pystr) (remove_origin : bool)
    (metadata : value) :
  preserves safe (place e src output_path order_by remove_origin metadata).
Proof.
  unfold place.
  apply preserves_bind; [apply preserves_lift |]. intros [[folder ans] song].
  cbv zeta. apply preserves_bind.
  - intros w Hw. unfold safe. now rewrite mkdir_files.
  - intros _ w Hw. exact Hw.
Qed.

Lemma safe_process_file (api_key contact_email : pystr) (output_path : Path)
    (remove_origin : bool) :
  preserves safe (process_file e src api_key contact_email output_path remove_origin).
Proof.
  unfold process_file, process_file_body, generate_fingerprint, print, printable.
  pres; first [ apply safe_emit
              | apply recognize_song_acoustid_preserves; intros ev _; apply safe_emit
              | apply results_loop_preserves;
                  [intros ev _; apply safe_emit | apply safe_place_unsorted] ].
Qed.

Lemma safe_process_candidate (output_path : Path) (order_by api_key contact_email : pystr)
    (remove_origin : bool) :
  preserves safe (process_candidate e output_path order_by api_key contact_email
                    remove_origin src).
Proof.
  unfold process_candidate, reencode.
  apply preserves_bind; [apply preserves_get_world |]. intros w.
  destruct (_ || _); [apply safe_print |].
  destruct (negb _); [apply safe_print |].
  destruct (forallb utf8_encodable src);
    [| intros w1 H1; exact H1].
  intros w1 H1. rewrite bind_lift_ok. revert w1 H1.
  apply preserves_bind; [apply safe_process_file |].
  intros metadata. destruct (truthy metadata); [apply safe_place | apply preserves_ret].
Qed.

End Safety.

(** The content of a candidate survives its processing: whatever the
    collaborators answer and whichever file operation fails, after
    [process_candidate], returned or raised, the candidate still holds its
    content, or it is gone and another path holds that content with its
    modification time. *)
Theorem candidate_content_survives (e : env) (output_path : Path)
    (order_by api_key contact_email : pystr) (remove_origin : bool)
    (candidate : Path) (w : world) (f : file) :
  files w !! candidate = Some f ->
  files (snd (process_candidate e output_path order_by api_key contact_email
                remove_origin candidate w)) !! candidate = Some f
  \/ (files (snd (process_candidate e output_path order_by api_key contact_email
                    remove_origin candidate w)) !! candidate = None
      /\ exists q, q <> candidate
                   /\ files (snd (process_candidate e output_path order_by api_key
                                    contact_email remove_origin candidate w)) !! q
                      = Some f).
Proof.
  intros Hf.
  apply (safe_process_candidate e candidate f output_path order_by api_key
           contact_email remove_origin w).
  now left.
Qed.

Lemma candidate_content_survives_witness :
  files (snd (process_candidate (env_of (response_of [without_recordings]) no_fault)
                out (lit "artist") key email true song_a world0)) !! song_a
  = Some file_a
  \/ (files (snd (process_candidate (env_of (response_of [without_recordings]) no_fault)
                    out (lit "artist") key email true song_a world0)) !! song_a = None
      /\ exists q, q <> song_a
                   /\ files (snd (process_candidate
                                    (env_of (response_of [without_recordings]) no_fault)
                                    out (lit "artist") key email true song_a world0)) !! q
                      = Some file_a).
Proof.
  apply (candidate_content_survives
           (env_of (response_of [without_recordings]) no_fault)
           out (lit "artist") key email true song_a world0 file_a).
  reflexivity.
Defined.

(** ** Identified files *)

Section Unbound.

Lemma mkdir_trace (e : env) (p : Path) (w : world) :
  trace (snd (Fs.mkdir e p w)) = trace w ++ [EvMkdir p].
Proof.
  unfold Fs.mkdir, Fs.fault, bind, emit, get_world, set_dirs, ret, raise.
  destruct (fs_fault e (OpMkdir p)); cbv beta iota; [reflexivity |].
  repeat match goal with
         | |- context [if ?b then _ else _] => destruct b
         end; reflexivity.
Qed.

End Unbound.

(** The run of the placement as parser.py stands. *)
Lemma placement_never_copies_run (e : env) (file_path output_path : Path)
    (order_by : pystr) (remove_origin : bool) (metadata : value) (w : world) :
  exists x w',
    place e file_path output_path order_by remove_origin metadata w
    = (Raise x, w')
    /\ files w' = files w
    /\ (trace w' = trace w
        \/ trace w'
           = trace w ++ [EvMkdir (path_div output_path (unknown_folder order_by))]).
Proof.
  unfold place. unfold bind at 1, lift.
  destruct (derive_names order_by metadata) as [[[folder ans] song]|x] eqn:E.
  - apply derive_names_ok in E as (-> & -> & _). cbv zeta. unfold bind at 1.
    pose proof (mkdir_files e (path_div output_path (unknown_folder order_by)) w)
      as Hfiles.
    pose proof (mkdir_trace e (path_div output_path (unknown_folder order_by)) w)
      as Htrace.
    destruct (Fs.mkdir e _ w) as [[[]|x] w1]; cbn [snd] in Hfiles, Htrace.
    + exists NameError, w1. auto.
    + exists x, w1. auto.
  - exists x, w. auto.
Qed.

(** As parser.py stands, the placement of an identified file (lines
    74-137) never returns and never copies or deletes: it raises, the
    regular files are as they were, and the one thing it may have done is
    to ask for the folder of the unknown artist, album or year, which it
    does only when the metadata names no artist, no album and no year. *)
Theorem placement_never_copies (e : env) (file_path output_path : Path)
    (order_by : pystr) (remove_origin : bool) (metadata : value) (w : world) :
  exists x w',
    place e file_path output_path order_by remove_origin metadata w
    = (Raise x, w')
    /\ files w' = files w
    /\ (trace w' = trace w
        \/ trace w'
           = trace w ++ [EvMkdir (path_div output_path (unknown_folder order_by))]).
Proof. apply placement_never_copies_run. Qed.

(** One turn of the loop on an identified candidate. *)
Lemma identified_candidate_raises_run (e : env) (output_path : Path)
    (order_by api_key contact_email : pystr) (remove_origin : bool)
    (candidate : Path) (w : world) (metadata : value) :
  valid_candidate w candidate = true ->
  forallb utf8_encodable candidate = true ->
  fst (process_file e candidate api_key contact_email output_path remove_origin w)
  = Ok metadata ->
  truthy metadata = true ->
  exists x w',
    process_candidate e output_path order_by api_key contact_email
      remove_origin candidate w = (Raise x, w')
    /\ files w'
       = files (snd (process_file e candidate api_key contact_email output_path
                       remove_origin w)).
Proof.
  intros Hvalid Henc Hfile Htruthy.
  unfold valid_candidate in Hvalid.
  apply andb_prop in Hvalid as [[Hex Hisfile]%andb_prop Hsup].
  unfold process_candidate.
  rewrite bind_get_world, Hex, Hisfile, Hsup. cbn [negb orb].
  unfold reencode. rewrite Henc, bind_lift_ok.
  destruct (process_file e candidate api_key contact_email output_path remove_origin w)
    as [r w1] eqn:Hpf.
  cbn [fst snd] in *. subst r.
  rewrite (bind_run _ _ _ _ _ Hpf), Htruthy.
  destruct (placement_never_copies_run e candidate output_path order_by remove_origin
              metadata w1) as (x & w' & Hplace & Hfiles & _).
  exists x, w'. split; assumption.
Qed.

(** As parser.py stands, a candidate that is identified is never placed:
    when [process_file] returns metadata for a valid candidate, the turn of
    the loop (lines 63-137) raises, and the regular files are as
    [process_file] left them. *)
Theorem identified_candidate_raises (e : env) (output_path : Path)
    (order_by api_key contact_email : pystr) (remove_origin : bool)
    (candidate : Path) (w : world) (metadata : value) :
  valid_candidate w candidate = true ->
  forallb utf8_encodable candidate = true ->
  fst (process_file e candidate api_key contact_email output_path remove_origin w)
  = Ok metadata ->
  truthy metadata = true ->
  exists x w',
    process_candidate e output_path order_by api_key contact_email
      remove_origin candidate w = (Raise x, w')
    /\ files w'
       = files (snd (process_file e candidate api_key contact_email output_path
                       remove_origin w)).
Proof. apply identified_candidate_raises_run. Qed.

Lemma identified_candidate_raises_witness :
  exists x w',
    process_candidate (env_of (response_of [with_recording (lit "R1")]) no_fault)
      out (lit "artist") key email false song_a world0 = (Raise x, w')
    /\ files w'
       = files (snd (process_file (env_of (response_of [with_recording (lit "R1")]) no_fault)
                       song_a key email out false world0)).
Proof.
  apply (identified_candidate_raises
           (env_of (response_of [with_recording (lit "R1")]) no_fault)
           out (lit "artist") key email false song_a world0 alice);
    vm_compute; reflexivity.
Defined.

Section FirstIdentified.

Variables (e : env) (candidate : Path) (rest : list Path) (batch_size : Z)
          (output_path : Path) (order_by api_key contact_email : pystr)
          (remove_origin : bool) (w : world) (metadata : value).

(** The world in which the first candidate of a run is processed. *)
Let started : world :=
  add_events w
    [EvExecutorEnter;
     EvPrint (MsgBatch 1 (Z.of_nat (length (candidate :: rest)) / batch_size + 1)
                (Z.of_nat (length (slice (candidate :: rest) 0 batch_size))))].

Hypothesis Hpos : (0 < batch_size)%Z.
Hypothesis Hvalid : valid_candidate w candidate = true.
Hypothesis Hencodable : forallb utf8_encodable candidate = true.
Hypothesis Hidentified :
  fst (process_file e candidate api_key contact_email output_path remove_origin started)
  = Ok metadata.
Hypothesis Htruthy : truthy metadata = true.

Lemma first_identified_run :
  exists x,
    process_files_in_batches e (candidate :: rest) batch_size output_path
      order_by api_key contact_email remove_origin w
    = (Raise x,
       add_events
         (snd (process_candidate e output_path order_by api_key contact_email
                 remove_origin candidate started))
         [EvExecutorExit]).
Proof.
  destruct (identified_candidate_raises_run e output_path order_by api_key contact_email
              remove_origin candidate started metadata Hvalid Hencodable Hidentified
              Htruthy) as (x & w' & Hturn & _).
  exists x. rewrite Hturn. cbn [snd].
  unfold process_files_in_batches.
  rewrite (bind_run (emit EvExecutorEnter) _ w (add_events w [EvExecutorEnter]) tt eq_refl).
  unfold finally.
  rewrite (py_range_positive (candidate :: rest) batch_size Hpos), bind_lift_ok.
  destruct (count_bounds (candidate :: rest) batch_size Hpos) as [Hcover _].
  destruct (Z.to_nat ((Z.of_nat (length (candidate :: rest)) + batch_size - 1) / batch_size))
    as [|n] eqn:Hn.
  { simpl in Hcover. lia. }
  cbn [seq List.map for_each].
  change (Z.of_nat 0 * batch_size)%Z with 0%Z.
  rewrite Z.div_0_l by lia.
  set (line := MsgBatch (0 + 1) _ _).
  assert (Hprint : print line (add_events w [EvExecutorEnter]) = (Ok tt, started)).
  { unfold print, printable, emit, started, add_events. subst line.
    cbv beta iota. cbn [files dirs trace]. now rewrite <- app_assoc. }
  assert (Hslice : slice (candidate :: rest) 0 batch_size
                   = candidate :: take (Z.to_nat batch_size - 1) rest).
  { unfold slice. destruct (Z.to_nat batch_size) as [|k] eqn:Hk; [lia |].
    simpl. now rewrite Nat.sub_0_r. }
  assert (Hbatch : (print line ;;
                    for_each (slice (candidate :: rest) 0 batch_size)
                      (process_candidate e output_path order_by api_key
                         contact_email remove_origin))
                     (add_events w [EvExecutorEnter])
                   = (Raise x, w')).
  { rewrite (bind_run _ _ _ _ _ Hprint), Hslice. cbn [for_each].
    unfold bind. now rewrite Hturn. }
  unfold bind at 1. rewrite Hbatch. reflexivity.
Qed.

End FirstIdentified.

(** As parser.py stands, a run ends at the first identified file.  When
    the first candidate is valid and [process_file] returns metadata for
    it, the run raises as soon as the turn of that candidate is over: the
    executor is left and nothing else happens, so no later candidate is
    looked at. *)
Theorem identified_file_ends_the_run (e : env) (candidate : Path) (rest : list Path)
    (batch_size : Z) (output_path : Path) (order_by api_key contact_email : pystr)
    (remove_origin : bool) (w : world) (metadata : value) :
  (0 < batch_size)%Z ->
  valid_candidate w candidate = true ->
  forallb utf8_encodable candidate = true ->
  fst (process_file e candidate api_key contact_email output_path remove_origin
         (add_events w
            [EvExecutorEnter;
             EvPrint (MsgBatch 1 (Z.of_nat (length (candidate :: rest)) / batch_size + 1)
                        (Z.of_nat (length (slice (candidate :: rest) 0 batch_size))))]))
  = Ok metadata ->
  truthy metadata = true ->
  exists x,
    process_files_in_batches e (candidate :: rest) batch_size output_path
      order_by api_key contact_email remove_origin w
    = (Raise x,
       add_events
         (snd (process_candidate e output_path order_by api_key contact_email
                 remove_origin candidate
                 (add_events w
                    [EvExecutorEnter;
                     EvPrint (MsgBatch 1
                                (Z.of_nat (length (candidate :: rest)) / batch_size + 1)
                                (Z.of_nat (length (slice (candidate :: rest) 0
                                                     batch_size))))])))
         [EvExecutorExit]).
Proof. apply first_identified_run. Qed.

Lemma identified_file_ends_the_run_witness :
  exists x,
    process_files_in_batches
      (env_of (response_of [with_recording (lit "R1")]) no_fault)
      (song_a :: [song_b]) 100 out (lit "artist") key email false world0
    = (Raise x,
       add_events
         (snd (process_candidate
                 (env_of (response_of [with_recording (lit "R1")]) no_fault)
                 out (lit "artist") key email false song_a
                 (add_events world0
                    [EvExecutorEnter;
                     EvPrint (MsgBatch 1
                                (Z.of_nat (length (song_a :: [song_b])) / 100 + 1)
                                (Z.of_nat (length (slice (song_a :: [song_b]) 0 100))))])))
         [EvExecutorExit]).
Proof.
  apply (identified_file_ends_the_run
           (env_of (response_of [with_recording (lit "R1")]) no_fault)
           song_a [song_b] 100 out (lit "artist") key email false world0 alice);
    vm_compute; reflexivity.
Defined.

(** ** The events of one turn *)

Section TurnFootprint.

Variables (w0 : world) (pre : list event) (P : event -> bool) (e : env)
          (output_path : Path).
Hypothesis HP : forall ev, turn_event output_path ev = true -> P ev = true.

(** Since [w0] the trace has grown by [pre] and then by events in [P]. *)
Let inv : world -> Prop := since w0 pre P.

Ltac quiet :=
  first [ apply since_emit, HP; reflexivity
        | apply since_mkdir, HP; reflexivity
        | apply since_unlink, HP; reflexivity
        | apply since_set_files
        | apply since_set_dirs
        | apply since_fault ].

Lemma turn_lookup (fingerprint : pystr) (duration : Z) (api_key : pystr) :
  preserves inv (recognize_song_acoustid e fingerprint duration api_key).
Proof. unfold recognize_song_acoustid, print, printable. pres; quiet. Qed.

Lemma turn_catalog (recording_id : value) (contact_email : pystr) :
  preserves inv (get_musicbrainz_metadata e recording_id contact_email).
Proof. unfold get_musicbrainz_metadata, print, printable. pres; quiet. Qed.

Lemma turn_recordings_loop (contact_email : pystr) (recordings : list value) :
  preserves inv (recordings_loop e contact_email recordings).
Proof.
  induction recordings as [|recording rest IH]; simpl; pres;
    first [quiet | apply turn_catalog | exact IH].
Qed.

Lemma turn_remove_original (file_path : Path) :
  preserves inv (remove_original e file_path).
Proof. unfold remove_original, print, printable. pres; quiet. Qed.

Lemma turn_place_unsorted (file_path : Path) (remove_origin : bool) :
  preserves inv (place_unsorted e file_path output_path remove_origin).
Proof.
  unfold place_unsorted, print, printable. cbv zeta. pres;
    first [ quiet
          | apply since_copy2, HP, bool_decide_eq_true_2; reflexivity
          | apply turn_remove_original ].
Qed.

Lemma turn_results_loop (file_path : Path) (contact_email : pystr)
    (remove_origin : bool) (results : list value) :
  preserves inv
    (results_loop e file_path contact_email output_path remove_origin results).
Proof.
  induction results as [|result rest IH]; simpl; pres;
    first [ quiet | apply turn_recordings_loop | apply turn_place_unsorted
          | exact IH ].
Qed.

Lemma turn_process_file (file_path : Path) (api_key contact_email : pystr)
    (remove_origin : bool) :
  preserves inv
    (process_file e file_path api_key contact_email output_path remove_origin).
Proof.
  unfold process_file, process_file_body, generate_fingerprint, print, printable.
  pres; first [quiet | apply turn_lookup | apply turn_results_loop].
Qed.

Lemma turn_place (file_path : Path) (order_by : pystr) (remove_origin : bool)
    (metadata : value) :
  preserves inv (place e file_path output_path order_by remove_origin metadata).
Proof.
  unfold place.
  apply preserves_bind; [apply preserves_lift |]. intros [[folder ans] song].
  cbv zeta. apply preserves_bind; [quiet |].
  intros _ w Hw. exact Hw.
Qed.

Lemma turn_process_candidate (order_by api_key contact_email : pystr)
    (remove_origin : bool) (candidate : Path) :
  preserves inv
    (process_candidate e output_path order_by api_key contact_email remove_origin
       candidate).
Proof.
  unfold process_candidate, print, printable.
  pres; first [quiet | apply turn_process_file | apply turn_place].
Qed.

End TurnFootprint.

Lemma turn_event_unsorted (output_path : Path) (ev : event) :
  turn_event output_path ev = true -> unsorted_copy output_path ev = true.
Proof. destruct ev as [[]| | | | | | | | | |]; simpl; auto. Qed.

Lemma turn_event_no_batch (output_path : Path) (ev : event) :
  turn_event output_path ev = true -> negb (is_batch_line ev) = true.
Proof. destruct ev as [[]| | | | | | | | | |]; simpl; auto. Qed.

(** A run adds the executor and the batch lines to the events of its
    turns. *)
Lemma run_footprint (w0 : world) (pre : list event) (P : event -> bool) (e : env)
    (candidates : list Path) (batch_size : Z) (output_path : Path)
    (order_by api_key contact_email : pystr) (remove_origin : bool) :
  (forall ev, turn_event output_path ev = true -> P ev = true) ->
  P EvExecutorEnter = true ->
  P EvExecutorExit = true ->
  (forall i total size, P (EvPrint (MsgBatch i total size)) = true) ->
  preserves (since w0 pre P)
    (process_files_in_batches e candidates batch_size output_path order_by
       api_key contact_email remove_origin).
Proof.
  intros HP Henter Hexit Hbatch.
  unfold process_files_in_batches, print, printable.
  pres; first [ apply since_emit; auto
              | now apply turn_process_candidate ].
Qed.

(** ** Where the copies go *)

(** As parser.py stands, the unsorted folder is the only place a run
    copies to: whatever the collaborators answer, every copy of a run has
    for destination the name of its source under [unsorted] in the output
    folder.  No file is ever copied to the folder of an artist, an album or
    a year. *)
Theorem copies_go_to_unsorted (e : env) (candidates : list Path) (batch_size : Z)
    (output_path : Path) (order_by api_key contact_email : pystr) (remove_origin : bool)
    (w : world) :
  forallb (unsorted_copy output_path)
    (new_events (process_files_in_batches e candidates batch_size output_path
                   order_by api_key contact_email remove_origin) w)
  = true.
Proof.
  destruct (since_new_events
              (process_files_in_batches e candidates batch_size output_path
                 order_by api_key contact_email remove_origin)
              w [] (unsorted_copy output_path)) as (evs & Hev & Hall).
  - apply run_footprint; try reflexivity.
    + apply turn_event_unsorted.
    + exists []. simpl. now rewrite app_nil_r.
  - rewrite Hev. exact Hall.
Qed.

(** ** The batches that are announced and the batches that are run *)

Lemma filter_none {A} (f : A -> bool) (l : list A) :
  forallb (fun x => negb (f x)) l = true -> List.filter f l = [].
Proof.
  induction l as [|x l IH]; [reflexivity |].
  intros [Hx Hl]%andb_prop. simpl. apply negb_true_iff in Hx. rewrite Hx. auto.
Qed.

Section BatchLines.

Variables (e : env) (files : list Path) (batch_size : Z) (output_path : Path)
          (order_by api_key contact_email : pystr) (remove_origin : bool).

(** The body of the loop of line 60. *)
Let body (i : Z) : M unit :=
  let batch := slice files i batch_size in
  print (MsgBatch (i / batch_size + 1) (Z.of_nat (length files) / batch_size + 1)
           (Z.of_nat (length batch))) ;;
  for_each batch
    (process_candidate e output_path order_by api_key contact_email remove_origin).

(** One batch prints one batch line, the first of its events. *)
Lemma body_batch_line (i : Z) (w : world) :
  exists evs,
    trace (snd (body i w))
    = trace w
      ++ EvPrint (MsgBatch (i / batch_size + 1)
                    (Z.of_nat (length files) / batch_size + 1)
                    (Z.of_nat (length (slice files i batch_size))))
         :: evs
    /\ List.filter is_batch_line evs = [].
Proof.
  set (line := EvPrint (MsgBatch (i / batch_size + 1)
                          (Z.of_nat (length files) / batch_size + 1)
                          (Z.of_nat (length (slice files i batch_size))))).
  assert (H : since w [line] (fun ev => negb (is_batch_line ev)) (snd (body i w))).
  { unfold body. cbv zeta. apply bind_establish.
    - exists []. split; reflexivity.
    - intros _. apply preserves_for_each. intros p.
      apply turn_process_candidate, turn_event_no_batch. }
  destruct H as (evs & Ht & Hall). exists evs. split; [exact Ht |].
  now apply filter_none.
Qed.

(** The loop prints at most one batch line for each start, and exactly
    one when it comes to its end. *)
Lemma loop_batch_lines (starts : list Z) (w : world) :
  exists evs,
    trace (snd (for_each starts body w)) = trace w ++ evs
    /\ (length (List.filter is_batch_line evs) <= length starts)%nat
    /\ (fst (for_each starts body w) = Ok tt ->
        length (List.filter is_batch_line evs) = length starts).
Proof.
  revert w. induction starts as [|i starts IH]; intros w.
  - exists []. simpl. split; [now rewrite app_nil_r | auto].
  - cbn [for_each]. unfold bind.
    destruct (body_batch_line i w) as (evs1 & Ht1 & Hnone).
    destruct (body i w) as [[[]|x] w1]; cbn [snd] in Ht1.
    + destruct (IH w1) as (evs2 & Ht2 & Hle & Heq).
      exists (EvPrint (MsgBatch (i / batch_size + 1)
                         (Z.of_nat (length files) / batch_size + 1)
                         (Z.of_nat (length (slice files i batch_size))))
              :: evs1 ++ evs2).
      split; [rewrite Ht2, Ht1; now rewrite <- app_assoc |].
      cbn [List.filter is_batch_line]. rewrite List.filter_app, Hnone.
      cbn [app length]. split; [lia |]. intros Hok. now rewrite Heq.
    + exists (EvPrint (MsgBatch (i / batch_size + 1)
                         (Z.of_nat (length files) / batch_size + 1)
                         (Z.of_nat (length (slice files i batch_size))))
              :: evs1).
      split; [exact Ht1 |]. cbn [List.filter is_batch_line fst]. rewrite Hnone.
      cbn [length]. split; [lia | discriminate].
Qed.

(** The batch lines of a run are those of its loop. *)
Lemma run_batch_lines (w : world) (starts : list Z) :
  py_range (Z.of_nat (length files)) batch_size = Ok starts ->
  (length (List.filter is_batch_line
             (new_events (process_files_in_batches e files batch_size output_path
                            order_by api_key contact_email remove_origin) w))
   <= length starts)%nat
  /\ (fst (process_files_in_batches e files batch_size output_path order_by api_key
             contact_email remove_origin w) = Ok tt ->
      length (List.filter is_batch_line
                (new_events (process_files_in_batches e files batch_size output_path
                               order_by api_key contact_email remove_origin) w))
      = length starts).
Proof.
  intros Hrange. unfold new_events, process_files_in_batches.
  rewrite (bind_run (emit EvExecutorEnter) _ w (add_events w [EvExecutorEnter]) tt eq_refl).
  unfold finally. cbv zeta. rewrite Hrange, bind_lift_ok.
  change (fun i : Z => _) with body.
  destruct (loop_batch_lines starts (add_events w [EvExecutorEnter]))
    as (evs & Ht & Hle & Heq).
  destruct (for_each starts body (add_events w [EvExecutorEnter])) as [r w1].
  cbn [fst snd] in *. unfold emit. cbn [fst snd trace].
  rewrite Ht. cbn [trace add_events]. rewrite <- !app_assoc, drop_app_length.
  cbn [app List.filter is_batch_line]. rewrite List.filter_app.
  cbn [List.filter is_batch_line]. rewrite app_nil_r.
  split; [exact Hle |]. intros Hok. apply Heq. now destruct r as [[]|].
Qed.

End BatchLines.

(** A run over a non-empty list starts by entering the executor and
    printing the line of the first batch, which announces the number of
    files divided by the batch size, rounded down, plus one.  That is one
    batch too many when the batch size divides the number of files: the
    run prints at most the number of files divided by the batch size,
    rounded up, of batch lines, and exactly that many when it returns. *)
Theorem announced_batch_total (e : env) (files : list Path) (batch_size : Z)
    (output_path : Path) (order_by api_key contact_email : pystr) (remove_origin : bool)
    (w : world) :
  (0 < batch_size)%Z ->
  files <> [] ->
  (exists evs,
      new_events (process_files_in_batches e files batch_size output_path order_by
                    api_key contact_email remove_origin) w
      = EvExecutorEnter
        :: EvPrint (MsgBatch 1 (Z.of_nat (length files) / batch_size + 1)
                      (Z.of_nat (length (slice files 0 batch_size))))
        :: evs)
  /\ (Z.of_nat (length (List.filter is_batch_line
                          (new_events (process_files_in_batches e files batch_size
                                         output_path order_by api_key contact_email
                                         remove_origin) w)))
      <= (if (Z.of_nat (length files) mod batch_size =? 0)%Z
          then Z.of_nat (length files) / batch_size
          else Z.of_nat (length files) / batch_size + 1))%Z
  /\ (fst (process_files_in_batches e files batch_size output_path order_by api_key
             contact_email remove_origin w) = Ok tt ->
      Z.of_nat (length (List.filter is_batch_line
                          (new_events (process_files_in_batches e files batch_size
                                         output_path order_by api_key contact_email
                                         remove_origin) w)))
      = (if (Z.of_nat (length files) mod batch_size =? 0)%Z
         then Z.of_nat (length files) / batch_size
         else Z.of_nat (length files) / batch_size + 1)%Z).
Proof.
  intros Hpos Hne. split.
  - set (line := EvPrint (MsgBatch 1 (Z.of_nat (length files) / batch_size + 1)
                            (Z.of_nat (length (slice files 0 batch_size))))).
    destruct (since_new_events
                (process_files_in_batches e files batch_size output_path order_by
                   api_key contact_email remove_origin)
                w [EvExecutorEnter; line] (fun _ => true)) as (evs & Hev & _);
      [| now exists evs].
    assert (HP : forall ev, turn_event output_path ev = true
                            -> (fun _ : event => true) ev = true) by reflexivity.
    unfold process_files_in_batches.
    rewrite (bind_run (emit EvExecutorEnter) _ w (add_events w [EvExecutorEnter]) tt
               eq_refl).
    apply finally_establish; [| now apply since_emit].
    rewrite (py_range_positive files batch_size Hpos), bind_lift_ok.
    destruct (count_bounds files batch_size Hpos) as [Hcover _].
    destruct (Z.to_nat ((Z.of_nat (length files) + batch_size - 1) / batch_size))
      as [|n] eqn:Hn.
    { destruct files; [congruence | simpl in Hcover; lia]. }
    cbn [seq List.map for_each].
    apply bind_establish.
    + apply bind_establish.
      * change (Z.of_nat 0 * batch_size)%Z with 0%Z.
        rewrite Z.div_0_l by lia. exists []. simpl.
        split; [now rewrite <- app_assoc | reflexivity].
      * intros _. apply preserves_for_each. intros p.
        now apply turn_process_candidate.
    + intros _. apply preserves_for_each. intros i.
      apply preserves_bind.
      * unfold print, printable. now apply since_emit.
      * intros _. apply preserves_for_each. intros p.
        now apply turn_process_candidate.
  - destruct (batch_count files batch_size Hpos) as (starts & Hrange & Hcount).
    destruct (run_batch_lines e files batch_size output_path order_by api_key
                contact_email remove_origin w starts Hrange) as [Hle Heq].
    rewrite <- Hcount. split; [lia |]. intros Hok. now rewrite (Heq Hok).
Qed.

Lemma announced_batch_total_witness :
  (exists evs,
      new_events (process_files_in_batches
                    (env_of (response_of [without_recordings]) no_fault)
                    [song_a; song_b] 2 out (lit "artist") key email false) world0
      = EvExecutorEnter
        :: EvPrint (MsgBatch 1 (Z.of_nat (length [song_a; song_b]) / 2 + 1)
                      (Z.of_nat (length (slice [song_a; song_b] 0 2))))
        :: evs)
  /\ (Z.of_nat (length (List.filter is_batch_line
                          (new_events (process_files_in_batches
                                         (env_of (response_of [without_recordings])
                                            no_fault)
                                         [song_a; song_b] 2 out (lit "artist") key email
                                         false) world0)))
      <= (if (Z.of_nat (length [song_a; song_b]) mod 2 =? 0)%Z
          then Z.of_nat (length [song_a; song_b]) / 2
          else Z.of_nat (length [song_a; song_b]) / 2 + 1))%Z
  /\ (fst (process_files_in_batches (env_of (response_of [without_recordings]) no_fault)
             [song_a; song_b] 2 out (lit "artist") key email false world0) = Ok tt ->
      Z.of_nat (length (List.filter is_batch_line
                          (new_events (process_files_in_batches
                                         (env_of (response_of [without_recordings])
                                            no_fault)
                                         [song_a; song_b] 2 out (lit "artist") key email
                                         false) world0)))
      = (if (Z.of_nat (length [song_a; song_b]) mod 2 =? 0)%Z
         then Z.of_nat (length [song_a; song_b]) / 2
         else Z.of_nat (length [song_a; song_b]) / 2 + 1)%Z).
Proof.
  apply (announced_batch_total
           (env_of (response_of [without_recordings]) no_fault)
           [song_a; song_b] 2 out (lit "artist") key email false world0);
    [reflexivity | discriminate].
Defined.
